(** * Torpedo: a manual PE32+ module loader

    A shallow embedding of the loader's sources
    ([binarywriter.hpp], [pe.hpp], [peerror.hpp], [loader.hpp]) and the
    properties established about them.

    Conventions of the embedding:
    - a byte buffer ([std::vector<std::uint8_t>], the region returned by
      [VirtualAlloc]) is a [list byte];
    - a pointer into a buffer is the byte offset from the buffer's start
      (a [Z], so that a negative [e_lfanew] can be represented);
    - [std::size_t] / [std::uint64_t] values are [Z] with the wrap-around
      modulo [2^64] written out, [DWORD] modulo [2^32];
    - dereferencing outside the buffer is undefined behaviour in the
      source; the embedding makes it the explicit outcome [Undefined]. *)

From Stdlib Require Import String ZArith List Bool Lia.
From coqutil Require Import Byte Word.LittleEndianList.
Import ListNotations.
Local Open Scope Z_scope.

(** ** Outcomes *)

(** The outcome of running a piece of the loader: a value, undefined
    behaviour (an access outside a buffer, a violated library
    precondition), or a loop that was still running when the fuel of the
    model ran out. *)
Inductive result (A : Type) : Type :=
| Ret (a : A)
| Undefined
| OutOfFuel.
Arguments Ret {A} a.
Arguments Undefined {A}.
Arguments OutOfFuel {A}.

Definition bind {A B : Type} (r : result A) (k : A -> result B) : result B :=
  match r with
  | Ret a => k a
  | Undefined => Undefined
  | OutOfFuel => OutOfFuel
  end.

Notation "x <- r ;; k" := (bind r (fun x => k))
  (at level 61, r at next level, right associativity).
Notation "' p <- r ;; k" := (bind r (fun x => let p := x in k))
  (at level 61, p pattern, r at next level, right associativity).

(** ** Fixed-width integers *)

Definition wrap64 (z : Z) : Z := z mod 2 ^ 64.
Definition wrap32 (z : Z) : Z := z mod 2 ^ 32.

(** The value of a 32-bit pattern read as a signed [LONG]. *)
Definition signed32 (z : Z) : Z := if z <? 2 ^ 31 then z else z - 2 ^ 32.

(** ** Byte buffers *)

Definition len (m : list byte) : Z := Z.of_nat (length m).

(** [slice m off n]: the [n] bytes of [m] starting at offset [off], when
    the whole range lies inside [m]. *)
Definition slice (m : list byte) (off n : Z) : result (list byte) :=
  if (0 <=? off) && (0 <=? n) && (off + n <=? len m)
  then Ret (firstn (Z.to_nat n) (skipn (Z.to_nat off) m))
  else Undefined.

(** Little-endian load of an [n]-byte unsigned integer. *)
Definition load (n : Z) (m : list byte) (off : Z) : result Z :=
  bs <- slice m off n ;; Ret (le_combine bs).

Definition load16 := load 2.
Definition load32 := load 4.
Definition load64 := load 8.

(** [memcpy(&m[off], data, |data|)] on a range known to be inside [m]. *)
Definition splice (m : list byte) (off : Z) (data : list byte) : list byte :=
  firstn (Z.to_nat off) m ++ data ++ skipn (Z.to_nat off + length data) m.

(** A store through a raw pointer: undefined outside the buffer. *)
Definition store (m : list byte) (off : Z) (data : list byte) : result (list byte) :=
  if (0 <=? off) && (off + len data <=? len m)
  then Ret (splice m off data)
  else Undefined.

Definition store64 (m : list byte) (off v : Z) : result (list byte) :=
  store m off (le_split 8 v).

(** The byte at offset [i], if any. *)
Definition byte_at (m : list byte) (i : Z) : option byte :=
  if 0 <=? i then nth_error m (Z.to_nat i) else None.

(** ** binarywriter.hpp *)

Module BinaryWriter.

Record t : Type := mk {
  _buffer : list byte;
  _size : Z;
  _pos : Z
}.

(** [BinaryWriter(void* buffer, std::size_t size)]; [_pos{}] is 0. *)
Definition make (buffer : list byte) (size : Z) : t :=
  {| _buffer := buffer; _size := size; _pos := 0 |}.

(** [CanWrite]: [_pos + size <= _size] in [std::size_t] arithmetic. *)
Definition CanWrite (bw : t) (size : Z) : bool :=
  wrap64 (_pos bw + size) <=? _size bw.

(** [ProceedBuffer]: [memcpy] at [_pos], then [_pos += size_bytes]. *)
Definition ProceedBuffer (bw : t) (data : list byte) : t :=
  {| _buffer := splice (_buffer bw) (_pos bw) data;
     _size := _size bw;
     _pos := wrap64 (_pos bw + len data) |}.

(** [operator<<(std::span<T>)], and [operator<<(const T&)] once the
    object is seen as its [sizeof] bytes. *)
Definition write (bw : t) (data : list byte) : t :=
  if CanWrite bw (len data) then ProceedBuffer bw data else bw.

(** [Write(std::span<T>)]: the same with the test negated. *)
Definition Write (bw : t) (data : list byte) : t :=
  if negb (CanWrite bw (len data)) then bw else ProceedBuffer bw data.

Definition Seek (bw : t) (offset : Z) : t :=
  if offset <? _size bw
  then {| _buffer := _buffer bw; _size := _size bw; _pos := offset |}
  else bw.

Definition Skip (bw : t) (offset : Z) : t :=
  if CanWrite bw offset
  then {| _buffer := _buffer bw; _size := _size bw;
          _pos := wrap64 (_pos bw + offset) |}
  else bw.

Definition Buffer (bw : t) : list byte := _buffer bw.
Definition Current (bw : t) : Z := _pos bw.

(** The states the loader can build: the cursor lies inside a buffer
    whose length is the declared size, a [std::size_t]. *)
Definition wf (bw : t) : Prop :=
  len (_buffer bw) = _size bw /\ 0 <= _pos bw <= _size bw /\ _size bw < 2 ^ 64.

End BinaryWriter.

(** ** The PE32+ layout of <winnt.h> *)

(** Modelled from the spec: the Windows SDK header [<Windows.h>] that
    declares the PE structures, their signatures and the page-protection
    and section-characteristic constants is not among the sources. The
    spec names the structures and fields (section 3 and 4.4) and calls the
    input the bit-exact PE32+ image of the Microsoft PE/COFF
    specification (section 6); the offsets and values below are the ones
    that format fixes. *)
Module Winnt.

Definition IMAGE_DOS_SIGNATURE : Z := 0x5A4D.        (* "MZ" *)
Definition IMAGE_NT_SIGNATURE : Z := 0x00004550.     (* "PE\0\0" *)
Definition IMAGE_FILE_MACHINE_AMD64 : Z := 0x8664.
Definition IMAGE_FILE_MACHINE_I386 : Z := 0x014c.

Definition sizeof_IMAGE_DOS_HEADER : Z := 64.
Definition sizeof_IMAGE_NT_HEADERS : Z := 264.
Definition sizeof_IMAGE_SECTION_HEADER : Z := 40.
Definition sizeof_IMAGE_IMPORT_DESCRIPTOR : Z := 20.
Definition sizeof_IMAGE_BASE_RELOCATION : Z := 8.

(** IMAGE_DOS_HEADER *)
Definition off_e_magic : Z := 0.
Definition off_e_lfanew : Z := 60.

(** IMAGE_NT_HEADERS64, offsets from the start of the NT headers. *)
Definition off_Signature : Z := 0.
Definition off_Machine : Z := 4.
Definition off_NumberOfSections : Z := 6.
Definition off_SizeOfOptionalHeader : Z := 20.
Definition off_OptionalHeader : Z := 24.
Definition off_ImageBase : Z := 48.
Definition off_SizeOfImage : Z := 80.
Definition off_DataDirectory : Z := 136.

Definition IMAGE_DIRECTORY_ENTRY_EXPORT : Z := 0.
Definition IMAGE_DIRECTORY_ENTRY_IMPORT : Z := 1.
Definition IMAGE_DIRECTORY_ENTRY_BASERELOC : Z := 5.
Definition IMAGE_DIRECTORY_ENTRY_TLS : Z := 9.

(** IMAGE_SECTION_HEADER *)
Definition off_VirtualSize : Z := 8.
Definition off_VirtualAddress : Z := 12.
Definition off_SizeOfRawData : Z := 16.
Definition off_PointerToRawData : Z := 20.
Definition off_Characteristics : Z := 36.

Definition IMAGE_SCN_MEM_EXECUTE : Z := 0x20000000.
Definition IMAGE_SCN_MEM_WRITE : Z := 0x80000000.

Definition PAGE_READONLY : Z := 0x02.
Definition PAGE_READWRITE : Z := 0x04.
Definition PAGE_EXECUTE_READ : Z := 0x20.
Definition PAGE_EXECUTE_READWRITE : Z := 0x40.

(** IMAGE_IMPORT_DESCRIPTOR. [Characteristics] and [OriginalFirstThunk]
    are the two members of one union: they name the same four bytes. *)
Definition off_imp_Characteristics : Z := 0.
Definition off_imp_OriginalFirstThunk : Z := 0.
Definition off_imp_Name : Z := 12.
Definition off_imp_FirstThunk : Z := 16.

(** IMAGE_IMPORT_BY_NAME: a 16-bit hint, then the name. *)
Definition off_iin_Name : Z := 2.

Definition IMAGE_ORDINAL_FLAG64 : Z := 0x8000000000000000.
Definition IMAGE_SNAP_BY_ORDINAL (thunk : Z) : bool :=
  negb (Z.land thunk IMAGE_ORDINAL_FLAG64 =? 0).
Definition IMAGE_ORDINAL (thunk : Z) : Z := Z.land thunk 0xffff.

(** IMAGE_BASE_RELOCATION *)
Definition off_rel_VirtualAddress : Z := 0.
Definition off_rel_SizeOfBlock : Z := 4.
Definition IMAGE_REL_BASED_DIR64 : Z := 10.

(** IMAGE_TLS_DIRECTORY64 *)
Definition off_AddressOfCallBacks : Z := 24.

(** [IMAGE_FIRST_SECTION(nt)], given the [SizeOfOptionalHeader] read
    from the file header. *)
Definition IMAGE_FIRST_SECTION (nt SizeOfOptionalHeader : Z) : Z :=
  nt + off_OptionalHeader + SizeOfOptionalHeader.

End Winnt.
Import Winnt.

(** ** peerror.hpp *)

Inductive PEError : Type :=
| Success
| InvalidPeFormat
| NotSupportedMachine.

(** ** pe.hpp *)

(** The pointers pushed by the section loop of [Parse]:
    [pSectionHeader++] for [i] from 0 to [n - 1]. *)
Definition section_pointers (first n : Z) : list Z :=
  map (fun i => first + sizeof_IMAGE_SECTION_HEADER * Z.of_nat i)
      (seq 0 (Z.to_nat n)).

(** [std::ranges::find_if] with a predicate that reads memory. *)
Fixpoint find_if {A : Type} (p : A -> result bool) (l : list A) : result (option A) :=
  match l with
  | [] => Ret None
  | x :: l' => b <- p x ;; if (b : bool) then Ret (Some x) else find_if p l'
  end.

Module detail.

Definition inBetween (x lb ub : Z) : bool := (lb <=? x) && (x <? ub).

(** The upper bound is a [DWORD] sum. *)
Definition rvaInSection (data : list byte) (rva header : Z) : result bool :=
  va <- load32 data (header + off_VirtualAddress) ;;
  vs <- load32 data (header + off_VirtualSize) ;;
  Ret (inBetween rva va (wrap32 (va + vs))).

End detail.

Module PE.

(** Pointers are offsets into [_data]; [None] is [nullptr]. *)
Record t : Type := mk {
  _dosHeader : option Z;
  _ntHeader : option Z;
  _sectionHeaders : list Z;
  _data : list byte;
  _error : PEError;
  _ok : bool
}.

Definition SetError (pe : t) (e : PEError) : t :=
  {| _dosHeader := _dosHeader pe; _ntHeader := _ntHeader pe;
     _sectionHeaders := _sectionHeaders pe; _data := _data pe;
     _error := e; _ok := _ok pe |}.

(** [Parse], on the bytes read from the stream. *)
Definition Parse (data : list byte) : result t :=
  let dos := 0 in
  let pe0 := {| _dosHeader := Some dos; _ntHeader := None;
                _sectionHeaders := []; _data := data;
                _error := Success; _ok := false |} in
  e_magic <- load16 data (dos + off_e_magic) ;;
  if negb (e_magic =? IMAGE_DOS_SIGNATURE) then Ret (SetError pe0 InvalidPeFormat) else
  raw <- load32 data (dos + off_e_lfanew) ;;
  let e_lfanew := signed32 raw in
  (* LONG compared with a std::size_t: converted to 64 bits unsigned *)
  if wrap64 e_lfanew <? sizeof_IMAGE_DOS_HEADER then Ret (SetError pe0 InvalidPeFormat) else
  let nt := dos + e_lfanew in
  let pe1 := {| _dosHeader := Some dos; _ntHeader := Some nt;
                _sectionHeaders := []; _data := data;
                _error := Success; _ok := false |} in
  sig <- load32 data (nt + off_Signature) ;;
  if negb (sig =? IMAGE_NT_SIGNATURE) then Ret (SetError pe1 InvalidPeFormat) else
  machine <- load16 data (nt + off_Machine) ;;
  if negb (machine =? IMAGE_FILE_MACHINE_AMD64) then Ret (SetError pe1 NotSupportedMachine) else
  n <- load16 data (nt + off_NumberOfSections) ;;
  soh <- load16 data (nt + off_SizeOfOptionalHeader) ;;
  Ret {| _dosHeader := Some dos; _ntHeader := Some nt;
         _sectionHeaders := section_pointers (IMAGE_FIRST_SECTION nt soh) n;
         _data := data; _error := Success; _ok := true |}.

(** The constructor: [None] is a file that could not be opened. *)
Definition make (file : option (list byte)) : result t :=
  match file with
  | None => Ret {| _dosHeader := None; _ntHeader := None; _sectionHeaders := [];
                   _data := []; _error := Success; _ok := false |}
  | Some data => Parse data
  end.

Definition Ok (pe : t) : bool := _ok pe.
Definition Error (pe : t) : PEError := _error pe.
Definition SectionHeaders (pe : t) : list Z := _sectionHeaders pe.
Definition Data (pe : t) : list byte := _data pe.

(** A field of the NT headers, read through [_ntHeader]. *)
Definition nt_field (pe : t) (width off : Z) : result Z :=
  match _ntHeader pe with
  | None => Undefined
  | Some nt => load width (_data pe) (nt + off)
  end.

Definition ImageSize (pe : t) : result Z := nt_field pe 4 off_SizeOfImage.
Definition ImageBase (pe : t) : result Z := nt_field pe 8 off_ImageBase.

(** [DataDirectory(index)]: the pair (VirtualAddress, Size). *)
Definition DataDirectory (pe : t) (index : Z) : result (Z * Z) :=
  va <- nt_field pe 4 (off_DataDirectory + 8 * index) ;;
  sz <- nt_field pe 4 (off_DataDirectory + 8 * index + 4) ;;
  Ret (va, sz).

Definition Rva2Raw (pe : t) (rva : Z) : result Z :=
  section <- find_if (detail.rvaInSection (_data pe) rva) (_sectionHeaders pe) ;;
  match section with
  | Some sectionHeader =>
      va <- load32 (_data pe) (sectionHeader + off_VirtualAddress) ;;
      raw <- load32 (_data pe) (sectionHeader + off_PointerToRawData) ;;
      Ret (wrap32 (rva - va + raw))
  | None => Ret 0
  end.

(** The result is [None] for [nullptr], else the offset in [_data] of
    the descriptor array. *)
Definition ImportDirectory (pe : t) : result (option Z) :=
  '(va, sz) <- DataDirectory pe IMAGE_DIRECTORY_ENTRY_IMPORT ;;
  if sz =? 0 then Ret None else
  importDirectoryRaw <- Rva2Raw pe va ;;
  Ret (Some importDirectoryRaw).

End PE.

(** ** The host operating system *)

(** What [GetProcAddress] is asked for: an ordinal, or the name found in
    an [IMAGE_IMPORT_BY_NAME]. *)
Inductive symbol : Type :=
| ByOrdinal (ordinal : Z)
| ByName (name : list byte).

(** The calls the loader makes to the host, with their results, in the
    order they happen. Handles and addresses are integers, 0 for [NULL]. *)
Inductive event : Type :=
| EvVirtualAlloc (size : Z) (ret : Z)
| EvLoadLibraryA (dll : list byte) (ret : Z)
| EvGetProcAddress (module : Z) (sym : symbol) (ret : Z)
| EvVirtualProtect (address size newProtect : Z) (ret : bool)
| EvTlsCallback (callback imageBase : Z)
| EvFreeLibrary (module : Z)
| EvVirtualFree (address size : Z).

(** The host is any deterministic function of the calls made so far. *)
Record Host : Type := {
  VirtualAlloc : list event -> Z -> Z;
  LoadLibraryA : list event -> list byte -> Z;
  GetProcAddress : list event -> Z -> symbol -> Z;
  VirtualProtect : list event -> Z -> Z -> Z -> bool
}.

(** The state the loader runs in: the host calls made so far and the
    contents of the region obtained from [VirtualAlloc]. Every [Module]
    object that holds the region's base address sees this one region. *)
Record world : Type := {
  trace : list event;
  region : list byte
}.

Definition M (A : Type) : Type := world -> result (A * world).

Definition mret {A : Type} (a : A) : M A := fun w => Ret (a, w).

Definition mbind {A B : Type} (c : M A) (k : A -> M B) : M B :=
  fun w => match c w with
           | Ret (a, w') => k a w'
           | Undefined => Undefined
           | OutOfFuel => OutOfFuel
           end.

Notation "x <~ c ;; k" := (mbind c (fun x => k))
  (at level 61, c at next level, right associativity).

Definition lift {A : Type} (r : result A) : M A :=
  fun w => match r with
           | Ret a => Ret (a, w)
           | Undefined => Undefined
           | OutOfFuel => OutOfFuel
           end.

Definition emit (e : event) : M unit :=
  fun w => Ret (tt, {| trace := trace w ++ [e]; region := region w |}).

Definition get_trace : M (list event) := fun w => Ret (trace w, w).
Definition get_region : M (list byte) := fun w => Ret (region w, w).
Definition set_region (m : list byte) : M unit :=
  fun w => Ret (tt, {| trace := trace w; region := m |}).

(** Reads and writes through pointers into the region. *)
Definition read (n off : Z) : M Z := m <~ get_region ;; lift (load n m off).
Definition write64 (off v : Z) : M unit :=
  m <~ get_region ;; m' <~ lift (store64 m off v) ;; set_region m'.

(** [&span[i]] on a span of [size] elements: the index must be inside. *)
Definition index (size i : Z) : M Z :=
  if (0 <=? i) && (i <? size) then mret i else lift Undefined.

(** The NUL-terminated string that starts a list of bytes. *)
Fixpoint until_nul (bs : list byte) : result (list byte) :=
  match bs with
  | [] => Undefined
  | b :: bs' =>
      if byte.unsigned b =? 0 then Ret []
      else s <- until_nul bs' ;; Ret (b :: s)
  end.

Definition cstring (m : list byte) (off : Z) : result (list byte) :=
  if (0 <=? off) && (off <=? len m) then until_nul (skipn (Z.to_nat off) m)
  else Undefined.

Definition zeros (n : Z) : list byte := repeat Byte.x00 (Z.to_nat n).

Section HostCalls.

Variable host : Host.

(** [VirtualAlloc(nullptr, size, MEM_COMMIT | MEM_TOP_DOWN,
    PAGE_READWRITE)]: committed pages are zero-filled. The region of
    the model has exactly [size] bytes. *)
Definition callVirtualAlloc (size : Z) : M Z :=
  t <~ get_trace ;;
  let memory := VirtualAlloc host t size in
  _ <~ emit (EvVirtualAlloc size memory) ;;
  _ <~ (if memory =? 0 then mret tt else set_region (zeros size)) ;;
  mret memory.

Definition callLoadLibraryA (dll : list byte) : M Z :=
  t <~ get_trace ;;
  let h := LoadLibraryA host t dll in
  _ <~ emit (EvLoadLibraryA dll h) ;;
  mret h.

Definition callGetProcAddress (module : Z) (sym : symbol) : M Z :=
  t <~ get_trace ;;
  let f := GetProcAddress host t module sym in
  _ <~ emit (EvGetProcAddress module sym f) ;;
  mret f.

Definition callVirtualProtect (address size newProtect : Z) : M bool :=
  t <~ get_trace ;;
  let r := VirtualProtect host t address size newProtect in
  _ <~ emit (EvVirtualProtect address size newProtect r) ;;
  mret r.

End HostCalls.

Definition callFreeLibrary (module : Z) : M unit := emit (EvFreeLibrary module).

(** [VirtualFree(base, size, MEM_FREE)]. *)
Definition callVirtualFree (address size : Z) : M unit :=
  emit (EvVirtualFree address size).

(** A [for] loop over a list, in order. *)
Fixpoint for_each {A : Type} (f : A -> M unit) (l : list A) : M unit :=
  match l with
  | [] => mret tt
  | x :: l' => _ <~ f x ;; for_each f l'
  end.

(** ** loader.hpp: class Module *)

Module Module_.

(** [_base] is the address returned by [VirtualAlloc]; the header
    pointers are offsets into the region at that address. *)
Record t : Type := mk {
  _base : Z;
  _imageSize : Z;
  _dosHeader : option Z;
  _ntHeader : option Z;
  _sectionHeaders : list Z;
  _importModules : list Z;
  _error : PEError;
  _ok : bool
}.

Definition SetError (m : t) (e : PEError) : t :=
  {| _base := _base m; _imageSize := _imageSize m;
     _dosHeader := _dosHeader m; _ntHeader := _ntHeader m;
     _sectionHeaders := _sectionHeaders m;
     _importModules := _importModules m;
     _error := e; _ok := _ok m |}.

(** The constructor: the member initialisers, then [Parse] on the
    headers that were copied into the region. *)
Definition make (base imageSize : Z) : M t :=
  let dos := 0 in
  let m0 := {| _base := base; _imageSize := imageSize;
               _dosHeader := Some dos; _ntHeader := None;
               _sectionHeaders := []; _importModules := [];
               _error := Success; _ok := false |} in
  e_magic <~ read 2 (dos + off_e_magic) ;;
  if negb (e_magic =? IMAGE_DOS_SIGNATURE) then mret (SetError m0 InvalidPeFormat) else
  raw <~ read 4 (dos + off_e_lfanew) ;;
  let e_lfanew := signed32 raw in
  if wrap64 e_lfanew <? sizeof_IMAGE_DOS_HEADER then mret (SetError m0 InvalidPeFormat) else
  let nt := dos + e_lfanew in
  let m1 := {| _base := base; _imageSize := imageSize;
               _dosHeader := Some dos; _ntHeader := Some nt;
               _sectionHeaders := []; _importModules := [];
               _error := Success; _ok := false |} in
  sig <~ read 4 (nt + off_Signature) ;;
  if negb (sig =? IMAGE_NT_SIGNATURE) then mret (SetError m1 InvalidPeFormat) else
  machine <~ read 2 (nt + off_Machine) ;;
  if negb (machine =? IMAGE_FILE_MACHINE_AMD64) then mret (SetError m1 NotSupportedMachine) else
  n <~ read 2 (nt + off_NumberOfSections) ;;
  soh <~ read 2 (nt + off_SizeOfOptionalHeader) ;;
  _ <~ write64 (nt + off_ImageBase) (wrap64 base) ;;
  mret {| _base := base; _imageSize := imageSize;
          _dosHeader := Some dos; _ntHeader := Some nt;
          _sectionHeaders := section_pointers (IMAGE_FIRST_SECTION nt soh) n;
          _importModules := []; _error := Success; _ok := true |}.

(** The destructor. *)
Definition destroy (m : t) : M unit :=
  _ <~ for_each callFreeLibrary (_importModules m) ;;
  if negb (_base m =? 0) then callVirtualFree (_base m) (_imageSize m)
  else mret tt.

Definition Ok (m : t) : bool := _ok m.
Definition SectionHeaders (m : t) : list Z := _sectionHeaders m.
Definition ImageBase (m : t) : Z := _base m.

Definition nt_field (m : t) (width off : Z) : M Z :=
  match _ntHeader m with
  | None => lift Undefined
  | Some nt => read width (nt + off)
  end.

(** [FetchDataDirectory<T>(index)]: [None] for [nullptr], else the
    offset in the region of [_base + VirtualAddress]. *)
Definition FetchDataDirectory (m : t) (index : Z) : M (option Z) :=
  va <~ nt_field m 4 (off_DataDirectory + 8 * index) ;;
  sz <~ nt_field m 4 (off_DataDirectory + 8 * index + 4) ;;
  if sz =? 0 then mret None else mret (Some va).

Definition ImportDirectory (m : t) := FetchDataDirectory m IMAGE_DIRECTORY_ENTRY_IMPORT.
Definition ExportDirectory (m : t) := FetchDataDirectory m IMAGE_DIRECTORY_ENTRY_EXPORT.
Definition RelocationDirectory (m : t) := FetchDataDirectory m IMAGE_DIRECTORY_ENTRY_BASERELOC.
Definition TLSDirectory (m : t) := FetchDataDirectory m IMAGE_DIRECTORY_ENTRY_TLS.

Definition AddImportModule (m : t) (module : Z) : t :=
  {| _base := _base m; _imageSize := _imageSize m;
     _dosHeader := _dosHeader m; _ntHeader := _ntHeader m;
     _sectionHeaders := _sectionHeaders m;
     _importModules := _importModules m ++ [module];
     _error := _error m; _ok := _ok m |}.

End Module_.

(** ** loader.hpp: class ModuleLoader *)

Module ModuleLoader.

Import BinaryWriter.

(** *** Phases 2 and 3: staging the image through the [BinaryWriter] *)

(** [sectionHeaders[0]] on a [std::vector]: undefined when empty. *)
Definition first_section (sectionHeaders : list Z) : result Z :=
  match sectionHeaders with
  | [] => Undefined
  | h :: _ => Ret h
  end.

(** [size]: the difference of the two addresses, as a [std::size_t];
    [rawData.data()] is offset 0. *)
Definition header_bytes (pe : PE.t) : result Z :=
  first <- first_section (PE.SectionHeaders pe) ;;
  Ret (wrap64 (first - 0)).

(** [bw << std::span{rawData.begin(), size}]. *)
Definition copy_header_block (pe : PE.t) (bw : BinaryWriter.t) : result BinaryWriter.t :=
  size <- header_bytes pe ;;
  block <- slice (PE.Data pe) 0 size ;;
  Ret (write bw block).

(** [bw << sectionHeader]: the pointer overload forwards to the
    object overload, which copies the [sizeof(IMAGE_SECTION_HEADER)]
    bytes of the pointee when they fit. *)
Definition write_section_header (rawData : list byte) (bw : BinaryWriter.t)
           (sectionHeader : Z) : result BinaryWriter.t :=
  if CanWrite bw sizeof_IMAGE_SECTION_HEADER
  then object <- slice rawData sectionHeader sizeof_IMAGE_SECTION_HEADER ;;
       Ret (ProceedBuffer bw object)
  else Ret bw.

Fixpoint write_section_headers (rawData : list byte) (bw : BinaryWriter.t)
         (sectionHeaders : list Z) : result BinaryWriter.t :=
  match sectionHeaders with
  | [] => Ret bw
  | sectionHeader :: rest =>
      bw' <- write_section_header rawData bw sectionHeader ;;
      write_section_headers rawData bw' rest
  end.

(** Lines 144-156 of [Load]: the block write, then the loop over the
    section headers. *)
Definition copy_headers (pe : PE.t) (bw : BinaryWriter.t) : result BinaryWriter.t :=
  bw1 <- copy_header_block pe bw ;;
  write_section_headers (PE.Data pe) bw1 (PE.SectionHeaders pe).

Definition LoadSection (rawData : list byte) (bw : BinaryWriter.t)
           (data : list byte) (sectionHeader : Z) : result BinaryWriter.t :=
  va <- load32 rawData (sectionHeader + off_VirtualAddress) ;;
  Ret (write (Seek bw va) data).

(** [rawData.subspan(offset, count)]: the range must lie in the span. *)
Definition subspan (rawData : list byte) (offset count : Z) : result (list byte) :=
  slice rawData offset count.

Fixpoint load_sections (rawData : list byte) (bw : BinaryWriter.t)
         (sectionHeaders : list Z) : result BinaryWriter.t :=
  match sectionHeaders with
  | [] => Ret bw
  | sectionHeader :: rest =>
      ptr <- load32 rawData (sectionHeader + off_PointerToRawData) ;;
      sz <- load32 rawData (sectionHeader + off_SizeOfRawData) ;;
      data <- subspan rawData ptr sz ;;
      bw' <- LoadSection rawData bw data sectionHeader ;;
      load_sections rawData bw' rest
  end.

(** Lines 144-166 of [Load]. *)
Definition copy_image (pe : PE.t) (bw : BinaryWriter.t) : result BinaryWriter.t :=
  bw2 <- copy_headers pe bw ;;
  first <- first_section (PE.SectionHeaders pe) ;;
  va0 <- load32 (PE.Data pe) (first + off_VirtualAddress) ;;
  load_sections (PE.Data pe) (Seek bw2 va0) (PE.SectionHeaders pe).

Section WithHost.

Variable host : Host.

(** The fuel given to each [while] loop. *)
Variable fuel : nat.

(** *** BuildIAT *)

(** The loop over the thunk words at [OFT], until a zero word. *)
Fixpoint thunk_loop (n : nat) (imageSize module OFT IAT : Z) : M bool :=
  match n with
  | O => lift OutOfFuel
  | S n' =>
      thunk <~ read 8 OFT ;;
      if thunk =? 0 then mret true else
      function <~
        (if IMAGE_SNAP_BY_ORDINAL thunk
         then callGetProcAddress host module (ByOrdinal (IMAGE_ORDINAL thunk))
         else iin <~ index imageSize thunk ;;
              m <~ get_region ;;
              name <~ lift (cstring m (iin + off_iin_Name)) ;;
              callGetProcAddress host module (ByName name)) ;;
      if function =? 0 then mret false else
      _ <~ write64 IAT function ;;
      thunk_loop n' imageSize module (OFT + 8) (IAT + 8)
  end.

(** The loop [while (importDirectory->Characteristics)]. *)
Fixpoint descriptor_loop (n : nat) (mod_ : Module_.t) (importDirectory : Z)
  : M (bool * Module_.t) :=
  match n with
  | O => lift OutOfFuel
  | S n' =>
      let imageSize := Module_._imageSize mod_ in
      characteristics <~ read 4 (importDirectory + off_imp_Characteristics) ;;
      if characteristics =? 0 then mret (true, mod_) else
      Name <~ read 4 (importDirectory + off_imp_Name) ;;
      dll_at <~ index imageSize Name ;;
      m <~ get_region ;;
      dll <~ lift (cstring m dll_at) ;;
      module <~ callLoadLibraryA host dll ;;
      if module =? 0 then mret (false, mod_) else
      OriginalFirstThunk <~ read 4 (importDirectory + off_imp_OriginalFirstThunk) ;;
      OFT0 <~ index imageSize OriginalFirstThunk ;;
      FirstThunk <~ read 4 (importDirectory + off_imp_FirstThunk) ;;
      OFT <~ (if OriginalFirstThunk =? 0 then index imageSize FirstThunk
              else mret OFT0) ;;
      IAT <~ index imageSize FirstThunk ;;
      resolved <~ thunk_loop fuel imageSize module OFT IAT ;;
      if negb resolved then mret (false, mod_) else
      descriptor_loop n' (Module_.AddImportModule mod_ module)
                      (importDirectory + sizeof_IMAGE_IMPORT_DESCRIPTOR)
  end.

Definition BuildIAT (mod_ : Module_.t) : M (bool * Module_.t) :=
  importDirectory <~ Module_.ImportDirectory mod_ ;;
  match importDirectory with
  | None => mret (true, mod_)
  | Some d => descriptor_loop fuel mod_ d
  end.

(** *** RelocateBase *)

(** The loop over the 16-bit entries that follow a block header, until
    a zero entry. [relocTable->VirtualAddress] is read again for each
    entry; the index [VirtualAddress + (entry & 0xfff)] is a [DWORD]
    sum. *)
Fixpoint reloc_entries (n : nat) (imageSize delta relocTable reloc : Z) : M unit :=
  match n with
  | O => lift OutOfFuel
  | S n' =>
      entry <~ read 2 reloc ;;
      if entry =? 0 then mret tt else
      va <~ read 4 (relocTable + off_rel_VirtualAddress) ;;
      dest <~ index imageSize (wrap32 (va + Z.land entry 0xfff)) ;;
      _ <~ (if Z.shiftr entry 12 =? IMAGE_REL_BASED_DIR64
            then v <~ read 8 dest ;; write64 dest (wrap64 (v + delta))
            else mret tt) ;;
      reloc_entries n' imageSize delta relocTable (reloc + 2)
  end.

(** The loop [while (relocTable->VirtualAddress)]. *)
Fixpoint reloc_blocks (n : nat) (imageSize delta relocTable : Z) : M unit :=
  match n with
  | O => lift OutOfFuel
  | S n' =>
      va <~ read 4 (relocTable + off_rel_VirtualAddress) ;;
      if va =? 0 then mret tt else
      _ <~ reloc_entries fuel imageSize delta relocTable
                         (relocTable + sizeof_IMAGE_BASE_RELOCATION) ;;
      SizeOfBlock <~ read 4 (relocTable + off_rel_SizeOfBlock) ;;
      reloc_blocks n' imageSize delta (relocTable + SizeOfBlock)
  end.

Definition RelocateBase (mod_ : Module_.t) (delta : Z) : M unit :=
  relocTable <~ Module_.RelocationDirectory mod_ ;;
  match relocTable with
  | None => mret tt
  | Some r => reloc_blocks fuel (Module_._imageSize mod_) delta r
  end.

(** *** FinalizeSection *)

Definition isBitSet (flags flag : Z) : bool := Z.land flags flag =? flag.

Definition protection (isWritable isExecutable : bool) : Z :=
  if isWritable
  then (if isExecutable then PAGE_EXECUTE_READWRITE else PAGE_READWRITE)
  else (if isExecutable then PAGE_EXECUTE_READ else PAGE_READONLY).

Fixpoint protect_sections (imageBase : Z) (sectionHeaders : list Z) : M bool :=
  match sectionHeaders with
  | [] => mret true
  | sectionHeader :: rest =>
      characteristics <~ read 4 (sectionHeader + off_Characteristics) ;;
      let isWritable := isBitSet characteristics IMAGE_SCN_MEM_WRITE in
      let isExecutable := isBitSet characteristics IMAGE_SCN_MEM_EXECUTE in
      let newProtect := protection isWritable isExecutable in
      va <~ read 4 (sectionHeader + off_VirtualAddress) ;;
      vs <~ read 4 (sectionHeader + off_VirtualSize) ;;
      result <~ callVirtualProtect host (imageBase + va) vs newProtect ;;
      if negb result then mret false else protect_sections imageBase rest
  end.

Definition FinalizeSection (mod_ : Module_.t) : M bool :=
  protect_sections (Module_.ImageBase mod_) (Module_.SectionHeaders mod_).

(** *** RunTLSCallbacks *)

(** [tlsCallbacks] is an absolute address; the model can follow it
    only inside the region. A callback is recorded as a host event. *)
Fixpoint tls_loop (n : nat) (imageBase tlsCallbacks : Z) : M unit :=
  match n with
  | O => lift OutOfFuel
  | S n' =>
      callback <~ read 8 (tlsCallbacks - imageBase) ;;
      if callback =? 0 then mret tt else
      _ <~ emit (EvTlsCallback callback imageBase) ;;
      tls_loop n' imageBase (tlsCallbacks + 8)
  end.

Definition RunTLSCallbacks (mod_ : Module_.t) : M unit :=
  tlsDirectory <~ Module_.TLSDirectory mod_ ;;
  match tlsDirectory with
  | None => mret tt
  | Some d =>
      AddressOfCallBacks <~ read 8 (d + off_AddressOfCallBacks) ;;
      tls_loop fuel (Module_.ImageBase mod_) AddressOfCallBacks
  end.

(** *** Load *)

(** [return {};] once [mod] exists: the local is destroyed. *)
Definition fail_after_mod (mod_ : Module_.t) : M (option Module_.t) :=
  _ <~ Module_.destroy mod_ ;; mret None.

(** [Module] declares a destructor and nothing else, so it has the
    implicit memberwise copy constructor and no move constructor:
    [return mod;] copy-constructs the [Module] held by the returned
    [std::optional] from the local [mod], and the local is then
    destroyed as the function exits. The copy keeps the same [_base]
    and the same list of import modules. *)
Definition return_mod (mod_ : Module_.t) : M (option Module_.t) :=
  let copy := mod_ in
  _ <~ Module_.destroy mod_ ;; mret (Some copy).

Definition Load (pe : PE.t) : M (option Module_.t) :=
  if negb (PE.Ok pe) then mret None else
  imageSize <~ lift (PE.ImageSize pe) ;;
  memory <~ callVirtualAlloc host imageSize ;;
  if memory =? 0 then mret None else
  buffer <~ get_region ;;
  bw <~ lift (copy_image pe (BinaryWriter.make buffer imageSize)) ;;
  _ <~ set_region (Buffer bw) ;;
  mod_ <~ Module_.make memory imageSize ;;
  if negb (Module_.Ok mod_) then fail_after_mod mod_ else
  built <~ BuildIAT mod_ ;;
  let mod_ := snd built in
  if negb (fst built) then fail_after_mod mod_ else
  mapped_base <~ Module_.nt_field mod_ 8 off_ImageBase ;;
  preferred_base <~ lift (PE.ImageBase pe) ;;
  let delta := wrap64 (mapped_base - preferred_base) in
  _ <~ (if negb (delta =? 0) then RelocateBase mod_ delta else mret tt) ;;
  finalized <~ FinalizeSection mod_ ;;
  if negb finalized then fail_after_mod mod_ else
  _ <~ RunTLSCallbacks mod_ ;;
  return_mod mod_.

End WithHost.

End ModuleLoader.

(** [main]: the parser is built from the file, [Load] is called, and the
    returned [std::optional<Module>] is destroyed when [main] returns. *)
Definition run (host : Host) (fuel : nat) (file : option (list byte)) : M unit :=
  pe <~ lift (PE.make file) ;;
  module <~ ModuleLoader.Load host fuel pe ;;
  match module with
  | None => mret tt
  | Some m => Module_.destroy m
  end.

Definition start : world := {| trace := []; region := [] |}.

(** ** Sample images and hosts *)

Module Sample.

Definition u16 (v : Z) : list byte := le_split 2 v.
Definition u32 (v : Z) : list byte := le_split 4 v.
Definition u64 (v : Z) : list byte := le_split 8 v.

(** NUL-terminated ASCII. *)
Definition asciiz (s : String.string) : list byte :=
  String.list_byte_of_string s ++ [Byte.x00].

Definition pad_to (n : Z) (bs : list byte) : list byte := bs ++ zeros (n - len bs).

(** IMAGE_DOS_HEADER: [e_magic], 58 bytes that the loader ignores,
    [e_lfanew]. *)
Definition dos_header (e_magic e_lfanew : Z) : list byte :=
  u16 e_magic ++ zeros 58 ++ u32 e_lfanew.

(** The sixteen data directories; only the import, base-relocation and
    TLS entries are ever non-empty in the samples. *)
Definition data_directories (import reloc tls : Z * Z) : list byte :=
  zeros 8 ++ u32 (fst import) ++ u32 (snd import) ++ zeros 24 ++
  u32 (fst reloc) ++ u32 (snd reloc) ++ zeros 24 ++
  u32 (fst tls) ++ u32 (snd tls) ++ zeros 48.

(** IMAGE_NT_HEADERS64 with a 240-byte optional header. *)
Definition nt_headers (signature machine sections imageBase sizeOfImage : Z)
           (import reloc tls : Z * Z) : list byte :=
  u32 signature ++
  u16 machine ++ u16 sections ++ zeros 12 ++ u16 240 ++ u16 0x2022 ++
  u16 0x20b ++ zeros 22 ++ u64 imageBase ++ zeros 24 ++ u32 sizeOfImage ++
  zeros 48 ++ u32 16 ++ data_directories import reloc tls.

Definition section_header (virtualSize virtualAddress sizeOfRawData pointerToRawData
                           characteristics : Z) : list byte :=
  zeros 8 ++ u32 virtualSize ++ u32 virtualAddress ++ u32 sizeOfRawData ++
  u32 pointerToRawData ++ zeros 12 ++ u32 characteristics.

Definition no_dir : Z * Z := (0, 0).

Definition preferred_base : Z := 0x180000000.
Definition mapped_base : Z := 0x7FF4A0000000.
Definition a_dll_handle : Z := 0x7FFB10000000.
Definition f_address : Z := 0x7FFB10001234.

(** Scenario 4 of the spec: the first two bytes are [XX]. *)
Definition bad_magic : list byte :=
  dos_header 0x5858 64 ++
  nt_headers IMAGE_NT_SIGNATURE IMAGE_FILE_MACHINE_AMD64 0 preferred_base 0x1000
             no_dir no_dir no_dir.

(** Scenario 5 of the spec: an x86 image. *)
Definition i386_image : list byte :=
  dos_header IMAGE_DOS_SIGNATURE 64 ++
  nt_headers IMAGE_NT_SIGNATURE IMAGE_FILE_MACHINE_I386 0 preferred_base 0x1000
             no_dir no_dir no_dir.

(** A host on which every call succeeds: [VirtualAlloc] returns
    [mapped_base], [LoadLibraryA] returns [a_dll_handle], every symbol
    resolves to [f_address]. *)
Definition friendly : Host := {|
  VirtualAlloc := fun _ _ => mapped_base;
  LoadLibraryA := fun _ _ => a_dll_handle;
  GetProcAddress := fun _ _ _ => f_address;
  VirtualProtect := fun _ _ _ _ => true
|}.

(** An image of 368 bytes, headers only. Its one section header claims
    0x1000 raw bytes at file offset 0x200 and a virtual range of 0x5000
    bytes at 0x1000 in an image of 0x2000 bytes. *)
Definition truncated : list byte :=
  dos_header IMAGE_DOS_SIGNATURE 64 ++
  nt_headers IMAGE_NT_SIGNATURE IMAGE_FILE_MACHINE_AMD64 1 preferred_base 0x2000
             no_dir no_dir no_dir ++
  section_header 0x5000 0x1000 0x1000 0x200 0x40000040.

(** An image of 88 bytes: a DOS header and the first 24 bytes of the NT
    headers (signature and file header), with no section. *)
Definition stub : list byte :=
  dos_header IMAGE_DOS_SIGNATURE 64 ++
  firstn 24 (nt_headers IMAGE_NT_SIGNATURE IMAGE_FILE_MACHINE_AMD64 0 preferred_base 0x1000
                        no_dir no_dir no_dir).

(** A well-formed image of 0x4000 bytes with one code section at RVA
    0x1000, whose import data directory (RVA 0x3000, size 40) points at
    no section. *)
Definition stray_import : list byte :=
  pad_to 0x200
    (dos_header IMAGE_DOS_SIGNATURE 64 ++
     nt_headers IMAGE_NT_SIGNATURE IMAGE_FILE_MACHINE_AMD64 1 preferred_base 0x4000
                (0x3000, 40) no_dir no_dir ++
     section_header 0x10 0x1000 0x10 0x200 0x60000020) ++
  pad_to 0x10 [Byte.xc3].

(** An import section of 0x80 bytes placed at RVA [b]: one descriptor
    for [a.dll] and the terminating descriptor; the name table (the
    name [f], then ordinal 7) at [b + 0x28]; the import address table,
    a copy of the name table, at [b + 0x40]; the DLL name at [b + 0x60];
    the [IMAGE_IMPORT_BY_NAME] of [f] at [b + 0x70]. *)
Definition idata (b : Z) : list byte :=
  pad_to 0x28 (u32 (b + 0x28) ++ u32 0 ++ u32 0 ++ u32 (b + 0x60) ++ u32 (b + 0x40)) ++
  pad_to 0x18 (u64 (b + 0x70) ++ u64 0x8000000000000007) ++
  pad_to 0x20 (u64 (b + 0x70) ++ u64 0x8000000000000007) ++
  pad_to 0x10 (asciiz "a.dll"%string) ++
  pad_to 0x10 (u16 0 ++ asciiz "f"%string).

(** A well-formed image of 0x2000 bytes whose only section is the
    import section above at RVA 0x1000. *)
Definition importer : list byte :=
  pad_to 0x200
    (dos_header IMAGE_DOS_SIGNATURE 64 ++
     nt_headers IMAGE_NT_SIGNATURE IMAGE_FILE_MACHINE_AMD64 1 preferred_base 0x2000
                (0x1000, 40) no_dir no_dir ++
     section_header 0x80 0x1000 0x80 0x200 0xC0000040) ++
  idata 0x1000.

(** A host on which [a.dll] loads but no symbol resolves. *)
Definition unresolving : Host := {|
  VirtualAlloc := fun _ _ => mapped_base;
  LoadLibraryA := fun _ _ => a_dll_handle;
  GetProcAddress := fun _ _ _ => 0;
  VirtualProtect := fun _ _ _ _ => true
|}.

(** A well-formed image of 0xB000 bytes with three sections. [.data] at
    RVA 0x1000 holds two pointers, at 0x1000 and 0x1008; [.data2] at
    RVA 0xA000 holds one pointer, at 0xA010. [.reloc] at RVA 0x2000 holds
    one block for each page, of [SizeOfBlock] 12: two DIR64 entries for
    page 0x1000 (an even count, so no padding entry follows them), and
    one DIR64 entry and an ABSOLUTE padding entry for page 0xA000; then
    the terminating block. *)
Definition reloc_blocks : list byte :=
  u32 0x1000 ++ u32 12 ++ u16 0xA000 ++ u16 0xA008 ++
  u32 0xA000 ++ u32 12 ++ u16 0xA010 ++ u16 0 ++
  u32 0 ++ u32 0.

Definition relocated : list byte :=
  pad_to 0x200
    (dos_header IMAGE_DOS_SIGNATURE 64 ++
     nt_headers IMAGE_NT_SIGNATURE IMAGE_FILE_MACHINE_AMD64 3 preferred_base 0xB000
                no_dir (0x2000, 0x18) no_dir ++
     section_header 0x10 0x1000 0x10 0x200 0xC0000040 ++
     section_header 0x20 0x2000 0x20 0x400 0x42000040 ++
     section_header 0x18 0xA000 0x18 0x600 0xC0000040) ++
  pad_to 0x200 (u64 (preferred_base + 0x1234) ++ u64 (preferred_base + 0x5678)) ++
  pad_to 0x200 reloc_blocks ++
  (u64 0 ++ u64 0 ++ u64 (preferred_base + 0x9abc)).

(** A host whose [VirtualAlloc] returns the preferred base. *)
Definition at_preferred : Host := {|
  VirtualAlloc := fun _ _ => preferred_base;
  LoadLibraryA := fun _ _ => a_dll_handle;
  GetProcAddress := fun _ _ _ => f_address;
  VirtualProtect := fun _ _ _ _ => true
|}.

(** Two section headers followed by four bytes of raw data: the first
    section maps file bytes 80-81 at offset 4 of the image, the second
    file bytes 82-83 at offset 0. *)
Definition two_sections : list byte :=
  section_header 2 4 2 80 0 ++ section_header 2 0 2 82 0 ++
  [Byte.x41; Byte.x42; Byte.x43; Byte.x44].

(** A header-only AMD64 image with no section. *)
Definition sectionless : list byte :=
  dos_header IMAGE_DOS_SIGNATURE 64 ++
  nt_headers IMAGE_NT_SIGNATURE IMAGE_FILE_MACHINE_AMD64 0 preferred_base 0x1000
             no_dir no_dir no_dir.

(** A host that cannot allocate. *)
Definition out_of_memory : Host := {|
  VirtualAlloc := fun _ _ => 0;
  LoadLibraryA := fun _ _ => a_dll_handle;
  GetProcAddress := fun _ _ _ => f_address;
  VirtualProtect := fun _ _ _ _ => true
|}.

(** A region whose NT headers would start at offset 0: only the
    base-relocation data directory (at offset 176) is filled in. The
    table at 0xC0 has one block for page 0x100 with one DIR64 entry of
    offset 0 and a zero padding entry, then the terminating block; the
    pointer to relocate is at 0x100. *)
Definition padded_table : list byte :=
  pad_to 0xC0 (zeros 176 ++ u32 0xC0 ++ u32 0x14) ++
  pad_to 0x40 (u32 0x100 ++ u32 12 ++ u16 0xA000 ++ u16 0 ++ u32 0 ++ u32 0) ++
  u64 (preferred_base + 0x1234).

(** The same headers with a table whose only block has a page RVA, no
    entry and [SizeOfBlock] 0. *)
Definition stuck_table : list byte :=
  pad_to 0xC0 (zeros 176 ++ u32 0xC0 ++ u32 8) ++
  (u32 0x1000 ++ u32 0 ++ u16 0 ++ u16 0).

(** The first 0x1080 bytes of [importer] as [Load] maps it: the headers
    at offset 0 and the import section at offset 0x1000. *)
Definition mapped_importer : list byte :=
  pad_to 0x1000 (firstn 0x200 importer) ++ idata 0x1000.

(** A region whose NT headers would start at offset 0 with only the TLS
    data directory (at offset 208) filled in: the TLS directory at
    0xE0, whose [AddressOfCallBacks] is the address of the array at
    offset 0x120 of a region mapped at [mapped_base]; the array holds
    two callbacks and the null entry. *)
Definition tls_region : list byte :=
  pad_to 0xE0 (zeros 208 ++ u32 0xE0 ++ u32 0x28) ++
  pad_to 0x40 (zeros 24 ++ u64 (mapped_base + 0x120)) ++
  (u64 (mapped_base + 0x500) ++ u64 (mapped_base + 0x600) ++ u64 0).

(** A 64-byte file: a DOS header with the [MZ] magic whose [e_lfanew]
    is 0x1000, far past the end of the file. *)
Definition far_offset : list byte := dos_header IMAGE_DOS_SIGNATURE 0x1000.

(** The import section of [idata] as a linker that omits the name table
    writes it: the [OriginalFirstThunk] of the descriptor is 0 and the
    thunk words (the name [f], then ordinal 7) are found at
    [FirstThunk] only, at [b + 0x40]. *)
Definition idata_without_OFT (b : Z) : list byte :=
  pad_to 0x28 (u32 0 ++ u32 0 ++ u32 0 ++ u32 (b + 0x60) ++ u32 (b + 0x40)) ++
  zeros 0x18 ++
  pad_to 0x20 (u64 (b + 0x70) ++ u64 0x8000000000000007) ++
  pad_to 0x10 (asciiz "a.dll"%string) ++
  pad_to 0x10 (u16 0 ++ asciiz "f"%string).

(** [importer] with that import section: the same headers, the same
    imports, no name table. *)
Definition importer_without_OFT : list byte :=
  firstn 0x200 importer ++ idata_without_OFT 0x1000.

(** The first 0x1080 bytes of [importer_without_OFT] as [Load] maps it. *)
Definition mapped_importer_without_OFT : list byte :=
  pad_to 0x1000 (firstn 0x200 importer) ++ idata_without_OFT 0x1000.


End Sample.

(** ** Observing a run *)

Definition value_of {A : Type} (r : result (A * world)) : option A :=
  match r with
  | Ret (a, _) => Some a
  | _ => None
  end.

Definition trace_of {A : Type} (r : result (A * world)) : option (list event) :=
  match r with
  | Ret (_, w) => Some (trace w)
  | _ => None
  end.

Definition region_of {A : Type} (r : result (A * world)) : option (list byte) :=
  match r with
  | Ret (_, w) => Some (region w)
  | _ => None
  end.

(** The 64-bit value at an offset of the region a run ended with. *)
Definition final64 {A : Type} (r : result (A * world)) (off : Z) : option Z :=
  match r with
  | Ret (_, w) => match load64 (region w) off with
                  | Ret v => Some v
                  | _ => None
                  end
  | _ => None
  end.

(** How many times a handle was passed to [FreeLibrary], a load of a
    library returned it, or a region was passed to [VirtualFree]. *)
Definition is_FreeLibrary (h : Z) (e : event) : bool :=
  match e with EvFreeLibrary h' => h' =? h | _ => false end.

Definition is_LoadLibraryA_of (h : Z) (e : event) : bool :=
  match e with EvLoadLibraryA _ h' => h' =? h | _ => false end.

Definition is_LoadLibraryA (e : event) : bool :=
  match e with EvLoadLibraryA _ _ => true | _ => false end.

Definition is_VirtualFree (address : Z) (e : event) : bool :=
  match e with EvVirtualFree a _ => a =? address | _ => false end.

Definition count (p : event -> bool) (t : list event) : nat :=
  length (filter p t).

(** ** Statements about images *)

(** The parser ended by rejecting the image with error [e]. *)
Definition rejected_with (r : result PE.t) (e : PEError) : Prop :=
  exists pe, r = Ret pe /\ PE.Ok pe = false /\ PE.Error pe = e.

(** The bounds of section 3 of the spec for one section header: the raw
    range lies in the file and the virtual range in the image. *)
Definition section_in_bounds (pe : PE.t) (sectionHeader : Z) : Prop :=
  exists ptr sz va vs imageSize,
    load32 (PE.Data pe) (sectionHeader + off_PointerToRawData) = Ret ptr /\
    load32 (PE.Data pe) (sectionHeader + off_SizeOfRawData) = Ret sz /\
    load32 (PE.Data pe) (sectionHeader + off_VirtualAddress) = Ret va /\
    load32 (PE.Data pe) (sectionHeader + off_VirtualSize) = Ret vs /\
    PE.ImageSize pe = Ret imageSize /\
    ptr + sz <= len (PE.Data pe) /\
    va + vs <= imageSize.

(** [e_lfanew + sizeof(NT headers)] lies within the bytes. *)
Definition nt_headers_in_bounds (pe : PE.t) : Prop :=
  exists nt, PE._ntHeader pe = Some nt /\
             0 <= nt /\ nt + sizeof_IMAGE_NT_HEADERS <= len (PE.Data pe).

Definition parse_time_invariants (pe : PE.t) : Prop :=
  nt_headers_in_bounds pe /\
  Forall (section_in_bounds pe) (PE.SectionHeaders pe).

(** What [Parse] does check, on the bytes [data]. *)
Definition passes_checks (data : list byte) (nt n soh : Z) : Prop :=
  exists raw,
    load16 data 0 = Ret IMAGE_DOS_SIGNATURE /\
    load32 data 60 = Ret raw /\ nt = signed32 raw /\
    sizeof_IMAGE_DOS_HEADER <= nt /\
    load32 data nt = Ret IMAGE_NT_SIGNATURE /\
    load16 data (nt + 4) = Ret IMAGE_FILE_MACHINE_AMD64 /\
    load16 data (nt + 6) = Ret n /\
    load16 data (nt + 20) = Ret soh.

Definition accepted (data : list byte) (nt n soh : Z) : PE.t :=
  {| PE._dosHeader := Some 0; PE._ntHeader := Some nt;
     PE._sectionHeaders := section_pointers (IMAGE_FIRST_SECTION nt soh) n;
     PE._data := data; PE._error := Success; PE._ok := true |}.

(** ** Statements about page protections *)



Definition is_failed_protect (e : event) : bool :=
  match e with
  | EvVirtualProtect _ _ _ ok => negb ok
  | _ => false
  end.


(** A computation that adds no failed [VirtualProtect] to the trace. *)
Definition quiet {A : Type} (c : M A) : Prop :=
  forall w a w', c w = Ret (a, w') ->
                 exists t, trace w' = trace w ++ t /\ existsb is_failed_protect t = false.


(** ** Statements about the import tables *)

(** The thunk words found at an offset of the region: the non-zero
    words [ts], then a zero word. *)
Inductive thunk_array (m : list byte) : Z -> list Z -> Prop :=
| thunks_end (off : Z) :
    load64 m off = Ret 0 -> thunk_array m off []
| thunks_next (off t : Z) (ts : list Z) :
    load64 m off = Ret t -> t <> 0 -> thunk_array m (off + 8) ts ->
    thunk_array m off (t :: ts).

(** What a thunk word asks for: the ordinal in its low 16 bits when the
    ordinal flag is set, else the name of the [IMAGE_IMPORT_BY_NAME] at
    that RVA. *)
Definition symbol_at (m : list byte) (imageSize thunk : Z) : result symbol :=
  if IMAGE_SNAP_BY_ORDINAL thunk then Ret (ByOrdinal (IMAGE_ORDINAL thunk))
  else if (0 <=? thunk) && (thunk <? imageSize)
       then name <- cstring m (thunk + off_iin_Name) ;; Ret (ByName name)
       else Undefined.

(** The name a thunk points at does not overlap the bytes [lo, hi). *)
Definition symbol_clear_of (lo hi thunk : Z) (s : symbol) : Prop :=
  match s with
  | ByOrdinal _ => True
  | ByName name => thunk + off_iin_Name + len name + 1 <= lo \/ hi <= thunk + off_iin_Name
  end.

(** The host's answers for a list of symbols asked in order, and the
    trace after the calls. *)
Fixpoint resolve_thunks (host : Host) (module : Z) (t : list event) (syms : list symbol)
  : list Z * list event :=
  match syms with
  | [] => ([], t)
  | s :: rest =>
      let f := GetProcAddress host t module s in
      let r := resolve_thunks host module (t ++ [EvGetProcAddress module s f]) rest in
      (f :: fst r, snd r)
  end.

(** The bytes of a list of 64-bit slots. *)
Definition slots (fs : list Z) : list byte := flat_map (le_split 8) fs.

(** Every value a computation returns satisfies [Q]. *)
Definition returns {A : Type} (Q : A -> Prop) (c : M A) : Prop :=
  forall w a w', c w = Ret (a, w') -> Q a.

(** A load whose returned module, if any, has had its region passed to
    [VirtualFree] as the last host call before the return. *)
Definition released_on_return (c : M (option Module_.t)) : Prop :=
  forall w m w', c w = Ret (Some m, w') ->
                 exists t, trace w' = t ++ [EvVirtualFree (Module_._base m) (Module_._imageSize m)].


(** ** Statements about the section copy *)

(** The fields of the section header at [sectionHeader] that the copy
    of phase 3 reads from the file. *)
Definition section_view (data : list byte) (sectionHeader ptr sz va : Z) : Prop :=
  load32 data (sectionHeader + off_PointerToRawData) = Ret ptr /\
  load32 data (sectionHeader + off_SizeOfRawData) = Ret sz /\
  load32 data (sectionHeader + off_VirtualAddress) = Ret va.

(** The raw range of the section lies in the file and its image range
    [VirtualAddress, VirtualAddress + SizeOfRawData) in a region of
    [size] bytes. *)
Definition section_fits (data : list byte) (size sectionHeader : Z) : Prop :=
  exists ptr sz va,
    section_view data sectionHeader ptr sz va /\
    ptr + sz <= len data /\ va < size /\ va + sz <= size.

(** The region holds the section's raw bytes at its virtual address. *)
Definition section_mapped (data buffer : list byte) (sectionHeader : Z) : Prop :=
  exists ptr sz va raw,
    section_view data sectionHeader ptr sz va /\
    slice data ptr sz = Ret raw /\ slice buffer va sz = Ret raw.

(** The offset [i] lies in the image range of the section. *)
Definition in_section (data : list byte) (sectionHeader i : Z) : Prop :=
  exists ptr sz va, section_view data sectionHeader ptr sz va /\ va <= i < va + sz.

(** Two sections with no image byte in common. *)
Definition sections_disjoint (data : list byte) (sh1 sh2 : Z) : Prop :=
  forall i, in_section data sh1 i -> in_section data sh2 i -> False.

(** ** Statements about the data directories of the mapped image *)

(** The data directory [index] of the mapped headers has [Size] 0
    (whatever its [VirtualAddress]). *)
Definition directory_absent (m : Module_.t) (w : world) (index : Z) : Prop :=
  exists nt va,
    Module_._ntHeader m = Some nt /\
    load32 (region w) (nt + (off_DataDirectory + 8 * index)) = Ret va /\
    load32 (region w) (nt + (off_DataDirectory + 8 * index + 4)) = Ret 0.

(** ** Statements about the relocation table *)

(** The 16-bit entries found at an offset of the region: the non-zero
    entries [es], then a zero entry. *)
Inductive entry_array (m : list byte) : Z -> list Z -> Prop :=
| entries_end (off : Z) :
    load16 m off = Ret 0 -> entry_array m off []
| entries_next (off e : Z) (es : list Z) :
    load16 m off = Ret e -> e <> 0 -> entry_array m (off + 2) es ->
    entry_array m off (e :: es).

(** The offset in the region that an entry of the block of page [va]
    names, and whether the entry is of type DIR64. *)
Definition entry_target (va e : Z) : Z := wrap32 (va + Z.land e 0xfff).
Definition is_DIR64 (e : Z) : bool := Z.shiftr e 12 =? IMAGE_REL_BASED_DIR64.

Definition dir64_targets (va : Z) (es : list Z) : list Z :=
  map (entry_target va) (filter is_DIR64 es).

(** Two 64-bit locations with no byte in common. *)
Definition apart (d1 d2 : Z) : Prop := d1 + 8 <= d2 \/ d2 + 8 <= d1.

(** The 64-bit location at [d] has no byte in [lo, hi). *)
Definition clear_of (lo hi d : Z) : Prop := d + 8 <= lo \/ hi <= d.

(** [m'] is [m] with [delta] added once to the 64-bit value at each of
    the locations [ds], and nothing else changed. *)
Definition relocated (delta : Z) (ds : list Z) (m m' : list byte) : Prop :=
  len m' = len m /\
  (forall i, Forall (fun d => i < d \/ d + 8 <= i) ds -> byte_at m' i = byte_at m i) /\
  Forall (fun d => exists v, load64 m d = Ret v /\ load64 m' d = Ret (wrap64 (v + delta))) ds.

(** A relocation table at [rt]: blocks of page RVA, entries (ended by a
    zero entry inside the block) and [SizeOfBlock], up to the block at
    [tend] whose [VirtualAddress] is 0. *)
Inductive block_table (m : list byte) : Z -> list (Z * list Z) -> Z -> Prop :=
| blocks_end (rt : Z) :
    load32 m (rt + off_rel_VirtualAddress) = Ret 0 -> block_table m rt [] rt
| blocks_next (rt va sz : Z) (es : list Z) (rest : list (Z * list Z)) (tend : Z) :
    load32 m (rt + off_rel_VirtualAddress) = Ret va -> va <> 0 ->
    entry_array m (rt + sizeof_IMAGE_BASE_RELOCATION) es ->
    load32 m (rt + off_rel_SizeOfBlock) = Ret sz ->
    sizeof_IMAGE_BASE_RELOCATION + 2 * (Z.of_nat (length es) + 1) <= sz ->
    block_table m (rt + sz) rest tend ->
    block_table m rt ((va, es) :: rest) tend.

Definition table_targets (blocks : list (Z * list Z)) : list Z :=
  flat_map (fun b => dir64_targets (fst b) (snd b)) blocks.

(** ** Statements about the host calls of a run *)

(** A computation that adds to the trace no event satisfying [p]. *)
Definition silent (p : event -> bool) {A : Type} (c : M A) : Prop :=
  forall w a w', c w = Ret (a, w') ->
                 exists t, trace w' = trace w ++ t /\ existsb p t = false.

(** The calls that acquire or release the region. *)
Definition is_region_call (e : event) : bool :=
  match e with
  | EvVirtualAlloc _ _ => true
  | EvVirtualFree _ _ => true
  | _ => false
  end.

(** A computation that ends by releasing the region at [base], and makes
    no other call that acquires or releases a region. *)
Definition ends_released (base size : Z) {A : Type} (c : M A) : Prop :=
  forall w a w', c w = Ret (a, w') ->
                 exists t, trace w' = trace w ++ t ++ [EvVirtualFree base size] /\
                           existsb is_region_call t = false.

(** The handles that the [LoadLibraryA] calls of a trace returned, in
    order (0 for a failed load). *)
Definition loaded (t : list event) : list Z :=
  flat_map (fun e => match e with EvLoadLibraryA _ h => [h] | _ => [] end) t.

(** The null-terminated array of callback addresses at an offset of the
    region: non-zero 64-bit words, then a zero word. *)
Definition callback_array (m : list byte) (off : Z) (callbacks : list Z) : Prop :=
  thunk_array m off callbacks.

(** * Properties *)

(** ** Byte buffers *)

Lemma len_nonneg (m : list byte) : 0 <= len m.
Proof. unfold len. lia. Qed.

Lemma len_app (a b : list byte) : len (a ++ b) = len a + len b.
Proof. unfold len. rewrite length_app. lia. Qed.

Lemma len_splice (m : list byte) (off : Z) (data : list byte) :
  0 <= off -> off + len data <= len m -> len (splice m off data) = len m.
Proof.
  unfold splice, len. intros H0 H1.
  rewrite !length_app, length_firstn, length_skipn. lia.
Qed.

Lemma nth_error_splice_before (m : list byte) (off : Z) (data : list byte) (i : nat) :
  0 <= off -> off + len data <= len m -> (i < Z.to_nat off)%nat ->
  nth_error (splice m off data) i = nth_error m i.
Proof.
  unfold splice, len. intros H0 H1 Hi.
  rewrite nth_error_app1 by (rewrite length_firstn; lia).
  rewrite nth_error_firstn.
  destruct (Nat.ltb_spec i (Z.to_nat off)); [ reflexivity | lia ].
Qed.

Lemma nth_error_splice_after (m : list byte) (off : Z) (data : list byte) (i : nat) :
  0 <= off -> off + len data <= len m -> (Z.to_nat off + length data <= i)%nat ->
  nth_error (splice m off data) i = nth_error m i.
Proof.
  unfold splice, len. intros H0 H1 Hi.
  rewrite nth_error_app2 by (rewrite length_firstn; lia).
  rewrite length_firstn.
  rewrite nth_error_app2 by lia.
  rewrite nth_error_skipn. f_equal. lia.
Qed.

Lemma byte_at_splice_outside (m : list byte) (off : Z) (data : list byte) (i : Z) :
  0 <= off -> off + len data <= len m -> i < off \/ off + len data <= i ->
  byte_at (splice m off data) i = byte_at m i.
Proof.
  intros H0 H1 Hi. unfold byte_at.
  destruct (0 <=? i) eqn:E; [ | reflexivity ].
  apply Z.leb_le in E.
  destruct Hi as [Hi | Hi].
  - apply nth_error_splice_before; lia.
  - apply nth_error_splice_after; unfold len in *; lia.
Qed.

Lemma skipn_splice_at (m : list byte) (off : Z) (data : list byte) :
  0 <= off -> off + len data <= len m ->
  skipn (Z.to_nat off) (splice m off data)
  = data ++ skipn (Z.to_nat off + length data) m.
Proof.
  unfold splice, len. intros H0 H1.
  rewrite skipn_app, length_firstn.
  replace (Z.to_nat off - Nat.min (Z.to_nat off) (length m))%nat with 0%nat by lia.
  rewrite skipn_all2 by (rewrite length_firstn; lia).
  reflexivity.
Qed.

Lemma slice_splice_same (m : list byte) (off : Z) (data : list byte) :
  0 <= off -> off + len data <= len m ->
  slice (splice m off data) off (len data) = Ret data.
Proof.
  intros H0 H1. unfold slice.
  rewrite len_splice by assumption.
  pose proof (len_nonneg data).
  replace ((0 <=? off) && (0 <=? len data) && (off + len data <=? len m)) with true
    by (symmetry; rewrite !andb_true_iff, !Z.leb_le; lia).
  rewrite skipn_splice_at by assumption.
  unfold len. rewrite Nat2Z.id, firstn_app, Nat.sub_diag, firstn_all, firstn_O, app_nil_r.
  reflexivity.
Qed.

(** ** BinaryWriter *)

Lemma wrap64_small (z : Z) : 0 <= z < 2 ^ 64 -> wrap64 z = z.
Proof. intros H. unfold wrap64. apply Z.mod_small. exact H. Qed.

Lemma CanWrite_spec (bw : BinaryWriter.t) (n : Z) :
  BinaryWriter.wf bw -> 0 <= n -> BinaryWriter._size bw + n < 2 ^ 64 ->
  BinaryWriter.CanWrite bw n = (BinaryWriter._pos bw + n <=? BinaryWriter._size bw).
Proof.
  intros (Hl & Hp & Hs) Hn Hb. unfold BinaryWriter.CanWrite.
  rewrite wrap64_small by lia. reflexivity.
Qed.

(** Every operation keeps the cursor inside the buffer. *)
Lemma write_wf (bw : BinaryWriter.t) (b : list byte) :
  BinaryWriter.wf bw -> BinaryWriter._size bw + len b < 2 ^ 64 ->
  BinaryWriter.wf (BinaryWriter.write bw b).
Proof.
  intros Hwf Hb. pose proof (len_nonneg b) as Hn.
  unfold BinaryWriter.write. rewrite CanWrite_spec by assumption.
  destruct (Z.leb_spec (BinaryWriter._pos bw + len b) (BinaryWriter._size bw)) as [Hfit | Hfit];
    [ | exact Hwf ].
  destruct Hwf as (Hl & Hp & Hs). unfold BinaryWriter.wf; cbn.
  rewrite len_splice by lia. rewrite wrap64_small by lia. lia.
Qed.

Lemma Seek_wf (bw : BinaryWriter.t) (offset : Z) :
  BinaryWriter.wf bw -> 0 <= offset -> BinaryWriter.wf (BinaryWriter.Seek bw offset).
Proof.
  intros Hwf Ho. unfold BinaryWriter.Seek.
  destruct (Z.ltb_spec offset (BinaryWriter._size bw)); [ | exact Hwf ].
  destruct Hwf as (Hl & Hp & Hs). unfold BinaryWriter.wf; cbn. lia.
Qed.

Lemma Skip_wf (bw : BinaryWriter.t) (offset : Z) :
  BinaryWriter.wf bw -> BinaryWriter.wf (BinaryWriter.Skip bw offset).
Proof.
  intros Hwf. unfold BinaryWriter.Skip, BinaryWriter.CanWrite.
  destruct (Z.leb_spec (wrap64 (BinaryWriter._pos bw + offset)) (BinaryWriter._size bw));
    [ | exact Hwf ].
  destruct Hwf as (Hl & Hp & Hs). unfold BinaryWriter.wf; cbn.
  pose proof (Z.mod_pos_bound (BinaryWriter._pos bw + offset) (2 ^ 64)) as Hm.
  unfold wrap64 in *. lia.
Qed.

Lemma make_wf (buffer : list byte) :
  len buffer < 2 ^ 64 -> BinaryWriter.wf (BinaryWriter.make buffer (len buffer)).
Proof. intros H. pose proof (len_nonneg buffer). unfold BinaryWriter.wf; cbn. lia. Qed.

(** C9. For every cursor state whose position lies inside its buffer and
    every byte sequence [b] (the buffer and [b] being objects of one
    64-bit address space): when [pos + len b <= size], [write] copies
    [b] at [pos], advances [pos] by [len b] and leaves every byte outside
    [pos, pos + len b) as it was; otherwise [write] returns the very same
    state, buffer and position untouched. The result is always a writer:
    no error is reported. *)
Theorem write_copies_or_drops (bw : BinaryWriter.t) (b : list byte)
  (Hwf : BinaryWriter.wf bw)
  (Hb : BinaryWriter._size bw + len b < 2 ^ 64) :
  (BinaryWriter._pos bw + len b <= BinaryWriter._size bw ->
   let bw' := BinaryWriter.write bw b in
   slice (BinaryWriter._buffer bw') (BinaryWriter._pos bw) (len b) = Ret b /\
   BinaryWriter._pos bw' = BinaryWriter._pos bw + len b /\
   BinaryWriter._size bw' = BinaryWriter._size bw /\
   len (BinaryWriter._buffer bw') = len (BinaryWriter._buffer bw) /\
   forall i, i < BinaryWriter._pos bw \/ BinaryWriter._pos bw + len b <= i ->
             byte_at (BinaryWriter._buffer bw') i = byte_at (BinaryWriter._buffer bw) i)
  /\
  (BinaryWriter._size bw < BinaryWriter._pos bw + len b ->
   BinaryWriter.write bw b = bw).
Proof.
  pose proof (len_nonneg b) as Hn.
  pose proof (CanWrite_spec bw (len b) Hwf Hn Hb) as Hcw.
  destruct Hwf as (Hl & Hp & Hs).
  split.
  - intros Hfit bw'. subst bw'. unfold BinaryWriter.write. rewrite Hcw.
    replace (BinaryWriter._pos bw + len b <=? BinaryWriter._size bw) with true
      by (symmetry; apply Z.leb_le; exact Hfit).
    cbn.
    repeat split.
    + apply slice_splice_same; lia.
    + apply wrap64_small; lia.
    + apply len_splice; lia.
    + intros i Hi. apply byte_at_splice_outside; lia.
  - intros Hover. unfold BinaryWriter.write. rewrite Hcw.
    replace (BinaryWriter._pos bw + len b <=? BinaryWriter._size bw) with false
      by (symmetry; apply Z.leb_gt; exact Hover).
    reflexivity.
Qed.

Lemma write_copies_or_drops_witness :
  let bw := BinaryWriter.Seek (BinaryWriter.make (zeros 4) 4) 1 in
  let b := [Byte.x41; Byte.x42] in
  BinaryWriter.write bw b
  = BinaryWriter.mk [Byte.x00; Byte.x41; Byte.x42; Byte.x00] 4 3
  /\ BinaryWriter.write (BinaryWriter.write bw b) b = BinaryWriter.write bw b.
Proof.
  intros bw b.
  assert (Hwf : BinaryWriter.wf bw) by (vm_compute; intuition congruence).
  assert (Hb : BinaryWriter._size bw + len b < 2 ^ 64) by (vm_compute; reflexivity).
  split.
  - reflexivity.
  - assert (Hwf' : BinaryWriter.wf (BinaryWriter.write bw b))
      by (vm_compute; intuition congruence).
    apply (write_copies_or_drops (BinaryWriter.write bw b) b Hwf').
    + vm_compute; reflexivity.
    + vm_compute; reflexivity.
Defined.

(** ** What a successful load says about its offset and value *)

Lemma slice_Ret_bounds (m : list byte) (off n : Z) (bs : list byte) :
  slice m off n = Ret bs -> 0 <= off /\ 0 <= n /\ off + n <= len m.
Proof.
  unfold slice.
  destruct ((0 <=? off) && (0 <=? n) && (off + n <=? len m)) eqn:E; [ | discriminate ].
  intros _. rewrite !andb_true_iff, !Z.leb_le in E. lia.
Qed.

Lemma load_Ret_bounds (n : Z) (m : list byte) (off v : Z) :
  load n m off = Ret v -> 0 <= off /\ off + n <= len m.
Proof.
  unfold load. destruct (slice m off n) as [bs | | ] eqn:E; cbn [bind]; try discriminate.
  intros _. apply slice_Ret_bounds in E. lia.
Qed.

Lemma length_slice (m : list byte) (off n : Z) (bs : list byte) :
  slice m off n = Ret bs -> len bs = n.
Proof.
  intros H. pose proof (slice_Ret_bounds _ _ _ _ H) as (H0 & H1 & H2).
  unfold slice in H.
  destruct ((0 <=? off) && (0 <=? n) && (off + n <=? len m)); [ | discriminate ].
  injection H as <-. unfold len in *. rewrite length_firstn, length_skipn. lia.
Qed.

Lemma load_Ret_range (n : Z) (m : list byte) (off v : Z) :
  load n m off = Ret v -> 0 <= n -> 0 <= v < 2 ^ (8 * n).
Proof.
  unfold load. destruct (slice m off n) as [bs | | ] eqn:E; cbn [bind]; try discriminate.
  intros [= <-] Hn. apply length_slice in E. unfold len in E.
  pose proof (le_combine_bound bs) as Hb. rewrite E in Hb. exact Hb.
Qed.

(** ** ImageParser: the error kinds *)

Lemma Parse_outcomes (data : list byte) (pe : PE.t) :
  PE.Parse data = Ret pe ->
  (PE.Ok pe = true /\ PE.Error pe = Success) \/
  (PE.Ok pe = false /\ (PE.Error pe = InvalidPeFormat \/ PE.Error pe = NotSupportedMachine)).
Proof.
  unfold PE.Parse.
  destruct (load16 data (0 + off_e_magic)) as [e_magic | | ]; cbn [bind]; try discriminate.
  destruct (negb (e_magic =? IMAGE_DOS_SIGNATURE)).
  { intros [= <-]. right. cbn. auto. }
  destruct (load32 data (0 + off_e_lfanew)) as [raw | | ]; cbn [bind]; try discriminate.
  destruct (wrap64 (signed32 raw) <? sizeof_IMAGE_DOS_HEADER).
  { intros [= <-]. right. cbn. auto. }
  destruct (load32 data _) as [sig | | ]; cbn [bind]; try discriminate.
  destruct (negb (sig =? IMAGE_NT_SIGNATURE)).
  { intros [= <-]. right. cbn. auto. }
  destruct (load16 data _) as [machine | | ]; cbn [bind]; try discriminate.
  destruct (negb (machine =? IMAGE_FILE_MACHINE_AMD64)).
  { intros [= <-]. right. cbn. auto. }
  destruct (load16 data _) as [n | | ]; cbn [bind]; try discriminate.
  destruct (load16 data _) as [soh | | ]; cbn [bind]; try discriminate.
  intros [= <-]. left. cbn. auto.
Qed.

Lemma Load_not_ok (host : Host) (fuel : nat) (pe : PE.t) (w : world) :
  PE.Ok pe = false -> ModuleLoader.Load host fuel pe w = Ret (None, w).
Proof. intros H. unfold ModuleLoader.Load. rewrite H. reflexivity. Qed.

Ltac unfold_Parse :=
  unfold PE.Parse;
  change (0 + off_e_magic) with 0; change (0 + off_e_lfanew) with 60;
  unfold off_Signature, off_Machine, off_NumberOfSections, off_SizeOfOptionalHeader;
  cbv zeta; rewrite ?Z.add_0_l, ?Z.add_0_r.

(** C8, as the code has it. The parser reports two kinds of error. When
    the DOS magic is not [MZ], when [e_lfanew] compared as an unsigned
    number is below the size of the DOS header (an [e_lfanew] from 0 to
    63), or when the NT signature is not [PE\0\0], the parser ends with [Ok]
    false and [Error] [InvalidPeFormat]; when the machine is not AMD64 it
    ends with [Ok] false and [Error] [NotSupportedMachine]; no other
    error value is paired with a rejection. [Load] on a parser whose
    [Ok] is false returns the empty optional and leaves the world as it
    was: no host call is made, nothing is allocated. These three tests
    are the only ones that give [InvalidPeFormat]: no other property of
    the header offset is validated, and an [e_lfanew] of 64 or more that
    leaves no room for the NT signature in the file is not rejected, the
    parser reads the signature outside its buffer. *)
Theorem parser_error_kinds (data : list byte) :
  (forall e_magic, load16 data 0 = Ret e_magic -> e_magic <> IMAGE_DOS_SIGNATURE ->
     rejected_with (PE.Parse data) InvalidPeFormat) /\
  (forall raw, load16 data 0 = Ret IMAGE_DOS_SIGNATURE -> load32 data 60 = Ret raw ->
     wrap64 (signed32 raw) < sizeof_IMAGE_DOS_HEADER ->
     rejected_with (PE.Parse data) InvalidPeFormat) /\
  (forall raw sig, load16 data 0 = Ret IMAGE_DOS_SIGNATURE -> load32 data 60 = Ret raw ->
     sizeof_IMAGE_DOS_HEADER <= wrap64 (signed32 raw) ->
     load32 data (signed32 raw) = Ret sig -> sig <> IMAGE_NT_SIGNATURE ->
     rejected_with (PE.Parse data) InvalidPeFormat) /\
  (forall raw machine, load16 data 0 = Ret IMAGE_DOS_SIGNATURE -> load32 data 60 = Ret raw ->
     sizeof_IMAGE_DOS_HEADER <= wrap64 (signed32 raw) ->
     load32 data (signed32 raw) = Ret IMAGE_NT_SIGNATURE ->
     load16 data (signed32 raw + 4) = Ret machine -> machine <> IMAGE_FILE_MACHINE_AMD64 ->
     rejected_with (PE.Parse data) NotSupportedMachine) /\
  (forall pe, PE.Parse data = Ret pe -> PE.Ok pe = false ->
     PE.Error pe = InvalidPeFormat \/ PE.Error pe = NotSupportedMachine) /\
  (forall pe host fuel w, PE.Ok pe = false ->
     ModuleLoader.Load host fuel pe w = Ret (None, w)) /\
  (forall pe, PE.Parse data = Ret pe -> PE.Ok pe = false -> PE.Error pe = InvalidPeFormat ->
     (exists e_magic, load16 data 0 = Ret e_magic /\ e_magic <> IMAGE_DOS_SIGNATURE) \/
     (exists raw, load32 data 60 = Ret raw /\
                  wrap64 (signed32 raw) < sizeof_IMAGE_DOS_HEADER) \/
     (exists raw sig, load32 data 60 = Ret raw /\
                      load32 data (signed32 raw) = Ret sig /\ sig <> IMAGE_NT_SIGNATURE)) /\
  (forall raw, load16 data 0 = Ret IMAGE_DOS_SIGNATURE -> load32 data 60 = Ret raw ->
     sizeof_IMAGE_DOS_HEADER <= signed32 raw -> len data < signed32 raw + 4 ->
     PE.Parse data = Undefined).
Proof.
  split; [ | split; [ | split; [ | split; [ | split; [ | split; [ | split ] ] ] ] ] ].
  - intros e_magic H0 Hm. unfold_Parse. rewrite H0. cbn [bind].
    replace (e_magic =? IMAGE_DOS_SIGNATURE) with false by (symmetry; apply Z.eqb_neq; exact Hm).
    cbn [negb]. eexists. repeat split.
  - intros raw H0 H1 Hl. unfold_Parse.
    rewrite H0. cbn [bind]. rewrite Z.eqb_refl. cbn [negb]. rewrite H1. cbn [bind]. rewrite ?Z.add_0_l, ?Z.add_0_r.
    replace (wrap64 (signed32 raw) <? sizeof_IMAGE_DOS_HEADER) with true
      by (symmetry; apply Z.ltb_lt; exact Hl).
    eexists. repeat split.
  - intros raw sig H0 H1 Hl H2 Hs. unfold_Parse.
    rewrite H0. cbn [bind]. rewrite Z.eqb_refl. cbn [negb]. rewrite H1. cbn [bind]. rewrite ?Z.add_0_l, ?Z.add_0_r.
    replace (wrap64 (signed32 raw) <? sizeof_IMAGE_DOS_HEADER) with false
      by (symmetry; apply Z.ltb_ge; exact Hl).
    rewrite H2. cbn [bind].
    replace (sig =? IMAGE_NT_SIGNATURE) with false by (symmetry; apply Z.eqb_neq; exact Hs).
    cbn [negb]. eexists. repeat split.
  - intros raw machine H0 H1 Hl H2 H3 Hm. unfold_Parse.
    rewrite H0. cbn [bind]. rewrite Z.eqb_refl. cbn [negb]. rewrite H1. cbn [bind]. rewrite ?Z.add_0_l, ?Z.add_0_r.
    replace (wrap64 (signed32 raw) <? sizeof_IMAGE_DOS_HEADER) with false
      by (symmetry; apply Z.ltb_ge; exact Hl).
    rewrite H2. cbn [bind].
    rewrite Z.eqb_refl. cbn [negb]. rewrite H3. cbn [bind].
    replace (machine =? IMAGE_FILE_MACHINE_AMD64) with false by (symmetry; apply Z.eqb_neq; exact Hm).
    cbn [negb]. eexists. repeat split.
  - intros pe Hp Hok. destruct (Parse_outcomes data pe Hp) as [[Ht _] | [_ He]].
    + rewrite Ht in Hok. discriminate.
    + exact He.
  - intros pe host fuel w Hok. apply Load_not_ok. exact Hok.
  - intros pe. unfold_Parse.
    destruct (load16 data 0) as [e_magic | | ] eqn:H0; cbn [bind]; try discriminate.
    destruct (e_magic =? IMAGE_DOS_SIGNATURE) eqn:Hm; cbn [negb].
    2: { intros _ _ _. left. exists e_magic. split; [ reflexivity | ].
         apply Z.eqb_neq. exact Hm. }
    apply Z.eqb_eq in Hm. subst e_magic.
    destruct (load32 data 60) as [raw | | ] eqn:H1; cbn [bind]; try discriminate.
    rewrite ?Z.add_0_l, ?Z.add_0_r.
    destruct (wrap64 (signed32 raw) <? sizeof_IMAGE_DOS_HEADER) eqn:Hl.
    { intros _ _ _. right. left. exists raw. split; [ reflexivity | ].
      apply Z.ltb_lt. exact Hl. }
    destruct (load32 data (signed32 raw)) as [sig | | ] eqn:H2; cbn [bind]; try discriminate.
    destruct (sig =? IMAGE_NT_SIGNATURE) eqn:Hs; cbn [negb].
    2: { intros _ _ _. right. right. exists raw, sig.
         split; [ reflexivity | split; [ exact H2 | ] ]. apply Z.eqb_neq. exact Hs. }
    destruct (load16 data (signed32 raw + 4)) as [machine | | ]; cbn [bind]; try discriminate.
    destruct (negb (machine =? IMAGE_FILE_MACHINE_AMD64)).
    { intros [= <-] _ He. cbn in He. discriminate. }
    destruct (load16 data (signed32 raw + 6)) as [n | | ]; cbn [bind]; try discriminate.
    destruct (load16 data (signed32 raw + 20)) as [soh | | ]; cbn [bind]; try discriminate.
    intros [= <-] Hok. cbn in Hok. discriminate.
  - intros raw H0 H1 Hl Hlen. unfold_Parse.
    rewrite H0. cbn [bind]. rewrite Z.eqb_refl. cbn [negb]. rewrite H1. cbn [bind].
    rewrite ?Z.add_0_l, ?Z.add_0_r.
    assert (Hr : signed32 raw < 2 ^ 64).
    { unfold signed32.
      destruct (raw <? 2 ^ 31) eqn:Hc; [ apply Z.ltb_lt in Hc | apply Z.ltb_ge in Hc ].
      - lia.
      - apply load_Ret_range in H1; [ | lia ]. change (2 ^ (8 * 4)) with (2 ^ 32) in H1. lia. }
    replace (wrap64 (signed32 raw) <? sizeof_IMAGE_DOS_HEADER) with false
      by (symmetry; apply Z.ltb_ge; rewrite wrap64_small;
          [ exact Hl | unfold sizeof_IMAGE_DOS_HEADER in Hl; lia ]).
    unfold load32 at 1. unfold load, slice.
    replace ((0 <=? signed32 raw) && (0 <=? 4) && (signed32 raw + 4 <=? len data)) with false;
      [ reflexivity | ].
    symmetry. rewrite !andb_false_iff, !Z.leb_gt. lia.
Qed.

Lemma parser_error_kinds_witness :
  rejected_with (PE.Parse Sample.bad_magic) InvalidPeFormat /\
  rejected_with (PE.Parse Sample.i386_image) NotSupportedMachine /\
  (forall pe, PE.Parse Sample.bad_magic = Ret pe ->
     ModuleLoader.Load Sample.friendly 16 pe start = Ret (None, start)).
Proof.
  split; [ | split ].
  - apply (proj1 (parser_error_kinds Sample.bad_magic) 0x5858).
    + vm_compute; reflexivity.
    + vm_compute; discriminate.
  - apply (proj1 (proj2 (proj2 (proj2 (parser_error_kinds Sample.i386_image)))) 64 0x014c).
    + vm_compute; reflexivity.
    + vm_compute; reflexivity.
    + vm_compute; discriminate.
    + vm_compute; reflexivity.
    + vm_compute; reflexivity.
    + vm_compute; discriminate.
  - intros pe Hp.
    apply (proj1 (proj2 (proj2 (proj2 (proj2 (proj2 (parser_error_kinds Sample.bad_magic))))))
                 pe).
    vm_compute in Hp. injection Hp as <-. reflexivity.
Defined.

(** C8 as stated fails on a malformed header offset. [Sample.far_offset]
    is a 64-byte file with the [MZ] magic whose [e_lfanew] is 0x1000:
    the parser does not end with [InvalidPeFormat] (nor with any
    error), it reads the NT signature at offset 0x1000 of the 64-byte
    buffer. [Sample.stub] is an 88-byte file whose [e_lfanew] of 64
    leaves room for 24 of the bytes of the NT headers: the parser accepts
    it. *)
Lemma malformed_offset_not_rejected :
  (len Sample.far_offset = 64 /\
   load16 Sample.far_offset 0 = Ret IMAGE_DOS_SIGNATURE /\
   load32 Sample.far_offset 60 = Ret 0x1000 /\
   (forall e, ~ rejected_with (PE.Parse Sample.far_offset) e) /\
   PE.Parse Sample.far_offset = Undefined) /\
  (len Sample.stub = 88 /\
   load32 Sample.stub 60 = Ret 64 /\
   len Sample.stub < 64 + sizeof_IMAGE_NT_HEADERS /\
   ~ rejected_with (PE.Parse Sample.stub) InvalidPeFormat /\
   exists pe, PE.Parse Sample.stub = Ret pe /\ PE.Ok pe = true /\ PE.Error pe = Success).
Proof.
  split.
  - assert (Hp : PE.Parse Sample.far_offset = Undefined) by (vm_compute; reflexivity).
    split; [ vm_compute; reflexivity | ].
    split; [ vm_compute; reflexivity | ].
    split; [ vm_compute; reflexivity | ].
    split; [ | exact Hp ].
    intros e (pe & H & _). rewrite Hp in H. discriminate.
  - assert (Hp : exists pe, PE.Parse Sample.stub = Ret pe /\ PE.Ok pe = true /\
                            PE.Error pe = Success)
      by (eexists; split; [ vm_compute; reflexivity | split; reflexivity ]).
    split; [ vm_compute; reflexivity | ].
    split; [ vm_compute; reflexivity | ].
    split; [ vm_compute; reflexivity | ].
    split; [ | exact Hp ].
    intros (pe & H & Hok & _). destruct Hp as (pe' & H' & Hok' & _).
    rewrite H' in H. injection H as <-. rewrite Hok' in Hok. discriminate.
Qed.

(** ** ImageParser: what acceptance means *)

Lemma wrap64_signed32_ge (raw : Z) :
  0 <= signed32 raw -> (wrap64 (signed32 raw) <? 64) = false -> 64 <= signed32 raw.
Proof.
  intros H0 H. apply Z.ltb_ge in H. unfold wrap64 in H.
  destruct (Z_lt_le_dec (signed32 raw) (2 ^ 64)) as [Hlt | Hge].
  - rewrite Z.mod_small in H by lia. exact H.
  - lia.
Qed.

Lemma Parse_accepts_iff (data : list byte) (pe : PE.t) :
  (PE.Parse data = Ret pe /\ PE.Ok pe = true) <->
  (exists nt n soh, passes_checks data nt n soh /\ pe = accepted data nt n soh).
Proof.
  split.
  - intros [Hp Hok]. revert Hp. unfold_Parse.
    destruct (load16 data 0) as [e_magic | | ] eqn:E0; cbn [bind]; try discriminate.
    destruct (Z.eqb_spec e_magic IMAGE_DOS_SIGNATURE) as [-> | ]; cbn [negb];
      [ | intros [= <-]; discriminate ].
    destruct (load32 data 60) as [raw | | ] eqn:E1; cbn [bind]; try discriminate.
    destruct (wrap64 (signed32 raw) <? sizeof_IMAGE_DOS_HEADER) eqn:El;
      [ intros [= <-]; discriminate | ].
    rewrite ?Z.add_0_l, ?Z.add_0_r.
    destruct (load32 data (signed32 raw)) as [sig | | ] eqn:E2; cbn [bind]; try discriminate.
    destruct (Z.eqb_spec sig IMAGE_NT_SIGNATURE) as [-> | ]; cbn [negb];
      [ | intros [= <-]; discriminate ].
    destruct (load16 data (signed32 raw + 4)) as [machine | | ] eqn:E3; cbn [bind]; try discriminate.
    destruct (Z.eqb_spec machine IMAGE_FILE_MACHINE_AMD64) as [-> | ]; cbn [negb];
      [ | intros [= <-]; discriminate ].
    destruct (load16 data (signed32 raw + 6)) as [n | | ] eqn:E4; cbn [bind]; try discriminate.
    destruct (load16 data (signed32 raw + 20)) as [soh | | ] eqn:E5; cbn [bind]; try discriminate.
    intros [= <-].
    exists (signed32 raw), n, soh. split; [ | reflexivity ].
    exists raw. repeat split; try assumption.
    apply wrap64_signed32_ge; [ | exact El ].
    apply load_Ret_bounds in E2. lia.
  - intros (nt & n & soh & (raw & H0 & H1 & -> & Hge & H2 & H3 & H4 & H5) & ->).
    split; [ | reflexivity ].
    unfold_Parse. rewrite H0. cbn [bind]. rewrite Z.eqb_refl. cbn [negb].
    rewrite H1. cbn [bind]. rewrite ?Z.add_0_l, ?Z.add_0_r.
    assert (Hw : (wrap64 (signed32 raw) <? sizeof_IMAGE_DOS_HEADER) = false).
    { apply Z.ltb_ge. unfold wrap64. rewrite Z.mod_small; [ exact Hge | ].
      unfold sizeof_IMAGE_DOS_HEADER in Hge. unfold signed32 in *.
      apply (load_Ret_range 4) in H1; [ | lia ].
      change (2 ^ (8 * 4)) with (2 ^ 32) in H1.
      destruct (raw <? 2 ^ 31); lia. }
    rewrite Hw, H2. cbn [bind]. rewrite Z.eqb_refl. cbn [negb].
    rewrite H3. cbn [bind]. rewrite Z.eqb_refl. cbn [negb].
    rewrite H4. cbn [bind]. rewrite H5. cbn [bind]. reflexivity.
Qed.

(** C2, as the code has it. An image is accepted exactly when it passes
    the checks [Parse] makes: the magic is [MZ]; [e_lfanew] is at least
    the size of the DOS header; the signature, machine, section count and
    optional-header size (the first 22 bytes of the NT headers) can be
    read inside the bytes; the signature is [PE\0\0] and the machine
    AMD64. The accepted parser then lists [NumberOfSections] consecutive
    section-header slots after the optional header. Nothing else is
    checked: the contents of the section headers and the remainder of the
    NT headers play no part in acceptance. *)
Theorem accepted_iff_passes_checks (data : list byte) (pe : PE.t) :
  (PE.Parse data = Ret pe /\ PE.Ok pe = true) <->
  (exists nt n soh,
      passes_checks data nt n soh /\ nt + 22 <= len data /\
      pe = accepted data nt n soh).
Proof.
  rewrite Parse_accepts_iff. split.
  - intros (nt & n & soh & Hc & ->). exists nt, n, soh. repeat split; try assumption.
    destruct Hc as (raw & _ & _ & _ & _ & _ & _ & _ & H5).
    apply load_Ret_bounds in H5. lia.
  - intros (nt & n & soh & Hc & _ & ->). exists nt, n, soh. split; [ exact Hc | reflexivity ].
Qed.

Lemma accepted_iff_passes_checks_witness :
  PE.Parse Sample.truncated = Ret (accepted Sample.truncated 64 1 240) /\
  PE.Ok (accepted Sample.truncated 64 1 240) = true.
Proof.
  apply (proj2 (accepted_iff_passes_checks Sample.truncated (accepted Sample.truncated 64 1 240))).
  exists 64, 1, 240. split; [ | split ].
  - exists 64. vm_compute. repeat split; intros; discriminate.
  - vm_compute. discriminate.
  - reflexivity.
Defined.

(** C2 as stated fails. [Sample.truncated] is accepted although its
    section's raw range ends at 0x1200 in a file of 368 bytes and its
    virtual range ends at 0x6000 in an image of 0x2000 bytes;
    [Sample.stub] is accepted although the 264 bytes of NT headers do not
    fit in its 88 bytes. *)
Lemma accepted_out_of_bounds :
  (exists pe, PE.Parse Sample.truncated = Ret pe /\ PE.Ok pe = true /\
              ~ Forall (section_in_bounds pe) (PE.SectionHeaders pe) /\
              ~ parse_time_invariants pe) /\
  (exists pe, PE.Parse Sample.stub = Ret pe /\ PE.Ok pe = true /\
              ~ nt_headers_in_bounds pe /\
              ~ parse_time_invariants pe).
Proof.
  split.
  - exists (accepted Sample.truncated 64 1 240).
    assert (Hn : ~ Forall (section_in_bounds (accepted Sample.truncated 64 1 240))
                   (PE.SectionHeaders (accepted Sample.truncated 64 1 240))).
    { intros HF. change (PE.SectionHeaders (accepted Sample.truncated 64 1 240)) with [328] in HF.
      inversion HF as [ | sh l (ptr & sz & va & vs & img & Hptr & Hsz & _ & _ & _ & Hraw & _) _ ].
      vm_compute in Hptr. vm_compute in Hsz.
      injection Hptr as <-. injection Hsz as <-.
      vm_compute in Hraw. apply Hraw. reflexivity. }
    repeat split.
    + exact Hn.
    + intros [_ HF]. exact (Hn HF).
  - exists (accepted Sample.stub 64 0 240).
    assert (Hn : ~ nt_headers_in_bounds (accepted Sample.stub 64 0 240)).
    { intros (nt & Hnt & _ & Hb). injection Hnt as <-.
      vm_compute in Hb. apply Hb. reflexivity. }
    repeat split.
    + exact Hn.
    + intros [HN _]. exact (Hn HN).
Qed.

(** ** ImageParser: the import directory of an uncovered RVA *)

Lemma Rva2Raw_uncovered (pe : PE.t) (rva : Z) :
  find_if (detail.rvaInSection (PE.Data pe) rva) (PE.SectionHeaders pe) = Ret None ->
  PE.Rva2Raw pe rva = Ret 0.
Proof. intros H. unfold PE.Rva2Raw. unfold PE.Data, PE.SectionHeaders in H. rewrite H. reflexivity. Qed.

Lemma BuildIAT_walks_mapped_directory (host : Host) (fuel : nat) (m : Module_.t) (w : world)
      (va sz : Z) :
  Module_.nt_field m 4 (off_DataDirectory + 8 * IMAGE_DIRECTORY_ENTRY_IMPORT) w = Ret (va, w) ->
  Module_.nt_field m 4 (off_DataDirectory + 8 * IMAGE_DIRECTORY_ENTRY_IMPORT + 4) w = Ret (sz, w) ->
  sz <> 0 ->
  ModuleLoader.BuildIAT host fuel m w = ModuleLoader.descriptor_loop host fuel fuel m va w.
Proof.
  intros Hva Hsz Hnz.
  unfold ModuleLoader.BuildIAT, Module_.ImportDirectory, Module_.FetchDataDirectory, mbind.
  rewrite Hva, Hsz.
  replace (sz =? 0) with false by (symmetry; apply Z.eqb_neq; exact Hnz).
  reflexivity.
Qed.

(** C10, as the code has it. When the import data directory of an
    accepted image has a non-zero size and its RVA lies in no section,
    [Rva2Raw] returns 0 and [PE::ImportDirectory] returns a non-null
    pointer to file offset 0. The loader does not go through it:
    [BuildIAT] walks the descriptors found in the mapped region at the
    RVA stored in the mapped copy of the data directory. *)
Theorem import_directory_of_uncovered_rva (pe : PE.t) (va sz : Z)
  (Hdir : PE.DataDirectory pe IMAGE_DIRECTORY_ENTRY_IMPORT = Ret (va, sz))
  (Hsz : sz <> 0)
  (Hnone : find_if (detail.rvaInSection (PE.Data pe) va) (PE.SectionHeaders pe) = Ret None) :
  PE.Rva2Raw pe va = Ret 0 /\
  PE.ImportDirectory pe = Ret (Some 0) /\
  (forall host fuel m w va' sz',
      Module_.nt_field m 4 (off_DataDirectory + 8 * IMAGE_DIRECTORY_ENTRY_IMPORT) w = Ret (va', w) ->
      Module_.nt_field m 4 (off_DataDirectory + 8 * IMAGE_DIRECTORY_ENTRY_IMPORT + 4) w = Ret (sz', w) ->
      sz' <> 0 ->
      ModuleLoader.BuildIAT host fuel m w = ModuleLoader.descriptor_loop host fuel fuel m va' w).
Proof.
  pose proof (Rva2Raw_uncovered pe va Hnone) as Hraw.
  split; [ exact Hraw | split ].
  - unfold PE.ImportDirectory. rewrite Hdir. cbn [bind].
    replace (sz =? 0) with false by (symmetry; apply Z.eqb_neq; exact Hsz).
    rewrite Hraw. reflexivity.
  - intros host fuel m w va' sz'. apply BuildIAT_walks_mapped_directory.
Qed.

Lemma import_directory_of_uncovered_rva_witness :
  PE.Rva2Raw (accepted Sample.stray_import 64 1 240) 0x3000 = Ret 0 /\
  PE.ImportDirectory (accepted Sample.stray_import 64 1 240) = Ret (Some 0).
Proof.
  pose proof (import_directory_of_uncovered_rva
                (accepted Sample.stray_import 64 1 240) 0x3000 40) as H.
  destruct H as (H1 & H2 & _).
  - vm_compute; reflexivity.
  - discriminate.
  - vm_compute; reflexivity.
  - split; [ exact H1 | exact H2 ].
Defined.

(** C10 as stated fails in its last clause. [Sample.stray_import] is
    accepted, its import directory has size 40 at the uncovered RVA
    0x3000, and [PE::ImportDirectory] points at file offset 0, where the
    DOS header read as a descriptor has the non-zero [Characteristics]
    0x5A4D. The load nevertheless asks the host for no library: the
    descriptor array the loader reads is at offset 0x3000 of the mapped
    region, whose first [Characteristics] is 0. *)
Lemma loader_does_not_read_dos_header_as_imports :
  let pe := accepted Sample.stray_import 64 1 240 in
  let r := ModuleLoader.Load Sample.friendly 16 pe start in
  let walked := mbind (ModuleLoader.Load Sample.friendly 16 pe)
                      (fun loaded => match loaded with
                                     | Some m => Module_.ImportDirectory m
                                     | None => mret None
                                     end) start in
  PE.Parse Sample.stray_import = Ret pe /\
  PE.ImportDirectory pe = Ret (Some 0) /\
  load32 (PE.Data pe) (0 + off_imp_Characteristics) = Ret 0x5A4D /\
  (exists m, value_of r = Some (Some m)) /\
  option_map (count is_LoadLibraryA) (trace_of r) = Some 0%nat /\
  value_of walked = Some (Some 0x3000) /\
  final64 r 0x3000 = Some 0.
Proof.
  vm_compute.
  split; [ reflexivity | ].
  split; [ reflexivity | ].
  split; [ reflexivity | ].
  split; [ eexists; reflexivity | ].
  repeat split; reflexivity.
Qed.

(** ** Phase 2: the header copy *)

Lemma firstn_add {A : Type} (a b : nat) (l : list A) :
  firstn (a + b) l = firstn a l ++ firstn b (skipn a l).
Proof.
  revert l. induction a as [ | a IH ]; intros l; [ reflexivity | ].
  destruct l as [ | x l ]; cbn.
  - rewrite firstn_nil. reflexivity.
  - rewrite IH. reflexivity.
Qed.

Lemma splice_splice_adjacent (m : list byte) (p : Z) (a b : list byte) :
  0 <= p -> p + len a + len b <= len m ->
  splice (splice m p a) (p + len a) b = splice m p (a ++ b).
Proof.
  unfold len. intros H0 H1. unfold splice.
  replace (Z.to_nat (p + Z.of_nat (length a))) with (Z.to_nat p + length a)%nat by lia.
  set (P := Z.to_nat p).
  assert (HF : length (firstn P m) = P) by (rewrite length_firstn; lia).
  rewrite (app_assoc (firstn P m) a).
  assert (HL : length (firstn P m ++ a) = (P + length a)%nat)
    by (rewrite length_app, HF; reflexivity).
  rewrite <- HL at 1. rewrite <- (Nat.add_0_r (length (firstn P m ++ a))) at 1.
  rewrite firstn_app_2, firstn_O, app_nil_r.
  rewrite skipn_app, HL.
  rewrite skipn_all2 by lia.
  replace (P + length a + length b - (P + length a))%nat with (length b) by lia.
  rewrite skipn_skipn, length_app.
  rewrite <- !app_assoc. cbn [app].
  do 4 f_equal. lia.
Qed.

Lemma slice_ok (m : list byte) (off n : Z) :
  0 <= off -> 0 <= n -> off + n <= len m ->
  slice m off n = Ret (firstn (Z.to_nat n) (skipn (Z.to_nat off) m)).
Proof.
  intros H0 H1 H2. unfold slice.
  replace ((0 <=? off) && (0 <=? n) && (off + n <=? len m)) with true
    by (symmetry; rewrite !andb_true_iff, !Z.leb_le; lia).
  reflexivity.
Qed.

Lemma slice_app (m : list byte) (off a b : Z) (x y : list byte) :
  0 <= a -> slice m off a = Ret x -> slice m (off + a) b = Ret y ->
  slice m off (a + b) = Ret (x ++ y).
Proof.
  intros Ha Hx Hy.
  pose proof (slice_Ret_bounds _ _ _ _ Hx) as (X0 & X1 & X2).
  pose proof (slice_Ret_bounds _ _ _ _ Hy) as (Y0 & Y1 & Y2).
  rewrite slice_ok in Hx, Hy by lia. rewrite slice_ok by lia.
  injection Hx as <-. injection Hy as <-.
  rewrite Z2Nat.inj_add by lia. rewrite firstn_add, skipn_skipn.
  do 4 f_equal. lia.
Qed.

(** The cursor after [k] more section headers have been written. *)
Lemma write_section_headers_run (data : list byte) (s : Z) (k : nat) :
  forall (j : nat) (bw : BinaryWriter.t) (table : list byte),
    BinaryWriter.wf bw ->
    slice data (s + 40 * Z.of_nat j) (40 * Z.of_nat k) = Ret table ->
    BinaryWriter._pos bw + 40 * Z.of_nat k <= BinaryWriter._size bw ->
    ModuleLoader.write_section_headers data bw
      (map (fun i => s + sizeof_IMAGE_SECTION_HEADER * Z.of_nat i) (seq j k))
    = Ret (BinaryWriter.ProceedBuffer bw table).
Proof.
  induction k as [ | k IH ]; intros j bw table Hwf Hs Hfit.
  - cbn. pose proof (length_slice _ _ _ _ Hs) as Hl.
    destruct table; [ | cbn in Hl; lia ].
    unfold BinaryWriter.ProceedBuffer, splice. cbn.
    destruct Hwf as (Hl' & Hp & Hsz).
    rewrite Z.add_0_r, wrap64_small by lia.
    rewrite Nat.add_0_r, firstn_skipn. destruct bw; reflexivity.
  - cbn [seq map ModuleLoader.write_section_headers].
    change sizeof_IMAGE_SECTION_HEADER with 40 in *.
    pose proof (slice_Ret_bounds _ _ _ _ Hs) as (S0 & S1 & S2).
    pose proof Hwf as (Hl' & Hp & Hsz).
    unfold ModuleLoader.write_section_header.
    unfold BinaryWriter.CanWrite.
    change sizeof_IMAGE_SECTION_HEADER with 40.
    rewrite (wrap64_small (BinaryWriter._pos bw + 40)) by lia.
    replace (BinaryWriter._pos bw + 40 <=? BinaryWriter._size bw) with true
      by (symmetry; apply Z.leb_le; lia).
    rewrite (slice_ok data (s + 40 * Z.of_nat j) 40) by lia.
    cbn [bind].
    set (hdr := firstn (Z.to_nat 40) (skipn (Z.to_nat (s + 40 * Z.of_nat j)) data)).
    assert (Hh : slice data (s + 40 * Z.of_nat j) 40 = Ret hdr) by (apply slice_ok; lia).
    pose proof (length_slice _ _ _ _ Hh) as Hlh.
    set (rest := firstn (Z.to_nat (40 * Z.of_nat k))
                        (skipn (Z.to_nat (s + 40 * Z.of_nat (S j))) data)).
    assert (Hr : slice data (s + 40 * Z.of_nat (S j)) (40 * Z.of_nat k) = Ret rest)
      by (apply slice_ok; lia).
    pose proof (length_slice _ _ _ _ Hr) as Hlr.
    assert (Ht : table = hdr ++ rest).
    { assert (H : slice data (s + 40 * Z.of_nat j) (40 + 40 * Z.of_nat k) = Ret (hdr ++ rest)).
      { apply slice_app; [ lia | exact Hh | ].
        replace (s + 40 * Z.of_nat j + 40) with (s + 40 * Z.of_nat (S j)) by lia. exact Hr. }
      replace (40 + 40 * Z.of_nat k) with (40 * Z.of_nat (S k)) in H by lia.
      rewrite Hs in H. injection H as ->. reflexivity. }
    clearbody hdr rest.
    rewrite (IH (S j) (BinaryWriter.ProceedBuffer bw hdr) rest).
    + f_equal. unfold BinaryWriter.ProceedBuffer.
      cbn [BinaryWriter._buffer BinaryWriter._pos BinaryWriter._size].
      rewrite (wrap64_small (BinaryWriter._pos bw + len hdr)) by lia.
      rewrite splice_splice_adjacent by lia.
      rewrite Ht, len_app. f_equal. f_equal. lia.
    + unfold BinaryWriter.wf, BinaryWriter.ProceedBuffer;
        cbn [BinaryWriter._buffer BinaryWriter._pos BinaryWriter._size].
      rewrite len_splice by lia. rewrite wrap64_small by lia. lia.
    + exact Hr.
    + unfold BinaryWriter.ProceedBuffer;
        cbn [BinaryWriter._buffer BinaryWriter._pos BinaryWriter._size].
      rewrite wrap64_small by lia. lia.
Qed.

Lemma first_section_pointers (first n : Z) :
  1 <= n -> ModuleLoader.first_section (section_pointers first n) = Ret first.
Proof.
  intros Hn. unfold section_pointers.
  destruct (Z.to_nat n) as [ | k ] eqn:E; [ lia | ].
  cbn. f_equal. unfold sizeof_IMAGE_SECTION_HEADER. lia.
Qed.

(** C1, as the code has it. For an accepted image with at least one
    section whose section table lies in the file and fits in the region:
    [header_bytes] is the file offset of the first section header, that
    is the length of the image up to but not including the section
    table; the block write copies exactly these bytes and leaves the
    region from that offset on as it was allocated; the loop over the
    section headers is what copies the section table, to the same
    offsets as in the file, so that after both the region starts with
    the file's bytes up to the end of the section table and the cursor
    stands at that end. *)
Theorem header_copy_excludes_section_table (data buf : list byte) (nt n soh : Z)
  (Hnt : 0 <= nt) (Hsoh : 0 <= soh) (Hn : 1 <= n)
  (Hfile : IMAGE_FIRST_SECTION nt soh + 40 * n <= len data)
  (Hfit : IMAGE_FIRST_SECTION nt soh + 40 * n <= len buf)
  (Hsz : len buf < 2 ^ 64) :
  let pe := accepted data nt n soh in
  let first := IMAGE_FIRST_SECTION nt soh in
  let bw := BinaryWriter.make buf (len buf) in
  let bw1 := BinaryWriter.mk (splice buf 0 (firstn (Z.to_nat first) data)) (len buf) first in
  let bw2 := BinaryWriter.mk (splice buf 0 (firstn (Z.to_nat (first + 40 * n)) data))
                             (len buf) (first + 40 * n) in
  ModuleLoader.header_bytes pe = Ret first /\
  ModuleLoader.copy_header_block pe bw = Ret bw1 /\
  (forall i, first <= i -> byte_at (BinaryWriter._buffer bw1) i = byte_at buf i) /\
  ModuleLoader.copy_headers pe bw = Ret bw2 /\
  slice (BinaryWriter._buffer bw2) 0 (first + 40 * n) = slice data 0 (first + 40 * n).
Proof.
  intros pe first bw bw1 bw2.
  assert (Hf0 : 0 <= first) by (unfold first, IMAGE_FIRST_SECTION, off_OptionalHeader; lia).
  assert (Hhb : ModuleLoader.header_bytes pe = Ret first).
  { unfold ModuleLoader.header_bytes. cbn [PE.SectionHeaders pe accepted PE._sectionHeaders].
    rewrite first_section_pointers by exact Hn. cbn [bind].
    rewrite Z.sub_0_r, wrap64_small by (fold first in Hfit; lia). reflexivity. }
  set (block := firstn (Z.to_nat first) data) in *.
  assert (Hblock : slice data 0 first = Ret block).
  { rewrite slice_ok by (fold first in Hfile; lia). reflexivity. }
  pose proof (length_slice _ _ _ _ Hblock) as Hlb.
  assert (H1 : ModuleLoader.copy_header_block pe bw = Ret bw1).
  { unfold ModuleLoader.copy_header_block. rewrite Hhb. cbn [bind].
    cbn [PE.Data pe accepted PE._data]. rewrite Hblock. cbn [bind].
    unfold BinaryWriter.write, BinaryWriter.CanWrite, BinaryWriter.ProceedBuffer, bw, BinaryWriter.make.
    cbn [BinaryWriter._buffer BinaryWriter._pos BinaryWriter._size].
    rewrite Hlb, Z.add_0_l, wrap64_small by (fold first in Hfit; lia).
    replace (first <=? len buf) with true by (symmetry; apply Z.leb_le; fold first in Hfit; lia).
    reflexivity. }
  set (k := Z.to_nat n).
  set (table := firstn (Z.to_nat (40 * Z.of_nat k)) (skipn (Z.to_nat first) data)).
  assert (Htable : slice data (first + 40 * Z.of_nat 0) (40 * Z.of_nat k) = Ret table).
  { rewrite slice_ok by (fold first in Hfile; subst k; lia).
    unfold table. do 3 f_equal. lia. }
  pose proof (length_slice _ _ _ _ Htable) as Hlt.
  assert (Happ : block ++ table = firstn (Z.to_nat (first + 40 * n)) data).
  { unfold block, table. rewrite <- firstn_add. f_equal. subst k. lia. }
  clearbody block table.
  assert (H2 : ModuleLoader.copy_headers pe bw = Ret bw2).
  { unfold ModuleLoader.copy_headers. rewrite H1. cbn [bind].
    cbn [PE.Data PE.SectionHeaders pe accepted PE._data PE._sectionHeaders].
    unfold section_pointers. fold k. fold first.
    rewrite (write_section_headers_run data first k 0%nat bw1 table).
    - f_equal. unfold BinaryWriter.ProceedBuffer, bw1.
      cbn [BinaryWriter._buffer BinaryWriter._pos BinaryWriter._size].
      rewrite Hlt, wrap64_small by (fold first in Hfit; subst k; lia).
      assert (Hs : splice (splice buf 0 block) first table = splice buf 0 (block ++ table)).
      { rewrite <- (splice_splice_adjacent buf 0 block table)
          by (fold first in Hfit; subst k; lia).
        rewrite Z.add_0_l, Hlb. reflexivity. }
      rewrite Hs. unfold bw2. rewrite Happ. f_equal. subst k. lia.
    - unfold BinaryWriter.wf, bw1.
      cbn [BinaryWriter._buffer BinaryWriter._pos BinaryWriter._size].
      rewrite len_splice by (fold first in Hfit; lia).
      fold first in Hfit. lia.
    - exact Htable.
    - unfold bw1. cbn [BinaryWriter._pos BinaryWriter._size].
      fold first in Hfit. subst k. lia. }
  split; [ exact Hhb | ].
  split; [ exact H1 | ].
  split.
  { intros i Hi. unfold bw1. cbn [BinaryWriter._buffer].
    apply byte_at_splice_outside; fold first in Hfit; lia. }
  split; [ exact H2 | ].
  unfold bw2. cbn [BinaryWriter._buffer]. rewrite <- Happ.
  assert (Hl : len (block ++ table) = first + 40 * n) by (rewrite len_app; subst k; lia).
  rewrite <- Hl.
  rewrite slice_splice_same by (fold first in Hfit; lia).
  rewrite slice_ok by (fold first in Hfile; lia).
  rewrite Hl, Happ. reflexivity.
Qed.

Lemma header_copy_excludes_section_table_witness :
  ModuleLoader.header_bytes (accepted Sample.stray_import 64 1 240) = Ret 328 /\
  (bw2 <- ModuleLoader.copy_headers (accepted Sample.stray_import 64 1 240)
                                    (BinaryWriter.make (zeros 0x4000) (len (zeros 0x4000))) ;;
   Ret (BinaryWriter._pos bw2)) = Ret 368.
Proof.
  destruct (header_copy_excludes_section_table
              Sample.stray_import (zeros 0x4000) 64 1 240) as (H1 & _ & _ & H2 & _).
  - lia.
  - lia.
  - lia.
  - vm_compute; discriminate.
  - vm_compute; discriminate.
  - vm_compute; reflexivity.
  - split; [ exact H1 | ]. rewrite H2. reflexivity.
Defined.

(** C1 as stated fails. On [Sample.stray_import], whose section table
    occupies file offsets 328 to 368, [header_bytes] is 328; after the
    block write the region holds zeros where the section table belongs,
    not the file's section header; the loop over the section headers
    then changes those 40 bytes of the region to the file's. *)
Lemma header_block_lacks_section_table :
  let pe := accepted Sample.stray_import 64 1 240 in
  let bw := BinaryWriter.make (zeros 0x4000) 0x4000 in
  let table := slice (PE.Data pe) 328 40 in
  PE.Parse Sample.stray_import = Ret pe /\
  PE.SectionHeaders pe = [328] /\
  ModuleLoader.header_bytes pe = Ret 328 /\
  ModuleLoader.header_bytes pe <> Ret (328 + 40) /\
  (bw1 <- ModuleLoader.copy_header_block pe bw ;; slice (BinaryWriter._buffer bw1) 328 40)
  = Ret (zeros 40) /\
  table <> Ret (zeros 40) /\
  (bw2 <- ModuleLoader.copy_headers pe bw ;; slice (BinaryWriter._buffer bw2) 328 40)
  = table /\
  (bw1 <- ModuleLoader.copy_header_block pe bw ;; Ret (BinaryWriter._buffer bw1))
  <> (bw2 <- ModuleLoader.copy_headers pe bw ;; Ret (BinaryWriter._buffer bw2)).
Proof.
  intros pe bw table.
  split; [ vm_compute; reflexivity | ].
  split; [ vm_compute; reflexivity | ].
  split; [ vm_compute; reflexivity | ].
  split; [ vm_compute; discriminate | ].
  assert (H1 : (bw1 <- ModuleLoader.copy_header_block pe bw ;;
                slice (BinaryWriter._buffer bw1) 328 40) = Ret (zeros 40))
    by (vm_compute; reflexivity).
  assert (Ht : table <> Ret (zeros 40)) by (vm_compute; discriminate).
  assert (H2 : (bw2 <- ModuleLoader.copy_headers pe bw ;;
                slice (BinaryWriter._buffer bw2) 328 40) = table)
    by (vm_compute; reflexivity).
  split; [ exact H1 | ].
  split; [ exact Ht | ].
  split; [ exact H2 | ].
  intros Heq. apply Ht. rewrite <- H2, <- H1.
  destruct (ModuleLoader.copy_header_block pe bw) as [bw1 | | ];
    destruct (ModuleLoader.copy_headers pe bw) as [bw2 | | ];
    cbn [bind] in *; try discriminate; try reflexivity.
  injection Heq as ->. reflexivity.
Qed.

(** ** Running in the world *)

Lemma mbind_Ret {A B : Type} (c : M A) (k : A -> M B) (w w'' : world) (b : B) :
  mbind c k w = Ret (b, w'') ->
  exists a w', c w = Ret (a, w') /\ k a w' = Ret (b, w'').
Proof.
  unfold mbind. destruct (c w) as [[a w'] | | ]; try discriminate.
  intros H. exists a, w'. split; [ reflexivity | exact H ].
Qed.

Lemma read_Ret (n off : Z) (w w' : world) (v : Z) :
  read n off w = Ret (v, w') -> w' = w /\ load n (region w) off = Ret v.
Proof.
  unfold read, mbind, get_region, lift.
  destruct (load n (region w) off) as [x | | ]; try discriminate.
  intros [= <- <-]. split; reflexivity.
Qed.

Lemma read_ok (n off v : Z) (w : world) :
  load n (region w) off = Ret v -> read n off w = Ret (v, w).
Proof. intros H. unfold read, mbind, get_region, lift. rewrite H. reflexivity. Qed.

Lemma load_ok (n : Z) (m : list byte) (off : Z) :
  0 <= n -> 0 <= off -> off + n <= len m -> exists v, load n m off = Ret v.
Proof.
  intros Hn H0 H1. unfold load. rewrite slice_ok by lia. cbn [bind]. eexists. reflexivity.
Qed.

(** ** Phase 7: page protections *)







(** ** Which phases can report a failed protection *)


Lemma quiet_mret {A : Type} (a : A) : quiet (mret a).
Proof.
  intros w a' w' [= <- <-]. exists []. rewrite app_nil_r. split; reflexivity.
Qed.

Lemma quiet_lift {A : Type} (r : result A) : quiet (lift r).
Proof.
  intros w a w'. unfold lift. destruct r; try discriminate.
  intros [= <- <-]. exists []. rewrite app_nil_r. split; reflexivity.
Qed.

Lemma quiet_bind {A B : Type} (c : M A) (k : A -> M B) :
  quiet c -> (forall a, quiet (k a)) -> quiet (mbind c k).
Proof.
  intros Hc Hk w b w'' H. apply mbind_Ret in H as (a & w' & H1 & H2).
  apply Hc in H1 as (t1 & E1 & Q1). apply Hk in H2 as (t2 & E2 & Q2).
  exists (t1 ++ t2). split.
  - rewrite E2, E1, app_assoc. reflexivity.
  - rewrite existsb_app, Q1, Q2. reflexivity.
Qed.

Lemma quiet_emit (e : event) : is_failed_protect e = false -> quiet (emit e).
Proof.
  intros He w a w' [= <- <-]. exists [e]. split; [ reflexivity | ].
  cbn. rewrite He. reflexivity.
Qed.

Lemma quiet_get_trace : quiet get_trace.
Proof. intros w a w' [= <- <-]. exists []. rewrite app_nil_r. split; reflexivity. Qed.

Lemma quiet_get_region : quiet get_region.
Proof. intros w a w' [= <- <-]. exists []. rewrite app_nil_r. split; reflexivity. Qed.

Lemma quiet_set_region (m : list byte) : quiet (set_region m).
Proof. intros w a w' [= <- <-]. exists []. cbn. rewrite app_nil_r. split; reflexivity. Qed.

Lemma quiet_if {A : Type} (b : bool) (c1 c2 : M A) :
  quiet c1 -> quiet c2 -> quiet (if b then c1 else c2).
Proof. destruct b; auto. Qed.

Create HintDb quiet.
#[local] Hint Resolve quiet_mret quiet_lift quiet_get_trace quiet_get_region
  quiet_set_region : quiet.
#[local] Hint Extern 1 (quiet (emit _)) => apply quiet_emit; reflexivity : quiet.
#[local] Hint Extern 2 (quiet (mbind _ _)) => apply quiet_bind; [ | intro ] : quiet.
#[local] Hint Extern 2 (quiet (if _ then _ else _)) => apply quiet_if : quiet.
#[local] Hint Extern 2 (quiet (match ?x with None => _ | Some _ => _ end)) =>
  destruct x : quiet.

Ltac quiet := auto 30 with quiet.

Lemma quiet_read (n off : Z) : quiet (read n off).
Proof. unfold read. quiet. Qed.

Lemma quiet_write64 (off v : Z) : quiet (write64 off v).
Proof. unfold write64. quiet. Qed.

Lemma quiet_index (size i : Z) : quiet (index size i).
Proof. unfold index. quiet. Qed.

#[local] Hint Resolve quiet_read quiet_write64 quiet_index : quiet.

Lemma quiet_callVirtualAlloc (host : Host) (size : Z) : quiet (callVirtualAlloc host size).
Proof. unfold callVirtualAlloc. quiet. Qed.

Lemma quiet_callLoadLibraryA (host : Host) (dll : list byte) : quiet (callLoadLibraryA host dll).
Proof. unfold callLoadLibraryA. quiet. Qed.

Lemma quiet_callGetProcAddress (host : Host) (h : Z) (s : symbol) :
  quiet (callGetProcAddress host h s).
Proof. unfold callGetProcAddress. quiet. Qed.

Lemma quiet_callFreeLibrary (h : Z) : quiet (callFreeLibrary h).
Proof. unfold callFreeLibrary. quiet. Qed.

Lemma quiet_callVirtualFree (a s : Z) : quiet (callVirtualFree a s).
Proof. unfold callVirtualFree. quiet. Qed.

#[local] Hint Resolve quiet_callVirtualAlloc quiet_callLoadLibraryA quiet_callGetProcAddress
  quiet_callFreeLibrary quiet_callVirtualFree : quiet.

Lemma quiet_for_each {A : Type} (f : A -> M unit) (l : list A) :
  (forall x, quiet (f x)) -> quiet (for_each f l).
Proof. intros Hf. induction l as [ | x l IH ]; cbn [for_each]; quiet. Qed.

Lemma quiet_destroy (m : Module_.t) : quiet (Module_.destroy m).
Proof.
  unfold Module_.destroy. apply quiet_bind; [ | intro ]; quiet.
  apply quiet_for_each. quiet.
Qed.

Lemma quiet_nt_field (m : Module_.t) (width off : Z) : quiet (Module_.nt_field m width off).
Proof. unfold Module_.nt_field. quiet. Qed.

#[local] Hint Resolve quiet_destroy quiet_nt_field : quiet.

Lemma quiet_FetchDataDirectory (m : Module_.t) (i : Z) : quiet (Module_.FetchDataDirectory m i).
Proof. unfold Module_.FetchDataDirectory. quiet. Qed.

Lemma quiet_make (base imageSize : Z) : quiet (Module_.make base imageSize).
Proof. unfold Module_.make. cbv zeta. quiet. Qed.

#[local] Hint Resolve quiet_FetchDataDirectory quiet_make : quiet.

Lemma quiet_thunk_loop (host : Host) (n : nat) :
  forall imageSize module OFT IAT, quiet (ModuleLoader.thunk_loop host n imageSize module OFT IAT).
Proof. induction n as [ | n IH ]; intros; cbn [ModuleLoader.thunk_loop]; quiet. Qed.

#[local] Hint Resolve quiet_thunk_loop : quiet.

Lemma quiet_descriptor_loop (host : Host) (fuel n : nat) :
  forall m d, quiet (ModuleLoader.descriptor_loop host fuel n m d).
Proof. induction n as [ | n IH ]; intros; cbn [ModuleLoader.descriptor_loop]; cbv zeta; quiet. Qed.

#[local] Hint Resolve quiet_descriptor_loop : quiet.

Lemma quiet_BuildIAT (host : Host) (fuel : nat) (m : Module_.t) :
  quiet (ModuleLoader.BuildIAT host fuel m).
Proof. unfold ModuleLoader.BuildIAT, Module_.ImportDirectory. quiet. Qed.

Lemma quiet_reloc_entries (n : nat) :
  forall imageSize delta relocTable reloc,
    quiet (ModuleLoader.reloc_entries n imageSize delta relocTable reloc).
Proof. induction n as [ | n IH ]; intros; cbn [ModuleLoader.reloc_entries]; quiet. Qed.

#[local] Hint Resolve quiet_reloc_entries : quiet.

Lemma quiet_reloc_blocks (fuel n : nat) :
  forall imageSize delta relocTable,
    quiet (ModuleLoader.reloc_blocks fuel n imageSize delta relocTable).
Proof. induction n as [ | n IH ]; intros; cbn [ModuleLoader.reloc_blocks]; quiet. Qed.

#[local] Hint Resolve quiet_reloc_blocks : quiet.

Lemma quiet_RelocateBase (fuel : nat) (m : Module_.t) (delta : Z) :
  quiet (ModuleLoader.RelocateBase fuel m delta).
Proof. unfold ModuleLoader.RelocateBase, Module_.RelocationDirectory. quiet. Qed.

Lemma quiet_tls_loop (n : nat) :
  forall imageBase tlsCallbacks, quiet (ModuleLoader.tls_loop n imageBase tlsCallbacks).
Proof. induction n as [ | n IH ]; intros; cbn [ModuleLoader.tls_loop]; quiet. Qed.

#[local] Hint Resolve quiet_tls_loop : quiet.

Lemma quiet_RunTLSCallbacks (fuel : nat) (m : Module_.t) :
  quiet (ModuleLoader.RunTLSCallbacks fuel m).
Proof. unfold ModuleLoader.RunTLSCallbacks, Module_.TLSDirectory. quiet. Qed.

#[local] Hint Resolve quiet_BuildIAT quiet_RelocateBase quiet_RunTLSCallbacks : quiet.




Lemma fail_after_mod_empty (m : Module_.t) (w w' : world) (r : option Module_.t) :
  ModuleLoader.fail_after_mod m w = Ret (r, w') -> r = None.
Proof.
  unfold ModuleLoader.fail_after_mod. intros H.
  apply mbind_Ret in H as (u & w1 & _ & H). injection H as <- _. reflexivity.
Qed.







(** ** Framing loads and strings across a store *)

Lemma nth_error_slice (m : list byte) (off n : nat) (j : nat) :
  nth_error (firstn n (skipn off m)) j
  = if (j <? n)%nat then nth_error m (off + j) else None.
Proof.
  rewrite nth_error_firstn. destruct (j <? n)%nat; [ | reflexivity ].
  apply nth_error_skipn.
Qed.

Lemma slice_ext (m m' : list byte) (off n : Z) :
  len m = len m' ->
  (forall i, off <= i < off + n -> byte_at m i = byte_at m' i) ->
  slice m off n = slice m' off n.
Proof.
  intros Hl Hb. unfold slice. rewrite <- Hl.
  destruct ((0 <=? off) && (0 <=? n) && (off + n <=? len m)) eqn:E; [ | reflexivity ].
  rewrite !andb_true_iff, !Z.leb_le in E. destruct E as [[H0 Hn] H1].
  f_equal. apply nth_error_ext. intros j. rewrite !nth_error_slice.
  destruct (Nat.ltb_spec j (Z.to_nat n)) as [Hj | Hj]; [ | reflexivity ].
  specialize (Hb (off + Z.of_nat j)). unfold byte_at in Hb.
  replace (0 <=? off + Z.of_nat j) with true in Hb by (symmetry; apply Z.leb_le; lia).
  replace (Z.to_nat (off + Z.of_nat j)) with (Z.to_nat off + j)%nat in Hb by lia.
  apply Hb. lia.
Qed.

Lemma load_ext (n : Z) (m m' : list byte) (off : Z) :
  len m = len m' ->
  (forall i, off <= i < off + n -> byte_at m i = byte_at m' i) ->
  load n m off = load n m' off.
Proof. intros Hl Hb. unfold load. rewrite (slice_ext m m' off n Hl Hb). reflexivity. Qed.

(** A store leaves a load of a disjoint range as it was. *)
Lemma load_splice_disjoint (n : Z) (m : list byte) (a : Z) (d : list byte) (off : Z) :
  0 <= a -> a + len d <= len m ->
  off + n <= a \/ a + len d <= off ->
  load n (splice m a d) off = load n m off.
Proof.
  intros H0 H1 Hd. apply load_ext.
  - apply len_splice; assumption.
  - intros i Hi. apply byte_at_splice_outside; lia.
Qed.

Lemma load64_splice_same (m : list byte) (a v : Z) :
  0 <= a -> a + 8 <= len m ->
  load64 (splice m a (le_split 8 v)) a = Ret (wrap64 v).
Proof.
  intros H0 H1. unfold load64, load.
  assert (Hl : len (le_split 8 v) = 8) by (unfold len; rewrite length_le_split; reflexivity).
  rewrite <- Hl at 1. rewrite slice_splice_same by lia.
  cbn [bind]. rewrite le_combine_split. reflexivity.
Qed.

Lemma until_nul_prefix (l : list byte) (s : list byte) :
  until_nul l = Ret s ->
  forall l', firstn (length s + 1) l' = firstn (length s + 1) l -> until_nul l' = Ret s.
Proof.
  revert s. induction l as [ | b l IH ]; intros s H l' Hp; [ discriminate | ].
  cbn [until_nul] in H.
  destruct (byte.unsigned b =? 0) eqn:Eb.
  - injection H as <-. cbn in Hp.
    destruct l' as [ | b' l'' ]; [ discriminate | ].
    cbn in Hp. injection Hp as ->. cbn [until_nul]. rewrite Eb. reflexivity.
  - destruct (until_nul l) as [s' | | ] eqn:Es; cbn [bind] in H; try discriminate.
    injection H as <-. cbn [length Nat.add] in Hp.
    destruct l' as [ | b' l'' ]; [ discriminate | ].
    cbn [firstn] in Hp. injection Hp as -> Hp.
    cbn [until_nul]. rewrite Eb. rewrite (IH s' eq_refl l'' Hp). reflexivity.
Qed.

Lemma until_nul_length (l s : list byte) :
  until_nul l = Ret s -> (length s + 1 <= length l)%nat.
Proof.
  revert s. induction l as [ | b l IH ]; intros s H; [ discriminate | ].
  cbn [until_nul] in H. destruct (byte.unsigned b =? 0).
  - injection H as <-. cbn. lia.
  - destruct (until_nul l) as [s' | | ] eqn:Es; cbn [bind] in H; try discriminate.
    injection H as <-. specialize (IH s' eq_refl). cbn. lia.
Qed.

(** A store leaves a string that it does not overlap as it was. *)
Lemma cstring_splice_disjoint (m : list byte) (a : Z) (d : list byte) (off : Z) (s : list byte) :
  0 <= a -> a + len d <= len m ->
  cstring m off = Ret s ->
  off + len s + 1 <= a \/ a + len d <= off ->
  cstring (splice m a d) off = Ret s.
Proof.
  intros H0 H1 Hs Hd. unfold cstring in *.
  rewrite len_splice by assumption.
  destruct ((0 <=? off) && (off <=? len m)) eqn:E; [ | discriminate ].
  rewrite andb_true_iff, !Z.leb_le in E. destruct E as [E0 E1].
  pose proof (until_nul_length _ _ Hs) as Hlen. rewrite length_skipn in Hlen.
  apply (until_nul_prefix _ _ Hs).
  assert (Hsl : slice (splice m a d) off (len s + 1) = slice m off (len s + 1)).
  { apply slice_ext.
    - apply len_splice; assumption.
    - intros i Hi. apply byte_at_splice_outside; lia. }
  unfold len in *. rewrite !slice_ok in Hsl by (try rewrite len_splice; unfold len; lia).
  injection Hsl as Hsl.
  replace (Z.to_nat (Z.of_nat (length s) + 1)) with (length s + 1)%nat in Hsl by lia.
  exact Hsl.
Qed.

(** ** Phase 5: the thunk loop *)

Lemma write64_ok (off v : Z) (w : world) :
  0 <= off -> off + 8 <= len (region w) ->
  write64 off v w = Ret (tt, {| trace := trace w; region := splice (region w) off (le_split 8 v) |}).
Proof.
  intros H0 H1. unfold write64, mbind, get_region, lift, store64, store, set_region.
  assert (Hl : len (le_split 8 v) = 8) by (unfold len; rewrite length_le_split; reflexivity).
  rewrite Hl.
  replace ((0 <=? off) && (off + 8 <=? len (region w))) with true
    by (symmetry; rewrite andb_true_iff, !Z.leb_le; lia).
  reflexivity.
Qed.

Lemma thunk_loop_end (host : Host) (n : nat) (imageSize module OFT IAT : Z) (w : world) :
  load64 (region w) OFT = Ret 0 ->
  ModuleLoader.thunk_loop host (S n) imageSize module OFT IAT w = Ret (true, w).
Proof.
  intros H. cbn [ModuleLoader.thunk_loop]. unfold mbind at 1.
  rewrite (read_ok 8 OFT 0 w H). reflexivity.
Qed.

Lemma thunk_loop_next (host : Host) (n : nat) (imageSize module OFT IAT : Z) (w : world)
      (t : Z) (s : symbol) :
  load64 (region w) OFT = Ret t -> t <> 0 ->
  symbol_at (region w) imageSize t = Ret s ->
  let f := GetProcAddress host (trace w) module s in
  f <> 0 -> 0 <= IAT -> IAT + 8 <= len (region w) ->
  ModuleLoader.thunk_loop host (S n) imageSize module OFT IAT w
  = ModuleLoader.thunk_loop host n imageSize module (OFT + 8) (IAT + 8)
      {| trace := trace w ++ [EvGetProcAddress module s f];
         region := splice (region w) IAT (le_split 8 f) |}.
Proof.
  intros Ht Hnz Hs f Hf H0 H1. cbn [ModuleLoader.thunk_loop]. unfold mbind at 1.
  rewrite (read_ok 8 OFT t w Ht).
  replace (t =? 0) with false by (symmetry; apply Z.eqb_neq; exact Hnz).
  unfold symbol_at in Hs. unfold mbind at 1.
  assert (Hcall : forall w0, trace w0 = trace w -> region w0 = region w -> w0 = w).
  { intros [t0 r0]; cbn; intros -> ->. destruct w; reflexivity. }
  destruct (IMAGE_SNAP_BY_ORDINAL t).
  - injection Hs as <-.
    unfold callGetProcAddress, mbind, get_trace, emit, mret. fold f.
    replace (f =? 0) with false by (symmetry; apply Z.eqb_neq; exact Hf).
    match goal with |- context [write64 IAT f ?w1] => rewrite (write64_ok IAT f w1) end;
      [ reflexivity | exact H0 | exact H1 ].
  - unfold index.
    destruct ((0 <=? t) && (t <? imageSize)); [ | discriminate ].
    destruct (cstring (region w) (t + off_iin_Name)) as [name | | ] eqn:En;
      cbn [bind] in Hs; try discriminate.
    injection Hs as <-.
    unfold mbind, mret, get_region, lift. rewrite En.
    unfold callGetProcAddress, mbind, get_trace, emit, mret. fold f.
    replace (f =? 0) with false by (symmetry; apply Z.eqb_neq; exact Hf).
    match goal with |- context [write64 IAT f ?w1] => rewrite (write64_ok IAT f w1) end;
      [ reflexivity | exact H0 | exact H1 ].
Qed.


Lemma thunk_array_splice (m : list byte) (a : Z) (d : list byte) (ts : list Z) :
  forall off,
    thunk_array m off ts ->
    0 <= a -> a + len d <= len m ->
    a + len d <= off \/ off + 8 * (Z.of_nat (length ts) + 1) <= a ->
    thunk_array (splice m a d) off ts.
Proof.
  induction ts as [ | t ts IH ]; intros off H H0 H1 Hd; inversion H; subst.
  - apply thunks_end. unfold load64 in *.
    rewrite load_splice_disjoint; [ assumption | assumption | assumption | ].
    cbn [length] in Hd. lia.
  - apply thunks_next; [ | assumption | ].
    + unfold load64 in *.
      rewrite load_splice_disjoint; [ assumption | assumption | assumption | ].
      cbn [length] in Hd. lia.
    + apply IH; try assumption. cbn [length] in Hd. lia.
Qed.

Lemma symbol_at_splice (m : list byte) (a : Z) (d : list byte) (imageSize t : Z) (s : symbol) :
  0 <= a -> a + len d <= len m ->
  symbol_at m imageSize t = Ret s ->
  symbol_clear_of a (a + len d) t s ->
  symbol_at (splice m a d) imageSize t = Ret s.
Proof.
  intros H0 H1 Hs Hc. unfold symbol_at in *.
  destruct (IMAGE_SNAP_BY_ORDINAL t); [ exact Hs | ].
  destruct ((0 <=? t) && (t <? imageSize)); [ | discriminate ].
  destruct (cstring m (t + off_iin_Name)) as [name | | ] eqn:En; cbn [bind] in Hs;
    try discriminate.
  injection Hs as <-. cbn [symbol_clear_of] in Hc.
  rewrite (cstring_splice_disjoint m a d _ name H0 H1 En); [ reflexivity | lia ].
Qed.

Lemma len_slots (fs : list Z) : len (slots fs) = 8 * Z.of_nat (length fs).
Proof.
  induction fs as [ | f fs IH ]; [ reflexivity | ].
  cbn [slots flat_map]. fold (slots fs). rewrite len_app, IH.
  unfold len at 1. rewrite length_le_split. cbn [length]. lia.
Qed.

Lemma length_resolve_thunks (host : Host) (module : Z) (syms : list symbol) :
  forall t, length (fst (resolve_thunks host module t syms)) = length syms.
Proof.
  induction syms as [ | s syms IH ]; intros t; [ reflexivity | ].
  cbn [resolve_thunks fst length]. rewrite IH. reflexivity.
Qed.

Lemma thunk_loop_resolves (host : Host) (imageSize module : Z) (ts : list Z) :
  forall (syms : list symbol) (OFT IAT : Z) (w : world) (n : nat),
    thunk_array (region w) OFT ts ->
    Forall2 (fun t s => symbol_at (region w) imageSize t = Ret s /\
                        symbol_clear_of IAT (IAT + 8 * Z.of_nat (length ts)) t s) ts syms ->
    0 <= IAT -> IAT + 8 * Z.of_nat (length ts) <= len (region w) ->
    IAT <= OFT \/ OFT + 8 * (Z.of_nat (length ts) + 1) <= IAT ->
    Forall (fun f => f <> 0) (fst (resolve_thunks host module (trace w) syms)) ->
    (length ts < n)%nat ->
    ModuleLoader.thunk_loop host n imageSize module OFT IAT w
    = Ret (true,
           {| trace := snd (resolve_thunks host module (trace w) syms);
              region := splice (region w) IAT
                               (slots (fst (resolve_thunks host module (trace w) syms))) |}).
Proof.
  induction ts as [ | t ts IH ]; intros syms OFT IAT w n Harr Hsym H0 H1 Hd Hnz Hn.
  - inversion Harr; subst. inversion Hsym; subst.
    destruct n as [ | n ]; [ cbn in Hn; lia | ].
    rewrite thunk_loop_end by assumption.
    cbn [resolve_thunks fst snd slots flat_map]. unfold splice.
    cbn [length app]. rewrite Nat.add_0_r, firstn_skipn. destruct w; reflexivity.
  - inversion Harr as [ | ? ? ? Ht Htnz Hrest ]; subst.
    inversion Hsym as [ | ? s ? syms' [Hs Hc] Hsym' ]; subst.
    destruct n as [ | n ]; [ cbn in Hn; lia | ].
    cbn [length] in *.
    cbn [resolve_thunks fst snd] in Hnz |- *.
    set (f := GetProcAddress host (trace w) module s) in *.
    inversion Hnz as [ | ? ? Hf Hnz' ]; subst.
    assert (Hl8 : len (le_split 8 f) = 8) by (unfold len; rewrite length_le_split; reflexivity).
    rewrite (thunk_loop_next host n imageSize module OFT IAT w t s Ht Htnz Hs Hf H0)
      by lia.
    fold f.
    set (w1 := {| trace := trace w ++ [EvGetProcAddress module s f];
                  region := splice (region w) IAT (le_split 8 f) |}).
    rewrite (IH syms' (OFT + 8) (IAT + 8) w1 n).
    + cbn [trace region w1]. f_equal. f_equal. f_equal.
      cbn [slots flat_map].
      rewrite <- (splice_splice_adjacent (region w) IAT (le_split 8 f)).
      * rewrite Hl8. reflexivity.
      * exact H0.
      * rewrite Hl8, len_slots, length_resolve_thunks.
        apply Forall2_length in Hsym'. lia.
    + cbn [region w1]. apply thunk_array_splice; try assumption; rewrite ?Hl8; lia.
    + cbn [region w1].
      eapply Forall2_impl; [ | exact Hsym' ].
      intros t' s' [Hs' Hc']. split.
      * apply symbol_at_splice; try assumption; try (rewrite Hl8; lia).
        rewrite Hl8. destruct s'; cbn [symbol_clear_of] in *; [ exact I | lia ].
      * destruct s'; cbn [symbol_clear_of] in *; [ exact I | lia ].
    + lia.
    + cbn [region w1]. rewrite len_splice by (try rewrite Hl8; lia). lia.
    + lia.
    + exact Hnz'.
    + lia.
Qed.

Lemma load64_slots (fs : list Z) :
  forall (m : list byte) (a : Z) (i : nat) (f : Z),
    0 <= a -> a + 8 * Z.of_nat (length fs) <= len m ->
    nth_error fs i = Some f ->
    load64 (splice m a (slots fs)) (a + 8 * Z.of_nat i) = Ret (wrap64 f).
Proof.
  induction fs as [ | f0 fs IH ]; intros m a i f H0 H1 Hi.
  - destruct i; discriminate.
  - cbn [length] in H1. cbn [slots flat_map]. fold (slots fs).
    assert (Hl8 : len (le_split 8 f0) = 8) by (unfold len; rewrite length_le_split; reflexivity).
    rewrite <- (splice_splice_adjacent m a (le_split 8 f0) (slots fs))
      by (rewrite ?Hl8, ?len_slots; lia).
    rewrite Hl8.
    destruct i as [ | i ].
    + injection Hi as <-. rewrite Z.mul_0_r, Z.add_0_r.
      unfold load64. rewrite load_splice_disjoint.
      * apply load64_splice_same; lia.
      * lia.
      * rewrite len_splice by (rewrite ?Hl8; lia). rewrite len_slots. lia.
      * lia.
    + cbn [nth_error] in Hi.
      replace (a + 8 * Z.of_nat (S i)) with (a + 8 + 8 * Z.of_nat i) by lia.
      apply IH; [ lia | | exact Hi ].
      rewrite len_splice by (rewrite ?Hl8; lia). lia.
Qed.

Lemma index_ok (size i : Z) (w : world) :
  0 <= i < size -> index size i w = Ret (i, w).
Proof.
  intros H. unfold index.
  replace ((0 <=? i) && (i <? size)) with true
    by (symmetry; rewrite andb_true_iff, Z.leb_le, Z.ltb_lt; lia).
  reflexivity.
Qed.

Lemma descriptor_loop_end (host : Host) (fuel n : nat) (m : Module_.t) (d : Z) (w : world) :
  load32 (region w) (d + off_imp_Characteristics) = Ret 0 ->
  ModuleLoader.descriptor_loop host fuel (S n) m d w = Ret ((true, m), w).
Proof.
  intros H. cbn [ModuleLoader.descriptor_loop]. cbv zeta. unfold mbind at 1.
  rewrite (read_ok 4 _ 0 w H). reflexivity.
Qed.

Lemma descriptor_loop_next (host : Host) (fuel n : nat) (m : Module_.t) (d : Z) (w : world)
      (c name oft ft : Z) (dll : list byte) (ts : list Z) (syms : list symbol) :
  let size := Module_._imageSize m in
  let chosen := if oft =? 0 then ft else oft in
  let h := LoadLibraryA host (trace w) dll in
  let t1 := trace w ++ [EvLoadLibraryA dll h] in
  let fs := fst (resolve_thunks host h t1 syms) in
  load32 (region w) (d + off_imp_Characteristics) = Ret c -> c <> 0 ->
  load32 (region w) (d + off_imp_Name) = Ret name -> 0 <= name < size ->
  cstring (region w) name = Ret dll ->
  h <> 0 ->
  load32 (region w) (d + off_imp_OriginalFirstThunk) = Ret oft -> 0 <= oft < size ->
  load32 (region w) (d + off_imp_FirstThunk) = Ret ft -> 0 <= ft < size ->
  thunk_array (region w) chosen ts ->
  Forall2 (fun t s => symbol_at (region w) size t = Ret s /\
                      symbol_clear_of ft (ft + 8 * Z.of_nat (length ts)) t s) ts syms ->
  ft + 8 * Z.of_nat (length ts) <= len (region w) ->
  ft <= chosen \/ chosen + 8 * (Z.of_nat (length ts) + 1) <= ft ->
  Forall (fun f => f <> 0) fs ->
  (length ts < fuel)%nat ->
  ModuleLoader.descriptor_loop host fuel (S n) m d w
  = ModuleLoader.descriptor_loop host fuel n (Module_.AddImportModule m h)
      (d + sizeof_IMAGE_IMPORT_DESCRIPTOR)
      {| trace := snd (resolve_thunks host h t1 syms);
         region := splice (region w) ft (slots fs) |}.
Proof.
  intros size chosen h t1 fs Hc Hcnz Hname Hnr Hdll Hh Hoft Hor Hft Hfr Harr Hsym Hfit Hd Hnz Hfuel.
  cbn [ModuleLoader.descriptor_loop]. cbv zeta. fold size.
  unfold mbind at 1. rewrite (read_ok 4 _ c w Hc).
  replace (c =? 0) with false by (symmetry; apply Z.eqb_neq; exact Hcnz).
  unfold mbind at 1. rewrite (read_ok 4 _ name w Hname).
  unfold mbind at 1. rewrite (index_ok size name w Hnr).
  unfold mbind at 1. unfold get_region at 1.
  unfold mbind at 1. unfold lift at 1. rewrite Hdll.
  unfold mbind at 1. unfold callLoadLibraryA, mbind, get_trace, emit, mret. fold h. fold t1.
  replace (h =? 0) with false by (symmetry; apply Z.eqb_neq; exact Hh).
  set (w1 := {| trace := t1; region := region w |}).
  change (region w) with (region w1) in Hoft, Hft, Harr, Hsym, Hfit.
  rewrite (read_ok 4 _ oft w1 Hoft).
  rewrite (index_ok size oft w1 Hor).
  rewrite (read_ok 4 _ ft w1 Hft).
  assert (Hchosen : (if oft =? 0 then index size ft else fun w => Ret (oft, w)) w1
                    = Ret (chosen, w1)).
  { unfold chosen. destruct (oft =? 0); [ apply index_ok; exact Hfr | reflexivity ]. }
  rewrite Hchosen.
  rewrite (index_ok size ft w1 Hfr).
  rewrite (thunk_loop_resolves host size h ts syms chosen ft w1 fuel Harr Hsym);
    try assumption; try lia.
  reflexivity.
Qed.

(** One step of the walk over the import descriptors. The walk ends
    at a descriptor whose [Characteristics] is 0, whatever its [Name].
    For a descriptor whose [OriginalFirstThunk] is not 0 and whose
    library loads, the thunks are read at [OriginalFirstThunk] up to the
    first zero word; when every symbol resolves, the address of the
    i-th thunk is stored in the i-th slot at [FirstThunk], nothing else
    in the region changes, the handle is recorded and the walk goes on
    with the next descriptor. *)
Lemma import_walk (host : Host) (fuel n : nat) (m : Module_.t) (d : Z) (w : world) :
  (forall name,
      load32 (region w) (d + off_imp_Characteristics) = Ret 0 ->
      load32 (region w) (d + off_imp_Name) = Ret name ->
      ModuleLoader.descriptor_loop host fuel (S n) m d w = Ret ((true, m), w)) /\
  (forall name oft ft dll ts syms,
      let size := Module_._imageSize m in
      let h := LoadLibraryA host (trace w) dll in
      let t1 := trace w ++ [EvLoadLibraryA dll h] in
      let fs := fst (resolve_thunks host h t1 syms) in
      let w' := {| trace := snd (resolve_thunks host h t1 syms);
                   region := splice (region w) ft (slots fs) |} in
      load32 (region w) (d + off_imp_OriginalFirstThunk) = Ret oft -> oft <> 0 ->
      load32 (region w) (d + off_imp_Name) = Ret name -> 0 <= name < size ->
      cstring (region w) name = Ret dll ->
      h <> 0 ->
      0 <= oft < size ->
      load32 (region w) (d + off_imp_FirstThunk) = Ret ft -> 0 <= ft < size ->
      thunk_array (region w) oft ts ->
      Forall2 (fun t s => symbol_at (region w) size t = Ret s /\
                          symbol_clear_of ft (ft + 8 * Z.of_nat (length ts)) t s) ts syms ->
      ft + 8 * Z.of_nat (length ts) <= len (region w) ->
      ft <= oft \/ oft + 8 * (Z.of_nat (length ts) + 1) <= ft ->
      Forall (fun f => f <> 0) fs ->
      (length ts < fuel)%nat ->
      ModuleLoader.descriptor_loop host fuel (S n) m d w
      = ModuleLoader.descriptor_loop host fuel n (Module_.AddImportModule m h)
          (d + sizeof_IMAGE_IMPORT_DESCRIPTOR) w' /\
      length fs = length ts /\
      (forall i f, nth_error fs i = Some f ->
                   load64 (region w') (ft + 8 * Z.of_nat i) = Ret (wrap64 f)) /\
      (forall j, j < ft \/ ft + 8 * Z.of_nat (length ts) <= j ->
                 byte_at (region w') j = byte_at (region w) j)).
Proof.
  split.
  - intros name H _. apply descriptor_loop_end. exact H.
  - intros name oft ft dll ts syms size h t1 fs w'
           Hoft Hoz Hname Hnr Hdll Hh Hor Hft Hfr Harr Hsym Hfit Hd Hnz Hfuel.
    assert (Hlen : length fs = length ts).
    { unfold fs. rewrite length_resolve_thunks. symmetry. exact (Forall2_length Hsym). }
    split; [ | split; [ exact Hlen | split ] ].
    + pose proof (descriptor_loop_next host fuel n m d w oft name oft ft dll ts syms) as Hstep.
      cbv zeta in Hstep.
      replace (oft =? 0) with false in Hstep by (symmetry; apply Z.eqb_neq; exact Hoz).
      apply Hstep; assumption.
    + intros i f Hi. cbn [region w'].
      apply load64_slots; [ lia | rewrite Hlen; exact Hfit | exact Hi ].
    + intros j Hj. cbn [region w'].
      apply byte_at_splice_outside; rewrite ?len_slots, ?Hlen; lia.
Qed.

Lemma import_walk_witness :
  let m := Module_.mk Sample.mapped_base 0x80 (Some 0) (Some 0) [] [] Success true in
  let w := {| trace := []; region := Sample.idata 0 |} in
  ModuleLoader.descriptor_loop Sample.friendly 8 2 m 0 w
  = Ret ((true, Module_.AddImportModule m Sample.a_dll_handle),
         {| trace := [EvLoadLibraryA (String.list_byte_of_string "a.dll") Sample.a_dll_handle;
                      EvGetProcAddress Sample.a_dll_handle
                                       (ByName (String.list_byte_of_string "f"))
                                       Sample.f_address;
                      EvGetProcAddress Sample.a_dll_handle (ByOrdinal 7) Sample.f_address];
            region := splice (Sample.idata 0) 0x40
                             (slots [Sample.f_address; Sample.f_address]) |}).
Proof.
  intros m w.
  destruct (import_walk Sample.friendly 8 1 m 0 w) as [_ Hnext].
  destruct (Hnext 0x60 0x28 0x40 (String.list_byte_of_string "a.dll")
                  [0x70; 0x8000000000000007]
                  [ByName (String.list_byte_of_string "f"); ByOrdinal 7])
    as (Hstep & _ & _ & _).
  - vm_compute; reflexivity.
  - discriminate.
  - vm_compute; reflexivity.
  - vm_compute; split; [ discriminate | reflexivity ].
  - vm_compute; reflexivity.
  - vm_compute; discriminate.
  - vm_compute; split; [ discriminate | reflexivity ].
  - vm_compute; reflexivity.
  - vm_compute; split; [ discriminate | reflexivity ].
  - apply thunks_next; [ vm_compute; reflexivity | discriminate | ].
    apply thunks_next; [ vm_compute; reflexivity | discriminate | ].
    apply thunks_end. vm_compute; reflexivity.
  - constructor; [ split; [ vm_compute; reflexivity | vm_compute; right; discriminate ] | ].
    constructor; [ split; [ vm_compute; reflexivity | exact I ] | ].
    constructor.
  - vm_compute; discriminate.
  - right. vm_compute; discriminate.
  - repeat constructor; vm_compute; discriminate.
  - cbn; lia.
  - rewrite Hstep.
    destruct (import_walk Sample.friendly 8 0 (Module_.AddImportModule m Sample.a_dll_handle)
                          (0 + sizeof_IMAGE_IMPORT_DESCRIPTOR)
                          {| trace := snd (resolve_thunks Sample.friendly Sample.a_dll_handle
                                             ([] ++ [EvLoadLibraryA (String.list_byte_of_string "a.dll")
                                                                    Sample.a_dll_handle])
                                             [ByName (String.list_byte_of_string "f"); ByOrdinal 7]);
                             region := splice (region w) 0x40
                                         (slots (fst (resolve_thunks Sample.friendly
                                            Sample.a_dll_handle
                                            ([] ++ [EvLoadLibraryA (String.list_byte_of_string "a.dll")
                                                                   Sample.a_dll_handle])
                                            [ByName (String.list_byte_of_string "f"); ByOrdinal 7]))) |})
      as [Hend _].
    apply (Hend 0); vm_compute; reflexivity.
Defined.

(** In the [IMAGE_IMPORT_DESCRIPTOR] of <winnt.h> the loop condition and
    the fallback test read the same four bytes. *)
Lemma OriginalFirstThunk_is_Characteristics (m : list byte) (d : Z) :
  load32 m (d + off_imp_OriginalFirstThunk) = load32 m (d + off_imp_Characteristics).
Proof. reflexivity. Qed.

(** C6 fails on the code. In the [IMAGE_IMPORT_DESCRIPTOR] of <winnt.h>
    the fields [Characteristics] and [OriginalFirstThunk] are one union,
    so the loop test [while (importDirectory->Characteristics)] reads
    the bytes of [OriginalFirstThunk]: a descriptor whose
    [OriginalFirstThunk] is 0 is taken for the terminator, and the
    fallback to [FirstThunk] inside the loop is never reached with a
    zero [OriginalFirstThunk]. For every host, module and region,
    [BuildIAT] on a present import directory whose first descriptor has
    [OriginalFirstThunk] 0 returns true, whatever the [Name] and
    [FirstThunk] of that descriptor, without a host call and without a
    store. [Sample.importer_without_OFT] imports [f] and ordinal 7 from
    [a.dll] through [FirstThunk] only: on a host where every call
    succeeds its load returns a module, no library was loaded and no
    symbol resolved, no library is recorded, and the two slots of its
    import address table still hold the thunk words of the file.
    [Sample.importer], the same image with [OriginalFirstThunk] set, has
    the library loaded and recorded and both slots filled. *)
Theorem descriptor_without_OriginalFirstThunk_ends_walk :
  (forall host fuel m w nt d dirsize,
      Module_._ntHeader m = Some nt ->
      load32 (region w) (nt + (off_DataDirectory + 8 * IMAGE_DIRECTORY_ENTRY_IMPORT)) = Ret d ->
      load32 (region w) (nt + (off_DataDirectory + 8 * IMAGE_DIRECTORY_ENTRY_IMPORT + 4))
      = Ret dirsize ->
      dirsize <> 0 ->
      load32 (region w) (d + off_imp_OriginalFirstThunk) = Ret 0 ->
      ModuleLoader.BuildIAT host (S fuel) m w = Ret ((true, m), w)) /\
  (let file := Sample.importer_without_OFT in
   let r := ModuleLoader.Load Sample.friendly 16 (accepted file 64 1 240) start in
   PE.Parse file = Ret (accepted file 64 1 240) /\
   PE.ImportDirectory (accepted file 64 1 240) = Ret (Some 0x200) /\
   load32 file (0x200 + off_imp_OriginalFirstThunk) = Ret 0 /\
   load32 file (0x200 + off_imp_Name) = Ret 0x1060 /\
   load32 file (0x200 + off_imp_FirstThunk) = Ret 0x1040 /\
   load64 file 0x240 = Ret 0x1070 /\
   load64 file 0x248 = Ret 0x8000000000000007 /\
   (exists m, value_of r = Some (Some m) /\ Module_._importModules m = []) /\
   trace_of r
   = Some [EvVirtualAlloc 0x2000 Sample.mapped_base;
           EvVirtualProtect (Sample.mapped_base + 0x1000) 0x80 PAGE_READWRITE true;
           EvVirtualFree Sample.mapped_base 0x2000] /\
   option_map (count is_LoadLibraryA) (trace_of r) = Some 0%nat /\
   final64 r 0x1040 = Some 0x1070 /\
   final64 r 0x1048 = Some 0x8000000000000007) /\
  (let file := Sample.importer in
   let r := ModuleLoader.Load Sample.friendly 16 (accepted file 64 1 240) start in
   load32 file (0x200 + off_imp_OriginalFirstThunk) = Ret 0x1028 /\
   load32 file (0x200 + off_imp_Name) = Ret 0x1060 /\
   load32 file (0x200 + off_imp_FirstThunk) = Ret 0x1040 /\
   load64 file 0x240 = Ret 0x1070 /\
   load64 file 0x248 = Ret 0x8000000000000007 /\
   (exists m, value_of r = Some (Some m) /\
              Module_._importModules m = [Sample.a_dll_handle]) /\
   trace_of r
   = Some [EvVirtualAlloc 0x2000 Sample.mapped_base;
           EvLoadLibraryA (String.list_byte_of_string "a.dll") Sample.a_dll_handle;
           EvGetProcAddress Sample.a_dll_handle (ByName (String.list_byte_of_string "f"))
                            Sample.f_address;
           EvGetProcAddress Sample.a_dll_handle (ByOrdinal 7) Sample.f_address;
           EvVirtualProtect (Sample.mapped_base + 0x1000) 0x80 PAGE_READWRITE true;
           EvFreeLibrary Sample.a_dll_handle;
           EvVirtualFree Sample.mapped_base 0x2000] /\
   final64 r 0x1040 = Some Sample.f_address /\
   final64 r 0x1048 = Some Sample.f_address).
Proof.
  split; [ | split ].
  - intros host fuel m w nt d dirsize Hnt Hdir Hsz Hpresent Hoft.
    unfold ModuleLoader.BuildIAT, Module_.ImportDirectory,
      Module_.FetchDataDirectory, Module_.nt_field. rewrite Hnt.
    unfold mbind at 1. unfold mbind at 1. rewrite (read_ok 4 _ d w Hdir).
    unfold mbind at 1. rewrite (read_ok 4 _ dirsize w Hsz).
    replace (dirsize =? 0) with false by (symmetry; apply Z.eqb_neq; exact Hpresent).
    unfold mret. apply descriptor_loop_end. exact Hoft.
  - vm_compute. repeat split; try reflexivity. eexists. split; reflexivity.
  - vm_compute. repeat split; try reflexivity. eexists. split; reflexivity.
Qed.

Lemma descriptor_without_OriginalFirstThunk_ends_walk_witness :
  let m := Module_.mk Sample.mapped_base 0x2000 (Some 0) (Some 64) [328] [] Success true in
  let w := {| trace := []; region := Sample.mapped_importer_without_OFT |} in
  ModuleLoader.BuildIAT Sample.friendly 16 m w = Ret ((true, m), w).
Proof.
  intros m w.
  apply (proj1 descriptor_without_OriginalFirstThunk_ends_walk Sample.friendly 15%nat m w
               64 0x1000 40).
  - reflexivity.
  - vm_compute; reflexivity.
  - vm_compute; reflexivity.
  - discriminate.
  - vm_compute; reflexivity.
Defined.

(** ** Releasing what a load acquired *)

(** C3 fails on the code. [Sample.importer] imports [f] from [a.dll];
    on a host where the library loads and [f] does not resolve,
    [BuildIAT] returns false before [AddImportModule] is reached, so the
    destructor that runs on [return {}] has no handle to release: the
    load is empty, the library was loaded once and [FreeLibrary] is never
    called. *)
Lemma failed_resolution_leaks_library :
  let r := run Sample.unresolving 16 (Some Sample.importer) start in
  trace_of r
  = Some [EvVirtualAlloc 0x2000 Sample.mapped_base;
          EvLoadLibraryA (String.list_byte_of_string "a.dll") Sample.a_dll_handle;
          EvGetProcAddress Sample.a_dll_handle (ByName (String.list_byte_of_string "f")) 0;
          EvVirtualFree Sample.mapped_base 0x2000] /\
  value_of (ModuleLoader.Load Sample.unresolving 16
                              (accepted Sample.importer 64 1 240) start) = Some None /\
  option_map (count (is_LoadLibraryA_of Sample.a_dll_handle)) (trace_of r) = Some 1%nat /\
  option_map (count (is_FreeLibrary Sample.a_dll_handle)) (trace_of r) = Some 0%nat.
Proof.
  vm_compute. repeat split; reflexivity.
Qed.

(** C4 fails on the code. On a host where everything succeeds, the
    load of [Sample.importer] returns a module; [return mod;] copies the
    local [Module] into the result and destroys the local, and the
    destruction of the returned copy runs the same destructor on the same
    members: [FreeLibrary] is called twice on the one handle and
    [VirtualFree] twice on the one region, the first time before the
    caller has received the module. *)
Lemma successful_load_releases_twice :
  let r := run Sample.friendly 16 (Some Sample.importer) start in
  (exists m, value_of (ModuleLoader.Load Sample.friendly 16
                                         (accepted Sample.importer 64 1 240) start)
             = Some (Some m) /\
             Module_._importModules m = [Sample.a_dll_handle]) /\
  trace_of r
  = Some [EvVirtualAlloc 0x2000 Sample.mapped_base;
          EvLoadLibraryA (String.list_byte_of_string "a.dll") Sample.a_dll_handle;
          EvGetProcAddress Sample.a_dll_handle (ByName (String.list_byte_of_string "f"))
                           Sample.f_address;
          EvGetProcAddress Sample.a_dll_handle (ByOrdinal 7) Sample.f_address;
          EvVirtualProtect (Sample.mapped_base + 0x1000) 0x80 PAGE_READWRITE true;
          EvFreeLibrary Sample.a_dll_handle;
          EvVirtualFree Sample.mapped_base 0x2000;
          EvFreeLibrary Sample.a_dll_handle;
          EvVirtualFree Sample.mapped_base 0x2000] /\
  option_map (count (is_LoadLibraryA_of Sample.a_dll_handle)) (trace_of r) = Some 1%nat /\
  option_map (count (is_FreeLibrary Sample.a_dll_handle)) (trace_of r) = Some 2%nat /\
  option_map (count (is_VirtualFree Sample.mapped_base)) (trace_of r) = Some 2%nat.
Proof.
  vm_compute. split.
  - eexists. split; reflexivity.
  - repeat split; reflexivity.
Qed.

(** ** Phase 6: base relocations *)

(** C5 fails on the code. The inner loop of [RelocateBase] stops at a
    zero entry and not at [SizeOfBlock]. In [Sample.relocated] the block
    of page 0x1000 has two entries and no padding, so the loop reads on
    into the header of the next block: the low word 0xA000 of its
    [VirtualAddress] is taken for a DIR64 entry of offset 0 and the
    pointer at RVA 0x1000, already relocated, is relocated again. The
    pointers at 0x1008 and 0xA010 receive the increment once. When the
    region is at the preferred base nothing is changed. *)
Lemma relocation_overruns_block :
  let pe := accepted Sample.relocated 64 3 240 in
  let r := ModuleLoader.Load Sample.friendly 64 pe start in
  let r0 := ModuleLoader.Load Sample.at_preferred 64 pe start in
  let delta := Sample.mapped_base - Sample.preferred_base in
  PE.Parse Sample.relocated = Ret pe /\
  PE.Rva2Raw pe 0x1000 = Ret 0x200 /\
  load64 (PE.Data pe) 0x200 = Ret (Sample.preferred_base + 0x1234) /\
  (exists m, value_of r = Some (Some m) /\ Module_._base m = Sample.mapped_base) /\
  final64 r 0x1000 = Some (Sample.preferred_base + 0x1234 + 2 * delta) /\
  final64 r 0x1000 <> Some (Sample.preferred_base + 0x1234 + delta) /\
  final64 r 0x1008 = Some (Sample.preferred_base + 0x5678 + delta) /\
  final64 r 0xA010 = Some (Sample.preferred_base + 0x9abc + delta) /\
  final64 r0 0x1000 = Some (Sample.preferred_base + 0x1234) /\
  final64 r0 0x1008 = Some (Sample.preferred_base + 0x5678) /\
  final64 r0 0xA010 = Some (Sample.preferred_base + 0x9abc).
Proof.
  vm_compute.
  split; [ reflexivity | ].
  split; [ reflexivity | ].
  split; [ reflexivity | ].
  split; [ eexists; split; reflexivity | ].
  split; [ reflexivity | ].
  split; [ discriminate | ].
  repeat split; reflexivity.
Qed.

(** *** The release on the success path, for every image and host *)

Lemma returns_bind {A B : Type} (Q : B -> Prop) (c : M A) (k : A -> M B) :
  (forall a, returns Q (k a)) -> returns Q (mbind c k).
Proof.
  intros Hk w b w'' H. apply mbind_Ret in H as (a & w' & _ & H). exact (Hk a w' b w'' H).
Qed.

Lemma returns_mret {A : Type} (Q : A -> Prop) (a : A) : Q a -> returns Q (mret a).
Proof. intros H w a' w' [= <- <-]. exact H. Qed.

Lemma returns_lift_OutOfFuel {A : Type} (Q : A -> Prop) : returns Q (lift OutOfFuel).
Proof. intros w a w' H. discriminate. Qed.

Lemma returns_if {A : Type} (Q : A -> Prop) (b : bool) (c1 c2 : M A) :
  returns Q c1 -> returns Q c2 -> returns Q (if b then c1 else c2).
Proof. destruct b; auto. Qed.

Lemma make_base (base imageSize : Z) :
  returns (fun m => Module_._base m = base /\ Module_._imageSize m = imageSize)
          (Module_.make base imageSize).
Proof.
  unfold Module_.make. cbv zeta.
  repeat (first [ apply returns_bind; intro
                | apply returns_if
                | apply returns_mret; split; reflexivity ]).
Qed.

Lemma descriptor_loop_base (host : Host) (fuel n : nat) :
  forall m d,
    returns (fun r => Module_._base (snd r) = Module_._base m /\
                      Module_._imageSize (snd r) = Module_._imageSize m)
            (ModuleLoader.descriptor_loop host fuel n m d).
Proof.
  induction n as [ | n IH ]; intros m d; cbn [ModuleLoader.descriptor_loop]; cbv zeta.
  - apply returns_lift_OutOfFuel.
  - repeat (first [ apply returns_bind; intro
                  | apply returns_if
                  | apply returns_mret; split; reflexivity ]).
    exact (IH (Module_.AddImportModule m _) _).
Qed.

Lemma BuildIAT_base (host : Host) (fuel : nat) (m : Module_.t) :
  returns (fun r => Module_._base (snd r) = Module_._base m /\
                    Module_._imageSize (snd r) = Module_._imageSize m)
          (ModuleLoader.BuildIAT host fuel m).
Proof.
  unfold ModuleLoader.BuildIAT. apply returns_bind. intros [d | ].
  - apply descriptor_loop_base.
  - apply returns_mret. split; reflexivity.
Qed.

Lemma return_mod_released (m : Module_.t) :
  Module_._base m <> 0 -> released_on_return (ModuleLoader.return_mod m).
Proof.
  intros Hb w m' w' H. unfold ModuleLoader.return_mod, Module_.destroy in H. cbv zeta in H.
  apply mbind_Ret in H as (u & w2 & H & Hret). injection Hret as <- <-.
  apply mbind_Ret in H as (u' & w1 & _ & H).
  replace (Module_._base m =? 0) with false in H by (symmetry; apply Z.eqb_neq; exact Hb).
  cbn [negb] in H. injection H as _ <-. exists (trace w1). reflexivity.
Qed.

Lemma released_bind {A : Type} (c : M A) (k : A -> M (option Module_.t)) :
  (forall a, released_on_return (k a)) -> released_on_return (mbind c k).
Proof.
  intros Hk w m w'' H. apply mbind_Ret in H as (a & w' & _ & H). exact (Hk a w' m w'' H).
Qed.

Lemma released_none : released_on_return (mret None).
Proof. intros w m w' H. discriminate. Qed.

Lemma released_fail (m : Module_.t) : released_on_return (ModuleLoader.fail_after_mod m).
Proof. intros w m' w' H. apply fail_after_mod_empty in H. discriminate. Qed.

(** Whenever [Load] returns a module, the last host call it made was the
    [VirtualFree] of that module's region. *)
Lemma Load_released_on_return (host : Host) (fuel : nat) (pe : PE.t) :
  released_on_return (ModuleLoader.Load host fuel pe).
Proof.
  unfold ModuleLoader.Load.
  destruct (negb (PE.Ok pe)); [ apply released_none | ].
  apply released_bind; intros imageSize.
  apply released_bind; intros memory.
  destruct (Z.eqb_spec memory 0) as [ | Hmem ]; [ apply released_none | ].
  apply released_bind; intros buffer.
  apply released_bind; intros bw.
  apply released_bind; intros _.
  intros w m w'' H. apply mbind_Ret in H as (m0 & w1 & Hmake & H).
  apply make_base in Hmake as [Hbase _].
  destruct (negb (Module_.Ok m0)); [ exact (released_fail _ _ _ _ H) | ].
  apply mbind_Ret in H as (built & w2 & Hbuilt & H). cbv zeta in H.
  apply BuildIAT_base in Hbuilt as [Hbase' _].
  destruct (negb (fst built)); [ exact (released_fail _ _ _ _ H) | ].
  revert w2 m w'' H.
  change (released_on_return
            (mbind (Module_.nt_field (snd built) 8 off_ImageBase) (fun mapped_base =>
             mbind (lift (PE.ImageBase pe)) (fun preferred_base =>
             mbind (if negb (wrap64 (mapped_base - preferred_base) =? 0)
                    then ModuleLoader.RelocateBase fuel (snd built)
                                                   (wrap64 (mapped_base - preferred_base))
                    else mret tt) (fun _ =>
             mbind (ModuleLoader.FinalizeSection host (snd built)) (fun finalized =>
             if negb finalized then ModuleLoader.fail_after_mod (snd built)
             else mbind (ModuleLoader.RunTLSCallbacks fuel (snd built))
                        (fun _ => ModuleLoader.return_mod (snd built)))))))).
  apply released_bind; intros mapped.
  apply released_bind; intros preferred.
  apply released_bind; intros _.
  apply released_bind; intros finalized.
  destruct (negb finalized); [ apply released_fail | ].
  apply released_bind; intros _.
  apply return_mod_released. congruence.
Qed.

(** * Further properties of the sources *)

(** ** BinaryWriter: invariants and composition *)

Lemma Write_is_write (bw : BinaryWriter.t) (b : list byte) :
  BinaryWriter.Write bw b = BinaryWriter.write bw b.
Proof.
  unfold BinaryWriter.Write, BinaryWriter.write.
  destruct (BinaryWriter.CanWrite bw (len b)); reflexivity.
Qed.

(** X1. A cursor that lies inside its buffer stays inside it under every
    operation of the writer, and no operation changes the declared size
    or the length of the buffer: [operator<<], [Write] (which is the
    same function as [operator<<]), [Seek] and [Skip]. *)
Theorem cursor_stays_in_buffer (bw : BinaryWriter.t) (b : list byte) (offset : Z)
  (Hwf : BinaryWriter.wf bw)
  (Hb : BinaryWriter._size bw + len b < 2 ^ 64)
  (Ho : 0 <= offset) :
  BinaryWriter.wf (BinaryWriter.write bw b) /\
  BinaryWriter.Write bw b = BinaryWriter.write bw b /\
  BinaryWriter.wf (BinaryWriter.Seek bw offset) /\
  BinaryWriter.wf (BinaryWriter.Skip bw offset) /\
  BinaryWriter._size (BinaryWriter.write bw b) = BinaryWriter._size bw /\
  BinaryWriter._size (BinaryWriter.Seek bw offset) = BinaryWriter._size bw /\
  BinaryWriter._size (BinaryWriter.Skip bw offset) = BinaryWriter._size bw /\
  BinaryWriter._buffer (BinaryWriter.Seek bw offset) = BinaryWriter._buffer bw /\
  BinaryWriter._buffer (BinaryWriter.Skip bw offset) = BinaryWriter._buffer bw.
Proof.
  split; [ apply write_wf; assumption | ].
  split; [ apply Write_is_write | ].
  split; [ apply Seek_wf; assumption | ].
  split; [ apply Skip_wf; assumption | ].
  unfold BinaryWriter.write, BinaryWriter.Seek, BinaryWriter.Skip.
  destruct (BinaryWriter.CanWrite bw (len b)), (offset <? BinaryWriter._size bw),
    (BinaryWriter.CanWrite bw offset); repeat split; reflexivity.
Qed.

Lemma cursor_stays_in_buffer_witness :
  let bw := BinaryWriter.Seek (BinaryWriter.make (zeros 4) 4) 3 in
  BinaryWriter.wf (BinaryWriter.write bw [Byte.x41; Byte.x42]) /\
  BinaryWriter.wf (BinaryWriter.Skip bw 1).
Proof.
  intros bw.
  assert (Hwf : BinaryWriter.wf bw) by (vm_compute; intuition congruence).
  destruct (cursor_stays_in_buffer bw [Byte.x41; Byte.x42] 1 Hwf) as (H1 & _ & _ & H2 & _).
  - vm_compute; reflexivity.
  - lia.
  - split; [ exact H1 | exact H2 ].
Defined.

(** X2. Two consecutive writes that both fit are one write of the
    concatenation. When the first fits and the two together do not, the
    second is dropped and the first stays, whereas the single write of
    the concatenation writes nothing. *)
Theorem consecutive_writes (bw : BinaryWriter.t) (a b : list byte)
  (Hwf : BinaryWriter.wf bw)
  (Hb : BinaryWriter._size bw + len a + len b < 2 ^ 64)
  (Ha : BinaryWriter._pos bw + len a <= BinaryWriter._size bw) :
  (BinaryWriter._pos bw + len a + len b <= BinaryWriter._size bw ->
   BinaryWriter.write (BinaryWriter.write bw a) b = BinaryWriter.write bw (a ++ b)) /\
  (BinaryWriter._size bw < BinaryWriter._pos bw + len a + len b ->
   BinaryWriter.write (BinaryWriter.write bw a) b = BinaryWriter.write bw a /\
   BinaryWriter.write bw (a ++ b) = bw).
Proof.
  pose proof (len_nonneg a) as Hna. pose proof (len_nonneg b) as Hnb.
  pose proof Hwf as (Hl & Hp & Hs).
  assert (Hwa : BinaryWriter.write bw a = BinaryWriter.ProceedBuffer bw a).
  { unfold BinaryWriter.write. rewrite CanWrite_spec by (try assumption; lia).
    replace (BinaryWriter._pos bw + len a <=? BinaryWriter._size bw) with true
      by (symmetry; apply Z.leb_le; lia).
    reflexivity. }
  assert (Hwfa : BinaryWriter.wf (BinaryWriter.write bw a)) by (apply write_wf; [ assumption | lia ]).
  assert (Hpa : BinaryWriter._pos (BinaryWriter.write bw a) = BinaryWriter._pos bw + len a).
  { rewrite Hwa. cbn. apply wrap64_small. lia. }
  assert (Hsa : BinaryWriter._size (BinaryWriter.write bw a) = BinaryWriter._size bw).
  { rewrite Hwa. reflexivity. }
  split.
  - intros Hfit.
    unfold BinaryWriter.write at 1. rewrite CanWrite_spec by (try assumption; lia).
    rewrite Hpa, Hsa.
    replace (BinaryWriter._pos bw + len a + len b <=? BinaryWriter._size bw) with true
      by (symmetry; apply Z.leb_le; lia).
    unfold BinaryWriter.write at 2. rewrite CanWrite_spec by (rewrite ?len_app; try assumption; lia).
    rewrite len_app.
    replace (BinaryWriter._pos bw + (len a + len b) <=? BinaryWriter._size bw) with true
      by (symmetry; apply Z.leb_le; lia).
    rewrite Hwa. unfold BinaryWriter.ProceedBuffer.
    cbn [BinaryWriter._buffer BinaryWriter._pos BinaryWriter._size].
    rewrite (wrap64_small (BinaryWriter._pos bw + len a)) by lia.
    rewrite splice_splice_adjacent by lia.
    rewrite len_app. f_equal. f_equal. lia.
  - intros Hover. split.
    + unfold BinaryWriter.write at 1. rewrite CanWrite_spec by (try assumption; lia).
      rewrite Hpa, Hsa.
      replace (BinaryWriter._pos bw + len a + len b <=? BinaryWriter._size bw) with false
        by (symmetry; apply Z.leb_gt; lia).
      reflexivity.
    + unfold BinaryWriter.write. rewrite CanWrite_spec by (rewrite ?len_app; try assumption; lia).
      rewrite len_app.
      replace (BinaryWriter._pos bw + (len a + len b) <=? BinaryWriter._size bw) with false
        by (symmetry; apply Z.leb_gt; lia).
      reflexivity.
Qed.

Lemma consecutive_writes_witness :
  let bw := BinaryWriter.make (zeros 4) 4 in
  BinaryWriter.write (BinaryWriter.write bw [Byte.x41]) [Byte.x42; Byte.x43]
  = BinaryWriter.write bw [Byte.x41; Byte.x42; Byte.x43].
Proof.
  intros bw.
  assert (Hwf : BinaryWriter.wf bw) by (vm_compute; intuition congruence).
  apply (proj1 (consecutive_writes bw [Byte.x41] [Byte.x42; Byte.x43] Hwf
                  ltac:(vm_compute; reflexivity) ltac:(vm_compute; discriminate))).
  vm_compute; discriminate.
Defined.

(** X3. [Skip] tests its bound after the addition has wrapped around:
    with the cursor at [pos] and [1 <= k <= pos], skipping
    [2^64 - k] bytes moves the cursor back by [k]. *)
Theorem Skip_wraps_backwards (bw : BinaryWriter.t) (k : Z)
  (Hwf : BinaryWriter.wf bw)
  (Hk : 1 <= k <= BinaryWriter._pos bw) :
  BinaryWriter.Skip bw (2 ^ 64 - k)
  = BinaryWriter.mk (BinaryWriter._buffer bw) (BinaryWriter._size bw)
                    (BinaryWriter._pos bw - k).
Proof.
  destruct Hwf as (Hl & Hp & Hs).
  unfold BinaryWriter.Skip, BinaryWriter.CanWrite.
  assert (Hw : wrap64 (BinaryWriter._pos bw + (2 ^ 64 - k)) = BinaryWriter._pos bw - k).
  { unfold wrap64.
    replace (BinaryWriter._pos bw + (2 ^ 64 - k))
      with (BinaryWriter._pos bw - k + 1 * 2 ^ 64) by lia.
    rewrite Z.mod_add by lia. apply Z.mod_small. lia. }
  rewrite Hw.
  replace (BinaryWriter._pos bw - k <=? BinaryWriter._size bw) with true
    by (symmetry; apply Z.leb_le; lia).
  reflexivity.
Qed.

Lemma Skip_wraps_backwards_witness :
  BinaryWriter.Skip (BinaryWriter.Seek (BinaryWriter.make (zeros 4) 4) 3) (2 ^ 64 - 2)
  = BinaryWriter.mk (zeros 4) 4 1.
Proof.
  apply (Skip_wraps_backwards (BinaryWriter.Seek (BinaryWriter.make (zeros 4) 4) 3) 2).
  - vm_compute; intuition congruence.
  - vm_compute; split; discriminate.
Defined.

(** ** Phase 3: the section copy *)

Lemma Seek_in_range (bw : BinaryWriter.t) (offset : Z) :
  offset < BinaryWriter._size bw ->
  BinaryWriter.Seek bw offset
  = BinaryWriter.mk (BinaryWriter._buffer bw) (BinaryWriter._size bw) offset.
Proof.
  intros H. unfold BinaryWriter.Seek.
  replace (offset <? BinaryWriter._size bw) with true by (symmetry; apply Z.ltb_lt; exact H).
  reflexivity.
Qed.

Lemma Seek_out_of_range (bw : BinaryWriter.t) (offset : Z) :
  BinaryWriter._size bw <= offset -> BinaryWriter.Seek bw offset = bw.
Proof.
  intros H. unfold BinaryWriter.Seek.
  replace (offset <? BinaryWriter._size bw) with false by (symmetry; apply Z.ltb_ge; exact H).
  reflexivity.
Qed.

Lemma write_fits (bw : BinaryWriter.t) (b : list byte) :
  0 <= BinaryWriter._pos bw ->
  BinaryWriter._pos bw + len b <= BinaryWriter._size bw ->
  BinaryWriter._size bw < 2 ^ 64 ->
  BinaryWriter.write bw b
  = BinaryWriter.mk (splice (BinaryWriter._buffer bw) (BinaryWriter._pos bw) b)
                    (BinaryWriter._size bw) (BinaryWriter._pos bw + len b).
Proof.
  intros H0 H1 H2. pose proof (len_nonneg b).
  unfold BinaryWriter.write, BinaryWriter.CanWrite, BinaryWriter.ProceedBuffer.
  rewrite wrap64_small by lia.
  replace (BinaryWriter._pos bw + len b <=? BinaryWriter._size bw) with true
    by (symmetry; apply Z.leb_le; exact H1).
  reflexivity.
Qed.

Lemma write_dropped (bw : BinaryWriter.t) (b : list byte) :
  0 <= BinaryWriter._pos bw ->
  BinaryWriter._size bw < BinaryWriter._pos bw + len b ->
  BinaryWriter._pos bw + len b < 2 ^ 64 ->
  BinaryWriter.write bw b = bw.
Proof.
  intros H0 H1 H2. pose proof (len_nonneg b).
  unfold BinaryWriter.write, BinaryWriter.CanWrite.
  rewrite wrap64_small by lia.
  replace (BinaryWriter._pos bw + len b <=? BinaryWriter._size bw) with false
    by (symmetry; apply Z.leb_gt; exact H1).
  reflexivity.
Qed.

(** X4. [LoadSection] on a cursor inside its buffer, for a section whose
    [VirtualAddress] is [va]. When [va] lies in the region and the data
    fit after it, the data are copied at [va] and nothing else changes.
    When [va] lies in the region and the data do not fit, the region is
    left as it was (only the cursor moves to [va]). When [va] does not
    lie in the region the seek is ignored and the data are written at
    the position the cursor already had, if they fit there. *)
Theorem LoadSection_cases (rawData : list byte) (bw : BinaryWriter.t) (data : list byte)
        (sectionHeader va : Z)
  (Hva : load32 rawData (sectionHeader + off_VirtualAddress) = Ret va)
  (Hwf : BinaryWriter.wf bw)
  (Hb : BinaryWriter._size bw + len data < 2 ^ 64) :
  let size := BinaryWriter._size bw in
  let buffer := BinaryWriter._buffer bw in
  (va < size -> va + len data <= size ->
   ModuleLoader.LoadSection rawData bw data sectionHeader
   = Ret (BinaryWriter.mk (splice buffer va data) size (va + len data)) /\
   slice (splice buffer va data) va (len data) = Ret data /\
   forall i, i < va \/ va + len data <= i -> byte_at (splice buffer va data) i = byte_at buffer i) /\
  (va < size -> size < va + len data ->
   ModuleLoader.LoadSection rawData bw data sectionHeader = Ret (BinaryWriter.mk buffer size va)) /\
  (size <= va -> BinaryWriter._pos bw + len data <= size ->
   ModuleLoader.LoadSection rawData bw data sectionHeader
   = Ret (BinaryWriter.mk (splice buffer (BinaryWriter._pos bw) data) size
                          (BinaryWriter._pos bw + len data))).
Proof.
  intros size buffer. pose proof Hwf as (Hl & Hp & Hs).
  pose proof (len_nonneg data) as Hn.
  pose proof (load_Ret_range 4 _ _ _ Hva ltac:(lia)) as Hr.
  unfold ModuleLoader.LoadSection. rewrite Hva. cbn [bind].
  split; [ | split ].
  - intros H1 H2. rewrite Seek_in_range by exact H1.
    rewrite write_fits by (cbn; fold size; lia).
    split; [ reflexivity | ].
    split.
    + apply slice_splice_same; fold size in Hl; unfold buffer; lia.
    + intros i Hi. apply byte_at_splice_outside; fold size in Hl; unfold buffer; lia.
  - intros H1 H2. rewrite Seek_in_range by exact H1.
    rewrite write_dropped by (cbn; fold size; lia). reflexivity.
  - intros H1 H2. rewrite Seek_out_of_range by exact H1.
    rewrite write_fits by (fold size; lia). reflexivity.
Qed.

Lemma LoadSection_cases_witness :
  ModuleLoader.LoadSection (Sample.section_header 2 8 2 0 0)
                           (BinaryWriter.Seek (BinaryWriter.make (zeros 4) 4) 1)
                           [Byte.x41; Byte.x42] 0
  = Ret (BinaryWriter.mk [Byte.x00; Byte.x41; Byte.x42; Byte.x00] 4 3).
Proof.
  apply (proj2 (proj2 (LoadSection_cases (Sample.section_header 2 8 2 0 0)
                         (BinaryWriter.Seek (BinaryWriter.make (zeros 4) 4) 1)
                         [Byte.x41; Byte.x42] 0 8
                         ltac:(vm_compute; reflexivity)
                         ltac:(vm_compute; intuition congruence)
                         ltac:(vm_compute; reflexivity)))).
  - vm_compute; discriminate.
  - vm_compute; discriminate.
Defined.

Lemma section_view_unique (data : list byte) (sh ptr sz va ptr' sz' va' : Z) :
  section_view data sh ptr sz va -> section_view data sh ptr' sz' va' ->
  ptr' = ptr /\ sz' = sz /\ va' = va.
Proof.
  intros (H1 & H2 & H3) (H1' & H2' & H3').
  rewrite H1 in H1'. rewrite H2 in H2'. rewrite H3 in H3'.
  injection H1' as <-. injection H2' as <-. injection H3' as <-. repeat split.
Qed.

Lemma load_sections_copies (data : list byte) (shs : list Z) :
  forall bw,
    BinaryWriter.wf bw ->
    Forall (section_fits data (BinaryWriter._size bw)) shs ->
    ForallOrdPairs (sections_disjoint data) shs ->
    exists bw',
      ModuleLoader.load_sections data bw shs = Ret bw' /\
      BinaryWriter.wf bw' /\
      BinaryWriter._size bw' = BinaryWriter._size bw /\
      Forall (section_mapped data (BinaryWriter._buffer bw')) shs /\
      forall i, (forall sh, In sh shs -> ~ in_section data sh i) ->
                byte_at (BinaryWriter._buffer bw') i = byte_at (BinaryWriter._buffer bw) i.
Proof.
  induction shs as [ | sh rest IH ]; intros bw Hwf Hfit Hdis.
  - exists bw. repeat split; try assumption; try reflexivity; try constructor; apply Hwf.
  - inversion Hfit as [ | ? ? (ptr & sz & va & Hview & Hraw & Hva & Hend) Hfit' ]; subst.
    inversion Hdis as [ | ? ? Hhead Hdis' ]; subst.
    pose proof Hview as (Hptr & Hsz & Hvaddr).
    pose proof (load_Ret_range 4 _ _ _ Hptr ltac:(lia)) as Rptr.
    pose proof (load_Ret_range 4 _ _ _ Hsz ltac:(lia)) as Rsz.
    pose proof (load_Ret_range 4 _ _ _ Hvaddr ltac:(lia)) as Rva.
    pose proof Hwf as (Hl & Hp & Hs).
    set (raw := firstn (Z.to_nat sz) (skipn (Z.to_nat ptr) data)).
    assert (Hslice : slice data ptr sz = Ret raw) by (apply slice_ok; lia).
    pose proof (length_slice _ _ _ _ Hslice) as Hlraw.
    clearbody raw.
    set (bw1 := BinaryWriter.mk (splice (BinaryWriter._buffer bw) va raw)
                                (BinaryWriter._size bw) (va + sz)).
    assert (Hstep : ModuleLoader.LoadSection data bw raw sh = Ret bw1).
    { unfold ModuleLoader.LoadSection. rewrite Hvaddr. cbn [bind].
      rewrite Seek_in_range by exact Hva.
      rewrite write_fits by (cbn; lia). cbn. rewrite Hlraw. reflexivity. }
    assert (Hwf1 : BinaryWriter.wf bw1).
    { unfold BinaryWriter.wf, bw1; cbn. rewrite len_splice by lia. lia. }
    destruct (IH bw1 Hwf1 Hfit' Hdis') as (bw' & Hrun & Hwf' & Hsize & Hmapped & Hframe).
    exists bw'.
    split.
    { cbn [ModuleLoader.load_sections]. rewrite Hptr. cbn [bind]. rewrite Hsz. cbn [bind].
      unfold ModuleLoader.subspan. rewrite Hslice. cbn [bind]. rewrite Hstep. cbn [bind].
      exact Hrun. }
    split; [ exact Hwf' | ].
    split; [ exact Hsize | ].
    split.
    { constructor; [ | exact Hmapped ].
      exists ptr, sz, va, raw. split; [ exact Hview | split; [ exact Hslice | ] ].
      assert (Hsame : slice (BinaryWriter._buffer bw') va sz
                      = slice (BinaryWriter._buffer bw1) va sz).
      { apply slice_ext.
        - destruct Hwf' as (Hl' & _). destruct Hwf1 as (Hl1 & _). rewrite Hl', Hl1. exact Hsize.
        - intros i Hi. apply Hframe. intros sh' Hin Hsec.
          rewrite Forall_forall in Hhead. apply (Hhead sh' Hin i); [ | exact Hsec ].
          exists ptr, sz, va. split; [ exact Hview | exact Hi ]. }
      rewrite Hsame. unfold bw1; cbn [BinaryWriter._buffer].
      rewrite <- Hlraw. apply slice_splice_same; lia. }
    intros i Hout.
    rewrite Hframe by (intros sh' Hin; apply Hout; right; exact Hin).
    unfold bw1; cbn [BinaryWriter._buffer].
    apply byte_at_splice_outside; try lia.
    destruct (Z_lt_le_dec i va) as [ | Hge ]; [ left; assumption | ].
    destruct (Z_lt_le_dec i (va + len raw)) as [ Hlt | ]; [ | right; assumption ].
    exfalso. apply (Hout sh (or_introl eq_refl)).
    exists ptr, sz, va. split; [ exact Hview | lia ].
Qed.

(** X5. Phase 3 on sections that fit and do not overlap. When every
    section's raw range lies in the file, its image range
    [VirtualAddress, VirtualAddress + SizeOfRawData) lies in the region
    with [VirtualAddress] below the region's size, and no two sections
    share an image byte, the loop over the sections returns, the region
    then holds each section's raw bytes at its virtual address, and every
    byte outside all the sections is as it was before the loop. *)
Theorem sections_copied_in_place (data : list byte) (shs : list Z) (bw : BinaryWriter.t)
  (Hwf : BinaryWriter.wf bw)
  (Hfit : Forall (section_fits data (BinaryWriter._size bw)) shs)
  (Hdis : ForallOrdPairs (sections_disjoint data) shs) :
  exists bw',
    ModuleLoader.load_sections data bw shs = Ret bw' /\
    BinaryWriter._size bw' = BinaryWriter._size bw /\
    len (BinaryWriter._buffer bw') = len (BinaryWriter._buffer bw) /\
    Forall (section_mapped data (BinaryWriter._buffer bw')) shs /\
    forall i, (forall sh, In sh shs -> ~ in_section data sh i) ->
              byte_at (BinaryWriter._buffer bw') i = byte_at (BinaryWriter._buffer bw) i.
Proof.
  destruct (load_sections_copies data shs bw Hwf Hfit Hdis)
    as (bw' & Hrun & Hwf' & Hsize & Hmapped & Hframe).
  exists bw'. repeat split; try assumption.
  destruct Hwf as (Hl & _). destruct Hwf' as (Hl' & _). rewrite Hl, Hl'. exact Hsize.
Qed.

Lemma sections_copied_in_place_witness :
  exists bw',
    ModuleLoader.load_sections Sample.two_sections (BinaryWriter.make (zeros 8) 8) [0; 40]
    = Ret bw' /\
    BinaryWriter._size bw' = 8 /\
    len (BinaryWriter._buffer bw') = 8 /\
    Forall (section_mapped Sample.two_sections (BinaryWriter._buffer bw')) [0; 40] /\
    forall i, (forall sh, In sh [0; 40] -> ~ in_section Sample.two_sections sh i) ->
              byte_at (BinaryWriter._buffer bw') i = byte_at (zeros 8) i.
Proof.
  apply (sections_copied_in_place Sample.two_sections [0; 40] (BinaryWriter.make (zeros 8) 8)).
  - vm_compute; intuition congruence.
  - constructor; [ | constructor; [ | constructor ] ].
    + exists 80, 2, 4. vm_compute. intuition congruence.
    + exists 82, 2, 0. vm_compute. intuition congruence.
  - constructor; [ | constructor; [ constructor | constructor ] ].
    constructor; [ | constructor ].
    intros i (p1 & s1 & v1 & (_ & H1 & H2) & Hi1) (p2 & s2 & v2 & (_ & H3 & H4) & Hi2).
    vm_compute in H1, H2, H3, H4.
    injection H1 as <-. injection H2 as <-. injection H3 as <-. injection H4 as <-. lia.
Defined.

(** ** ImageParser: the RVA to file-offset map *)

Lemma find_if_first {A : Type} (p : A -> result bool) (before : list A) (x : A) (after : list A) :
  Forall (fun y => p y = Ret false) before -> p x = Ret true ->
  find_if p (before ++ x :: after) = Ret (Some x).
Proof.
  intros Hb Hx. induction Hb as [ | y before Hy _ IH ]; cbn [app find_if].
  - rewrite Hx. reflexivity.
  - rewrite Hy. cbn [bind]. exact IH.
Qed.

Lemma find_if_none {A : Type} (p : A -> result bool) (l : list A) :
  Forall (fun y => p y = Ret false) l -> find_if p l = Ret None.
Proof.
  intros H. induction H as [ | y l Hy _ IH ]; cbn [find_if]; [ reflexivity | ].
  rewrite Hy. cbn [bind]. exact IH.
Qed.

(** X6. [Rva2Raw] answers from the first section, in header order, whose
    range [VirtualAddress, VirtualAddress + VirtualSize) contains the
    RVA: the file offset is [rva - VirtualAddress + PointerToRawData],
    reduced modulo [2^32]. Later sections that also contain the RVA are
    not consulted, and [SizeOfRawData] plays no part. In that case
    [ImportDirectory] of a directory at that RVA points at this file
    offset. *)
Theorem Rva2Raw_first_covering_section (pe : PE.t) (rva : Z) (before after : list Z)
        (sh va vs raw : Z)
  (Hsplit : PE.SectionHeaders pe = before ++ sh :: after)
  (Hbefore : Forall (fun s => detail.rvaInSection (PE.Data pe) rva s = Ret false) before)
  (Hva : load32 (PE.Data pe) (sh + off_VirtualAddress) = Ret va)
  (Hvs : load32 (PE.Data pe) (sh + off_VirtualSize) = Ret vs)
  (Hraw : load32 (PE.Data pe) (sh + off_PointerToRawData) = Ret raw)
  (Hin : va <= rva < wrap32 (va + vs)) :
  PE.Rva2Raw pe rva = Ret (wrap32 (rva - va + raw)) /\
  (rva - va + raw < 2 ^ 32 -> PE.Rva2Raw pe rva = Ret (rva - va + raw)) /\
  (forall sz, PE.DataDirectory pe IMAGE_DIRECTORY_ENTRY_IMPORT = Ret (rva, sz) -> sz <> 0 ->
              PE.ImportDirectory pe = Ret (Some (wrap32 (rva - va + raw)))).
Proof.
  assert (Hcov : detail.rvaInSection (PE.Data pe) rva sh = Ret true).
  { unfold detail.rvaInSection. rewrite Hva, Hvs. cbn [bind]. unfold detail.inBetween.
    f_equal. rewrite andb_true_iff, Z.leb_le, Z.ltb_lt. exact Hin. }
  assert (H : PE.Rva2Raw pe rva = Ret (wrap32 (rva - va + raw))).
  { unfold PE.Rva2Raw. unfold PE.SectionHeaders, PE.Data in *.
    rewrite Hsplit, (find_if_first _ before sh after Hbefore Hcov). cbn [bind].
    rewrite Hva, Hraw. reflexivity. }
  split; [ exact H | split ].
  - intros Hsmall. rewrite H. f_equal. unfold wrap32. apply Z.mod_small.
    apply (load_Ret_range 4) in Hraw; [ | lia ]. lia.
  - intros sz Hdir Hsz. unfold PE.ImportDirectory. rewrite Hdir. cbn [bind].
    replace (sz =? 0) with false by (symmetry; apply Z.eqb_neq; exact Hsz).
    rewrite H. reflexivity.
Qed.

Lemma Rva2Raw_first_covering_section_witness :
  PE.Rva2Raw (accepted Sample.relocated 64 3 240) 0x2004 = Ret 0x404.
Proof.
  apply (proj1 (proj2 (Rva2Raw_first_covering_section
                         (accepted Sample.relocated 64 3 240) 0x2004 [328] [408]
                         368 0x2000 0x20 0x400
                         eq_refl
                         ltac:(constructor; [ vm_compute; reflexivity | constructor ])
                         ltac:(vm_compute; reflexivity)
                         ltac:(vm_compute; reflexivity)
                         ltac:(vm_compute; reflexivity)
                         ltac:(vm_compute; split; [ discriminate | reflexivity ])))).
  vm_compute; reflexivity.
Defined.

(** X7. The upper bound of a section's range is a 32-bit sum. A section
    whose [VirtualAddress + VirtualSize] does not fit in 32 bits
    contains no RVA at all, and when every section is such (or does not
    contain the RVA) [Rva2Raw] returns 0. *)
Theorem overflowing_section_covers_nothing (data : list byte) (sh va vs : Z)
  (Hva : load32 data (sh + off_VirtualAddress) = Ret va)
  (Hvs : load32 data (sh + off_VirtualSize) = Ret vs)
  (Hover : 2 ^ 32 <= va + vs) :
  (forall rva, detail.rvaInSection data rva sh = Ret false) /\
  (forall pe rva, PE.Data pe = data -> PE.SectionHeaders pe = [sh] ->
                  PE.Rva2Raw pe rva = Ret 0).
Proof.
  assert (H : forall rva, detail.rvaInSection data rva sh = Ret false).
  { intros rva. unfold detail.rvaInSection. rewrite Hva, Hvs. cbn [bind]. f_equal.
    apply (load_Ret_range 4) in Hva; [ | lia ]. apply (load_Ret_range 4) in Hvs; [ | lia ].
    change (2 ^ (8 * 4)) with (2 ^ 32) in *.
    unfold detail.inBetween, wrap32.
    replace ((va + vs) mod 2 ^ 32) with (va + vs - 2 ^ 32).
    - apply andb_false_iff.
      destruct (Z_le_gt_dec va rva); [ right; apply Z.ltb_ge; lia | left; apply Z.leb_gt; lia ].
    - symmetry. replace (va + vs) with (va + vs - 2 ^ 32 + 1 * 2 ^ 32) at 1 by lia.
      rewrite Z.mod_add by lia. apply Z.mod_small. lia. }
  split; [ exact H | ].
  intros pe rva Hd Hs. unfold PE.Rva2Raw. unfold PE.Data, PE.SectionHeaders in *.
  rewrite Hs, Hd. rewrite (find_if_none _ [sh]); [ reflexivity | ].
  constructor; [ apply H | constructor ].
Qed.

Lemma overflowing_section_covers_nothing_witness :
  detail.rvaInSection (Sample.section_header 0x2000 0xFFFFF000 0 0 0) 0xFFFFF800 0 = Ret false.
Proof.
  apply (proj1 (overflowing_section_covers_nothing
                  (Sample.section_header 0x2000 0xFFFFF000 0 0 0) 0 0xFFFFF000 0x2000
                  ltac:(vm_compute; reflexivity) ltac:(vm_compute; reflexivity)
                  ltac:(vm_compute; discriminate))).
Defined.

(** ** ImageParser: what the parser keeps and what it does not check *)

Lemma Parse_keeps_data (data : list byte) (pe : PE.t) :
  PE.Parse data = Ret pe -> PE.Data pe = data /\ PE._dosHeader pe = Some 0.
Proof.
  unfold PE.Parse.
  destruct (load16 data (0 + off_e_magic)) as [e_magic | | ]; cbn [bind]; try discriminate.
  destruct (negb (e_magic =? IMAGE_DOS_SIGNATURE)); [ intros [= <-]; split; reflexivity | ].
  destruct (load32 data (0 + off_e_lfanew)) as [raw | | ]; cbn [bind]; try discriminate.
  destruct (wrap64 (signed32 raw) <? sizeof_IMAGE_DOS_HEADER);
    [ intros [= <-]; split; reflexivity | ].
  destruct (load32 data _) as [sig | | ]; cbn [bind]; try discriminate.
  destruct (negb (sig =? IMAGE_NT_SIGNATURE)); [ intros [= <-]; split; reflexivity | ].
  destruct (load16 data _) as [machine | | ]; cbn [bind]; try discriminate.
  destruct (negb (machine =? IMAGE_FILE_MACHINE_AMD64)); [ intros [= <-]; split; reflexivity | ].
  destruct (load16 data _) as [n | | ]; cbn [bind]; try discriminate.
  destruct (load16 data _) as [soh | | ]; cbn [bind]; try discriminate.
  intros [= <-]. split; reflexivity.
Qed.

(** X8. Whatever the outcome, the parser holds exactly the bytes it was
    given. A parser that is not ok and whose error is still [Success]
    is one whose file could not be opened, and only that one; a parser
    that is ok always reports [Success]. *)
Theorem parser_keeps_bytes (file : option (list byte)) (pe : PE.t)
  (Hmake : PE.make file = Ret pe) :
  PE.Data pe = match file with Some data => data | None => [] end /\
  ((PE.Ok pe = false /\ PE.Error pe = Success) <-> file = None) /\
  (PE.Ok pe = true -> PE.Error pe = Success).
Proof.
  destruct file as [data | ]; cbn [PE.make] in Hmake.
  - pose proof (Parse_keeps_data data pe Hmake) as [Hd _].
    pose proof (Parse_outcomes data pe Hmake) as Ho.
    split; [ exact Hd | split ].
    + split; [ | discriminate ].
      intros [Hok Herr]. destruct Ho as [[Ht _] | [_ [He | He]]]; congruence.
    + intros Hok. destruct Ho as [[_ He] | [Hf _]]; congruence.
  - injection Hmake as <-. split; [ reflexivity | split ].
    + split; [ reflexivity | intros _; split; reflexivity ].
    + discriminate.
Qed.

Lemma parser_keeps_bytes_witness :
  PE.Data (accepted Sample.truncated 64 1 240) = Sample.truncated.
Proof.
  apply (proj1 (parser_keeps_bytes (Some Sample.truncated) (accepted Sample.truncated 64 1 240)
                  ltac:(vm_compute; reflexivity))).
Defined.

Lemma load_out_of_bounds (n : Z) (m : list byte) (off : Z) :
  off < 0 \/ len m < off + n -> load n m off = Undefined.
Proof.
  intros H. unfold load, slice.
  replace ((0 <=? off) && (0 <=? n) && (off + n <=? len m)) with false; [ reflexivity | ].
  symmetry. rewrite !andb_false_iff, !Z.leb_gt. lia.
Qed.

(** X9. The parser reads its header fields without looking at the
    length of the file, and compares the signed [e_lfanew] as an unsigned
    number. A file of fewer than two bytes, a file with the [MZ] magic
    and fewer than 64 bytes, a file whose [e_lfanew] is negative, and a
    file whose [e_lfanew] points past its last four bytes are not
    rejected: the parse reads outside the buffer. *)
Theorem Parse_reads_out_of_bounds (data : list byte) :
  (len data < 2 -> PE.Parse data = Undefined) /\
  (load16 data 0 = Ret IMAGE_DOS_SIGNATURE -> len data < 64 -> PE.Parse data = Undefined) /\
  (forall raw, load16 data 0 = Ret IMAGE_DOS_SIGNATURE -> load32 data 60 = Ret raw ->
               2 ^ 31 <= raw -> PE.Parse data = Undefined) /\
  (forall raw, load16 data 0 = Ret IMAGE_DOS_SIGNATURE -> load32 data 60 = Ret raw ->
               64 <= raw < 2 ^ 31 -> len data < raw + 4 -> PE.Parse data = Undefined).
Proof.
  split; [ | split; [ | split ] ].
  - intros H. unfold_Parse. unfold load16. rewrite load_out_of_bounds by lia. reflexivity.
  - intros H0 H. unfold_Parse. rewrite H0. cbn [bind]. rewrite Z.eqb_refl. cbn [negb].
    unfold load32. rewrite load_out_of_bounds by lia. reflexivity.
  - intros raw H0 H1 Hneg. unfold_Parse. rewrite H0. cbn [bind]. rewrite Z.eqb_refl. cbn [negb].
    rewrite H1. cbn [bind]. rewrite ?Z.add_0_l, ?Z.add_0_r.
    pose proof (load_Ret_range 4 _ _ _ H1 ltac:(lia)) as Hr.
    change (2 ^ (8 * 4)) with (2 ^ 32) in Hr.
    assert (Hs : signed32 raw = raw - 2 ^ 32).
    { unfold signed32. replace (raw <? 2 ^ 31) with false by (symmetry; apply Z.ltb_ge; lia).
      reflexivity. }
    assert (Hw : wrap64 (signed32 raw) = raw - 2 ^ 32 + 2 ^ 64).
    { rewrite Hs. unfold wrap64.
      rewrite <- (Z_mod_plus_full (raw - 2 ^ 32) 1 (2 ^ 64)).
      rewrite Z.mod_small by lia. lia. }
    replace (wrap64 (signed32 raw) <? sizeof_IMAGE_DOS_HEADER) with false
      by (symmetry; apply Z.ltb_ge; rewrite Hw; unfold sizeof_IMAGE_DOS_HEADER; lia).
    unfold load32 at 1. rewrite load_out_of_bounds by (rewrite Hs; lia). reflexivity.
  - intros raw H0 H1 Hr Hlen. unfold_Parse. rewrite H0. cbn [bind]. rewrite Z.eqb_refl.
    cbn [negb]. rewrite H1. cbn [bind]. rewrite ?Z.add_0_l, ?Z.add_0_r.
    assert (Hs : signed32 raw = raw).
    { unfold signed32. replace (raw <? 2 ^ 31) with true by (symmetry; apply Z.ltb_lt; lia).
      reflexivity. }
    rewrite Hs.
    replace (wrap64 raw <? sizeof_IMAGE_DOS_HEADER) with false
      by (symmetry; apply Z.ltb_ge; rewrite wrap64_small by lia;
          unfold sizeof_IMAGE_DOS_HEADER; lia).
    unfold load32 at 1. rewrite load_out_of_bounds by lia. reflexivity.
Qed.

Lemma Parse_reads_out_of_bounds_witness :
  PE.Parse (Sample.dos_header IMAGE_DOS_SIGNATURE 0xFFFFFFF0) = Undefined.
Proof.
  apply (proj1 (proj2 (proj2 (Parse_reads_out_of_bounds
                                (Sample.dos_header IMAGE_DOS_SIGNATURE 0xFFFFFFF0))))
               0xFFFFFFF0).
  - vm_compute; reflexivity.
  - vm_compute; reflexivity.
  - vm_compute; discriminate.
Defined.

(** ** Module: the parse of the mapped headers *)

Lemma read_unfold (n off : Z) (w : world) :
  read n off w = match load n (region w) off with
                 | Ret v => Ret (v, w)
                 | Undefined => Undefined
                 | OutOfFuel => OutOfFuel
                 end.
Proof. unfold read, mbind, get_region, lift. destruct (load n (region w) off); reflexivity. Qed.

Ltac step_read :=
  unfold mbind at 1; rewrite read_unfold.

Lemma make_rejects (base imageSize : Z) (w : world) (e : PEError) :
  rejected_with (PE.Parse (region w)) e ->
  exists m, Module_.make base imageSize w = Ret (m, w) /\
            Module_.Ok m = false /\ Module_._error m = e /\
            Module_._base m = base /\ Module_._importModules m = [].
Proof.
  intros (pe & Hp & Hok & He). revert Hp. unfold PE.Parse, Module_.make, load16, load32.
  cbv zeta.
  step_read.
  destruct (load 2 (region w) (0 + off_e_magic)) as [e_magic | | ]; cbn [bind];
    try discriminate.
  destruct (negb (e_magic =? IMAGE_DOS_SIGNATURE)).
  { intros [= <-]. cbn in He. subst e. eexists. split; [ reflexivity | ]. repeat split. }
  step_read.
  destruct (load 4 (region w) (0 + off_e_lfanew)) as [raw | | ]; cbn [bind]; try discriminate.
  destruct (wrap64 (signed32 raw) <? sizeof_IMAGE_DOS_HEADER).
  { intros [= <-]. cbn in He. subst e. eexists. split; [ reflexivity | ]. repeat split. }
  step_read.
  destruct (load 4 (region w) _) as [sig | | ]; cbn [bind]; try discriminate.
  destruct (negb (sig =? IMAGE_NT_SIGNATURE)).
  { intros [= <-]. cbn in He. subst e. eexists. split; [ reflexivity | ]. repeat split. }
  step_read.
  destruct (load 2 (region w) _) as [machine | | ]; cbn [bind]; try discriminate.
  destruct (negb (machine =? IMAGE_FILE_MACHINE_AMD64)).
  { intros [= <-]. cbn in He. subst e. eexists. split; [ reflexivity | ]. repeat split. }
  destruct (load 2 (region w) _) as [n | | ]; cbn [bind]; try discriminate.
  destruct (load 2 (region w) _) as [soh | | ]; cbn [bind]; try discriminate.
  intros [= <-]. discriminate.
Qed.

Lemma make_undefined (base imageSize : Z) (w : world) :
  PE.Parse (region w) = Undefined -> Module_.make base imageSize w = Undefined.
Proof.
  unfold PE.Parse, Module_.make, load16, load32. cbv zeta.
  step_read.
  destruct (load 2 (region w) (0 + off_e_magic)) as [e_magic | | ]; cbn [bind];
    try discriminate; [ | reflexivity ].
  destruct (negb (e_magic =? IMAGE_DOS_SIGNATURE)); [ discriminate | ].
  step_read.
  destruct (load 4 (region w) (0 + off_e_lfanew)) as [raw | | ]; cbn [bind];
    try discriminate; [ | reflexivity ].
  destruct (wrap64 (signed32 raw) <? sizeof_IMAGE_DOS_HEADER); [ discriminate | ].
  step_read.
  destruct (load 4 (region w) _) as [sig | | ]; cbn [bind]; try discriminate; [ | reflexivity ].
  destruct (negb (sig =? IMAGE_NT_SIGNATURE)); [ discriminate | ].
  step_read.
  destruct (load 2 (region w) _) as [machine | | ]; cbn [bind];
    try discriminate; [ | reflexivity ].
  destruct (negb (machine =? IMAGE_FILE_MACHINE_AMD64)); [ discriminate | ].
  step_read.
  destruct (load 2 (region w) _) as [n | | ]; cbn [bind]; try discriminate; [ | reflexivity ].
  step_read.
  destruct (load 2 (region w) _) as [soh | | ]; cbn [bind]; try discriminate; reflexivity.
Qed.

Lemma make_reads_accepted (base imageSize : Z) (w : world) (nt n soh : Z) :
  passes_checks (region w) nt n soh ->
  Module_.make base imageSize w
  = mbind (write64 (nt + off_ImageBase) (wrap64 base))
          (fun _ => mret {| Module_._base := base; Module_._imageSize := imageSize;
                            Module_._dosHeader := Some 0; Module_._ntHeader := Some nt;
                            Module_._sectionHeaders :=
                              section_pointers (IMAGE_FIRST_SECTION nt soh) n;
                            Module_._importModules := []; Module_._error := Success;
                            Module_._ok := true |}) w.
Proof.
  intros (raw & H0 & H1 & -> & Hge & H2 & H3 & H4 & H5).
  assert (Hw : (wrap64 (signed32 raw) <? sizeof_IMAGE_DOS_HEADER) = false).
  { apply Z.ltb_ge. unfold wrap64. rewrite Z.mod_small; [ exact Hge | ].
    unfold sizeof_IMAGE_DOS_HEADER in Hge. unfold signed32 in *.
    apply (load_Ret_range 4) in H1; [ | lia ].
    change (2 ^ (8 * 4)) with (2 ^ 32) in H1.
    destruct (raw <? 2 ^ 31); lia. }
  unfold Module_.make. cbv zeta.
  change (0 + off_e_magic) with 0. change (0 + off_e_lfanew) with 60.
  unfold off_Signature, off_Machine, off_NumberOfSections, off_SizeOfOptionalHeader.
  rewrite ?Z.add_0_l, ?Z.add_0_r.
  step_read. unfold load16 in H0. rewrite H0. rewrite Z.eqb_refl. cbn [negb].
  step_read. unfold load32 in H1. rewrite H1. rewrite Hw.
  rewrite ?Z.add_0_l, ?Z.add_0_r.
  step_read. unfold load32 in H2. rewrite H2. rewrite Z.eqb_refl. cbn [negb].
  step_read. unfold load16 in H3. rewrite H3. rewrite Z.eqb_refl. cbn [negb].
  step_read. unfold load16 in H4. rewrite H4.
  step_read. unfold load16 in H5. rewrite H5.
  reflexivity.
Qed.

(** X10. The constructor of [Module] parses the region as the parser
    parses a file. When the parser would reject the region's bytes, the
    module is not ok, carries the same error, and the region is not
    touched. When the parser would accept them, the module is ok with
    the same NT-header offset and section headers, and the only change
    to the region is the [ImageBase] field of the mapped optional
    header, which now holds the region's base address; if that field
    does not lie in the region the store is out of bounds. When the
    parse of the bytes is undefined, so is the construction. *)
Theorem Module_parses_like_PE (base imageSize : Z) (w : world) :
  (forall e, rejected_with (PE.Parse (region w)) e ->
             exists m, Module_.make base imageSize w = Ret (m, w) /\
                       Module_.Ok m = false /\ Module_._error m = e /\
                       Module_._base m = base /\ Module_._importModules m = []) /\
  (forall nt n soh,
      passes_checks (region w) nt n soh ->
      nt + off_ImageBase + 8 <= len (region w) ->
      let m := {| Module_._base := base; Module_._imageSize := imageSize;
                  Module_._dosHeader := Some 0; Module_._ntHeader := Some nt;
                  Module_._sectionHeaders := section_pointers (IMAGE_FIRST_SECTION nt soh) n;
                  Module_._importModules := []; Module_._error := Success;
                  Module_._ok := true |} in
      let region' := splice (region w) (nt + off_ImageBase) (le_split 8 (wrap64 base)) in
      Module_.make base imageSize w = Ret (m, {| trace := trace w; region := region' |}) /\
      load64 region' (nt + off_ImageBase) = Ret (wrap64 base) /\
      forall i, i < nt + off_ImageBase \/ nt + off_ImageBase + 8 <= i ->
                byte_at region' i = byte_at (region w) i) /\
  (forall nt n soh,
      passes_checks (region w) nt n soh ->
      len (region w) < nt + off_ImageBase + 8 ->
      Module_.make base imageSize w = Undefined) /\
  (PE.Parse (region w) = Undefined -> Module_.make base imageSize w = Undefined).
Proof.
  split; [ intros e; apply make_rejects | ].
  split; [ | split; [ | apply make_undefined ] ].
  - intros nt n soh Hc Hfit m region'.
    assert (Hnt : 64 <= nt) by (destruct Hc as (raw & _ & _ & _ & Hge & _); exact Hge).
    unfold off_ImageBase in *.
    split; [ | split ].
    + rewrite (make_reads_accepted base imageSize w nt n soh Hc).
      unfold mbind. unfold off_ImageBase. rewrite write64_ok by lia. reflexivity.
    + unfold region'. rewrite <- (wrap64_small (wrap64 base)) at 2
        by (unfold wrap64; apply Z.mod_pos_bound; lia).
      apply load64_splice_same; lia.
    + intros i Hi. unfold region'.
      assert (Hl8 : len (le_split 8 (wrap64 base)) = 8)
        by (unfold len; rewrite length_le_split; reflexivity).
      apply byte_at_splice_outside; rewrite ?Hl8; lia.
  - intros nt n soh Hc Hshort.
    rewrite (make_reads_accepted base imageSize w nt n soh Hc).
    unfold mbind, write64, mbind, get_region, lift, store64, store.
    replace ((0 <=? nt + off_ImageBase) &&
             (nt + off_ImageBase + len (le_split 8 (wrap64 base)) <=? len (region w)))
      with false; [ reflexivity | ].
    assert (Hl8 : len (le_split 8 (wrap64 base)) = 8)
      by (unfold len; rewrite length_le_split; reflexivity).
    symmetry. apply andb_false_iff. right. apply Z.leb_gt. rewrite Hl8. lia.
Qed.

Lemma Module_parses_like_PE_witness :
  exists m, Module_.make Sample.mapped_base 0x1000
                         {| trace := []; region := Sample.bad_magic |}
            = Ret (m, {| trace := []; region := Sample.bad_magic |}) /\
            Module_.Ok m = false /\ Module_._error m = InvalidPeFormat /\
            Module_._base m = Sample.mapped_base /\ Module_._importModules m = [].
Proof.
  apply (proj1 (Module_parses_like_PE Sample.mapped_base 0x1000
                  {| trace := []; region := Sample.bad_magic |}) InvalidPeFormat).
  vm_compute. eexists. repeat split.
Defined.

(** ** Module: the destructor *)

Lemma for_each_FreeLibrary (l : list Z) :
  forall w, for_each callFreeLibrary l w
            = Ret (tt, {| trace := trace w ++ map EvFreeLibrary l; region := region w |}).
Proof.
  induction l as [ | h l IH ]; intros w; cbn [for_each map].
  - unfold mret. rewrite app_nil_r. destruct w; reflexivity.
  - unfold mbind, callFreeLibrary, emit. rewrite IH. cbn [trace region].
    rewrite <- app_assoc. reflexivity.
Qed.

Lemma count_FreeLibrary_map (h : Z) (l : list Z) :
  count (is_FreeLibrary h) (map EvFreeLibrary l) = count_occ Z.eq_dec l h.
Proof.
  unfold count. induction l as [ | x l IH ]; [ reflexivity | ].
  cbn [map filter count_occ is_FreeLibrary].
  destruct (Z.eq_dec x h) as [-> | Hne].
  - rewrite Z.eqb_refl. cbn [length]. rewrite IH. reflexivity.
  - replace (x =? h) with false by (symmetry; apply Z.eqb_neq; exact Hne). exact IH.
Qed.

(** X11. The destructor of [Module] always returns, leaves the region's
    bytes alone, and makes exactly these host calls, in this order: one
    [FreeLibrary] for each recorded import module in the order of
    recording (a handle recorded several times is freed as many times),
    then, unless [_base] is null, one [VirtualFree] of [_imageSize]
    bytes at [_base]. *)
Theorem destructor_releases_in_order (m : Module_.t) (w : world) :
  let released :=
    map EvFreeLibrary (Module_._importModules m) ++
    (if Module_._base m =? 0 then []
     else [EvVirtualFree (Module_._base m) (Module_._imageSize m)]) in
  Module_.destroy m w = Ret (tt, {| trace := trace w ++ released; region := region w |}) /\
  (forall h, count (is_FreeLibrary h) released
             = count_occ Z.eq_dec (Module_._importModules m) h) /\
  count (is_VirtualFree (Module_._base m)) released
  = if Module_._base m =? 0 then 0%nat else 1%nat.
Proof.
  intros released. split; [ | split ].
  - unfold Module_.destroy, mbind. rewrite for_each_FreeLibrary.
    unfold released. destruct (Module_._base m =? 0); cbn [negb].
    + unfold mret. rewrite app_nil_r. reflexivity.
    + unfold callVirtualFree, emit. cbn [trace region]. rewrite <- app_assoc. reflexivity.
  - intros h. unfold released, count. rewrite filter_app, length_app.
    fold (count (is_FreeLibrary h) (map EvFreeLibrary (Module_._importModules m))).
    rewrite count_FreeLibrary_map.
    destruct (Module_._base m =? 0); cbn; lia.
  - unfold released, count. rewrite filter_app, length_app.
    assert (H0 : filter (is_VirtualFree (Module_._base m))
                        (map EvFreeLibrary (Module_._importModules m)) = []).
    { induction (Module_._importModules m) as [ | x l IH ]; [ reflexivity | exact IH ]. }
    rewrite H0. destruct (Module_._base m =? 0) eqn:E; cbn [filter is_VirtualFree length].
    + reflexivity.
    + rewrite Z.eqb_refl. reflexivity.
Qed.

(** ** Loader: absent directories, sectionless images, failed allocation *)

Lemma FetchDataDirectory_absent (m : Module_.t) (w : world) (index : Z) :
  directory_absent m w index -> Module_.FetchDataDirectory m index w = Ret (None, w).
Proof.
  intros (nt & va & Hnt & Hva & Hsz).
  unfold Module_.FetchDataDirectory, Module_.nt_field. rewrite Hnt.
  unfold mbind. rewrite (read_ok 4 _ va w Hva), (read_ok 4 _ 0 w Hsz). reflexivity.
Qed.

(** X12. A data directory of size 0 makes its phase a successful no-op,
    whatever the directory's [VirtualAddress]: without an import
    directory [BuildIAT] returns true, without a relocation directory
    [RelocateBase] returns for any delta, without a TLS directory
    [RunTLSCallbacks] returns, and in each case no host call is made and
    the region and the module are unchanged. *)
Theorem absent_directory_is_noop (host : Host) (fuel : nat) (m : Module_.t) (w : world) :
  (directory_absent m w IMAGE_DIRECTORY_ENTRY_IMPORT ->
   ModuleLoader.BuildIAT host fuel m w = Ret ((true, m), w)) /\
  (directory_absent m w IMAGE_DIRECTORY_ENTRY_BASERELOC ->
   forall delta, ModuleLoader.RelocateBase fuel m delta w = Ret (tt, w)) /\
  (directory_absent m w IMAGE_DIRECTORY_ENTRY_TLS ->
   ModuleLoader.RunTLSCallbacks fuel m w = Ret (tt, w)).
Proof.
  split; [ | split ].
  - intros H. unfold ModuleLoader.BuildIAT, Module_.ImportDirectory, mbind.
    rewrite (FetchDataDirectory_absent _ _ _ H). reflexivity.
  - intros H delta. unfold ModuleLoader.RelocateBase, Module_.RelocationDirectory, mbind.
    rewrite (FetchDataDirectory_absent _ _ _ H). reflexivity.
  - intros H. unfold ModuleLoader.RunTLSCallbacks, Module_.TLSDirectory, mbind.
    rewrite (FetchDataDirectory_absent _ _ _ H). reflexivity.
Qed.

Lemma absent_directory_is_noop_witness :
  let m := Module_.mk Sample.mapped_base 0x4000 (Some 0) (Some 64) [328] [] Success true in
  let w := {| trace := []; region := Sample.stray_import |} in
  ModuleLoader.RelocateBase 0 m 0x1000 w = Ret (tt, w).
Proof.
  intros m w.
  apply (proj1 (proj2 (absent_directory_is_noop Sample.friendly 0 m w))).
  exists 64, 0. vm_compute. repeat split.
Defined.

(** X13. An image with [NumberOfSections] 0 is accepted by the parser,
    but loading it is undefined: once the region is allocated, [Load]
    indexes element 0 of the empty list of section headers. *)
Theorem sectionless_image_is_undefined (host : Host) (fuel : nat) (data : list byte)
        (nt soh size : Z) (w : world)
  (Hc : passes_checks data nt 0 soh)
  (Hsize : PE.ImageSize (accepted data nt 0 soh) = Ret size)
  (Halloc : VirtualAlloc host (trace w) size <> 0) :
  PE.Parse data = Ret (accepted data nt 0 soh) /\
  PE.Ok (accepted data nt 0 soh) = true /\
  ModuleLoader.Load host fuel (accepted data nt 0 soh) w = Undefined.
Proof.
  split; [ | split; [ reflexivity | ] ].
  - apply (proj2 (Parse_accepts_iff data (accepted data nt 0 soh))).
    exists nt, 0, soh. split; [ exact Hc | reflexivity ].
  - unfold ModuleLoader.Load. cbn [PE.Ok accepted PE._ok negb].
    unfold mbind at 1. unfold lift at 1. rewrite Hsize.
    unfold mbind at 1. unfold callVirtualAlloc, mbind, get_trace, emit, mret.
    apply Z.eqb_neq in Halloc.
    cbn [trace region]. rewrite !Halloc.
    unfold set_region, get_region. cbn [trace region]. rewrite ?Halloc.
    unfold ModuleLoader.copy_image, ModuleLoader.copy_headers, ModuleLoader.copy_header_block,
      ModuleLoader.header_bytes.
    reflexivity.
Qed.

Lemma sectionless_image_is_undefined_witness :
  ModuleLoader.Load Sample.friendly 16 (accepted Sample.sectionless 64 0 240) start
  = Undefined.
Proof.
  apply (proj2 (proj2 (sectionless_image_is_undefined
                         Sample.friendly 16 Sample.sectionless 64 240 0x1000 start
                         ltac:(exists 64; vm_compute; repeat split; intros; discriminate)
                         ltac:(vm_compute; reflexivity)
                         ltac:(vm_compute; discriminate)))).
Defined.

(** X14. When the parser is ok and [VirtualAlloc] returns null, [Load]
    returns the empty optional having made that one host call and no
    other: nothing is freed, and the region of the process is as it
    was. *)
Theorem failed_allocation_returns_empty (host : Host) (fuel : nat) (pe : PE.t) (size : Z)
        (w : world)
  (Hok : PE.Ok pe = true)
  (Hsize : PE.ImageSize pe = Ret size)
  (Halloc : VirtualAlloc host (trace w) size = 0) :
  ModuleLoader.Load host fuel pe w
  = Ret (None, {| trace := trace w ++ [EvVirtualAlloc size 0]; region := region w |}).
Proof.
  unfold ModuleLoader.Load. rewrite Hok. cbn [negb].
  unfold mbind at 1. unfold lift at 1. rewrite Hsize.
  unfold mbind at 1. unfold callVirtualAlloc, mbind, get_trace, emit, mret.
  cbn [trace region]. rewrite Halloc. reflexivity.
Qed.

Lemma failed_allocation_returns_empty_witness :
  ModuleLoader.Load Sample.out_of_memory 16 (accepted Sample.importer 64 1 240) start
  = Ret (None, {| trace := [EvVirtualAlloc 0x2000 0]; region := [] |}).
Proof.
  apply (failed_allocation_returns_empty Sample.out_of_memory 16
           (accepted Sample.importer 64 1 240) 0x2000 start).
  - reflexivity.
  - vm_compute; reflexivity.
  - reflexivity.
Defined.

(** ** Phase 6: base relocations on a zero-terminated table *)

(** X15. A relocation block with a non-zero page RVA, no entry and
    [SizeOfBlock] 0 makes the block loop stay on that block: whatever
    fuel the loops are given, [RelocateBase] does not return. *)
Theorem zero_sized_block_never_ends (m : Module_.t) (w : world) (nt dirsize rt va delta : Z)
  (Hnt : Module_._ntHeader m = Some nt)
  (Hdir : load32 (region w) (nt + (off_DataDirectory + 8 * IMAGE_DIRECTORY_ENTRY_BASERELOC))
          = Ret rt)
  (Hsz : load32 (region w) (nt + (off_DataDirectory + 8 * IMAGE_DIRECTORY_ENTRY_BASERELOC + 4))
         = Ret dirsize)
  (Hpresent : dirsize <> 0)
  (Hva : load32 (region w) (rt + off_rel_VirtualAddress) = Ret va)
  (Hnz : va <> 0)
  (Hentry : load16 (region w) (rt + sizeof_IMAGE_BASE_RELOCATION) = Ret 0)
  (Hblock : load32 (region w) (rt + off_rel_SizeOfBlock) = Ret 0) :
  forall fuel, ModuleLoader.RelocateBase fuel m delta w = OutOfFuel.
Proof.
  assert (Hloop : forall fuel n,
             ModuleLoader.reloc_blocks fuel n (Module_._imageSize m) delta rt w = OutOfFuel).
  { intros fuel n. induction n as [ | n IH ]; [ reflexivity | ].
    cbn [ModuleLoader.reloc_blocks]. unfold mbind at 1. rewrite (read_ok 4 _ va w Hva).
    replace (va =? 0) with false by (symmetry; apply Z.eqb_neq; exact Hnz).
    unfold mbind at 1.
    destruct fuel as [ | fuel ]; [ reflexivity | ].
    cbn [ModuleLoader.reloc_entries]. unfold mbind at 1. rewrite (read_ok 2 _ 0 w Hentry).
    cbn [Z.eqb]. unfold mret. unfold mbind at 1. rewrite (read_ok 4 _ 0 w Hblock).
    rewrite Z.add_0_r. exact IH. }
  intros fuel. unfold ModuleLoader.RelocateBase, Module_.RelocationDirectory,
    Module_.FetchDataDirectory, Module_.nt_field. rewrite Hnt.
  unfold mbind at 1. unfold mbind at 1. rewrite (read_ok 4 _ rt w Hdir).
  unfold mbind at 1. rewrite (read_ok 4 _ dirsize w Hsz).
  replace (dirsize =? 0) with false by (symmetry; apply Z.eqb_neq; exact Hpresent).
  unfold mret. apply Hloop.
Qed.

Lemma entry_array_splice (m : list byte) (a : Z) (d : list byte) (es : list Z) :
  forall off,
    entry_array m off es ->
    0 <= a -> a + len d <= len m ->
    a + len d <= off \/ off + 2 * (Z.of_nat (length es) + 1) <= a ->
    entry_array (splice m a d) off es.
Proof.
  induction es as [ | e es IH ]; intros off H H0 H1 Hd; inversion H; subst.
  - apply entries_end. unfold load16 in *.
    rewrite load_splice_disjoint; [ assumption | assumption | assumption | ].
    cbn [length] in Hd. lia.
  - apply entries_next; [ | assumption | ].
    + unfold load16 in *.
      rewrite load_splice_disjoint; [ assumption | assumption | assumption | ].
      cbn [length] in Hd. lia.
    + apply IH; try assumption. cbn [length] in Hd. lia.
Qed.

Lemma relocated_nil (delta : Z) (m : list byte) : relocated delta [] m m.
Proof. repeat split. constructor. Qed.

Lemma relocated_cons (delta d v : Z) (ds : list Z) (m m' : list byte) :
  0 <= d -> d + 8 <= len m ->
  load64 m d = Ret v ->
  Forall (apart d) ds ->
  relocated delta ds (splice m d (le_split 8 (wrap64 (v + delta)))) m' ->
  relocated delta (d :: ds) m m'.
Proof.
  intros H0 H1 Hv Hap (Hlen & Hframe & Hds).
  set (u := le_split 8 (wrap64 (v + delta))) in *.
  assert (Hl8 : len u = 8) by (unfold len, u; rewrite length_le_split; reflexivity).
  assert (Hl1 : len (splice m d u) = len m) by (apply len_splice; lia).
  split; [ congruence | split ].
  - intros i Hi. inversion Hi as [ | ? ? Hid Hi' ]; subst.
    rewrite (Hframe i Hi'). apply byte_at_splice_outside; lia.
  - constructor.
    + exists v. split; [ exact Hv | ].
      assert (Hsame : load64 m' d = load64 (splice m d u) d).
      { apply load_ext; [ exact Hlen | ].
        intros i Hi. apply Hframe. rewrite Forall_forall in *.
        intros d' Hin. specialize (Hap d' Hin). unfold apart in Hap. lia. }
      rewrite Hsame. unfold u.
      rewrite <- (wrap64_small (wrap64 (v + delta))) at 2
        by (unfold wrap64; apply Z.mod_pos_bound; lia).
      apply load64_splice_same; lia.
    + rewrite Forall_forall in *. intros d' Hin.
      destruct (Hds d' Hin) as (v' & Hv1 & Hv').
      exists v'. split; [ | exact Hv' ].
      rewrite <- Hv1. symmetry. unfold load64.
      apply load_splice_disjoint; [ lia | lia | ].
      specialize (Hap d' Hin). unfold apart in Hap. lia.
Qed.

Lemma relocated_app (delta : Z) (ds1 ds2 : list Z) (m m1 m2 : list byte) :
  relocated delta ds1 m m1 -> relocated delta ds2 m1 m2 ->
  Forall (fun d1 => Forall (apart d1) ds2) ds1 ->
  relocated delta (ds1 ++ ds2) m m2.
Proof.
  intros (Hl1 & Hf1 & Hd1) (Hl2 & Hf2 & Hd2) Hap.
  split; [ congruence | split ].
  - intros i Hi. apply Forall_app in Hi as [Hi1 Hi2].
    rewrite (Hf2 i Hi2). apply Hf1. exact Hi1.
  - apply Forall_app. split.
    + rewrite Forall_forall in *. intros d Hin.
      destruct (Hd1 d Hin) as (v & Hv & Hv1). exists v. split; [ exact Hv | ].
      rewrite <- Hv1. apply load_ext; [ exact Hl2 | ].
      intros i Hi. apply Hf2. rewrite Forall_forall. intros d' Hin'.
      specialize (Hap d Hin). rewrite Forall_forall in Hap.
      specialize (Hap d' Hin'). unfold apart in Hap. lia.
    + rewrite Forall_forall in *. intros d Hin.
      destruct (Hd2 d Hin) as (v & Hv & Hv2). exists v. split; [ | exact Hv2 ].
      rewrite <- Hv. symmetry. apply load_ext; [ exact Hl1 | ].
      intros i Hi. apply Hf1. rewrite Forall_forall. intros d' Hin'.
      specialize (Hap d' Hin'). rewrite Forall_forall in Hap.
      specialize (Hap d Hin). unfold apart in Hap. lia.
Qed.

(** The loop over the entries of one block. *)
Lemma reloc_entries_relocates (imageSize delta rt va : Z) (es : list Z) :
  forall (reloc : Z) (w : world) (n : nat),
    load32 (region w) (rt + off_rel_VirtualAddress) = Ret va ->
    entry_array (region w) reloc es ->
    Forall (fun e => entry_target va e < imageSize) es ->
    Forall (fun d => d + 8 <= len (region w) /\
                     clear_of rt (rt + 4) d /\
                     clear_of reloc (reloc + 2 * (Z.of_nat (length es) + 1)) d)
           (dir64_targets va es) ->
    ForallOrdPairs apart (dir64_targets va es) ->
    (length es < n)%nat ->
    exists m',
      ModuleLoader.reloc_entries n imageSize delta rt reloc w
      = Ret (tt, {| trace := trace w; region := m' |}) /\
      relocated delta (dir64_targets va es) (region w) m'.
Proof.
  induction es as [ | e es IH ]; intros reloc w n Hva Harr Hidx Htg Hap Hn.
  - inversion Harr as [ ? Hend | ]; subst. destruct n as [ | n ]; [ cbn in Hn; lia | ].
    exists (region w). split; [ | apply relocated_nil ].
    cbn [ModuleLoader.reloc_entries]. unfold mbind at 1.
    rewrite (read_ok 2 reloc 0 w Hend). destruct w; reflexivity.
  - inversion Harr as [ | ? ? ? He Hnz Hrest ]; subst.
    inversion Hidx as [ | ? ? Hidx0 Hidx' ]; subst.
    destruct n as [ | n ]; [ cbn in Hn; lia | ].
    cbn [length] in *.
    assert (Ht0 : 0 <= entry_target va e)
      by (unfold entry_target, wrap32; apply Z.mod_pos_bound; lia).
    cbn [ModuleLoader.reloc_entries]. unfold mbind at 1. rewrite (read_ok 2 _ e w He).
    replace (e =? 0) with false by (symmetry; apply Z.eqb_neq; exact Hnz).
    unfold mbind at 1. rewrite (read_ok 4 _ va w Hva).
    unfold mbind at 1. fold (entry_target va e).
    rewrite (index_ok imageSize (entry_target va e) w) by lia.
    unfold mbind at 1. fold (is_DIR64 e).
    unfold dir64_targets in *. cbn [filter] in *.
    destruct (is_DIR64 e) eqn:Edir.
    + cbn [map] in *.
      inversion Htg as [ | ? ? (Hfit & Hrt & Htab) Htg' ]; subst.
      inversion Hap as [ | ? ? Hap0 Hap' ]; subst.
      unfold clear_of in Hrt, Htab.
      destruct (load_ok 8 (region w) (entry_target va e)) as [v Hv]; [ lia | lia | lia | ].
      unfold mbind at 1. rewrite (read_ok 8 _ v w Hv).
      rewrite write64_ok by lia.
      set (w1 := {| trace := trace w;
                    region := splice (region w) (entry_target va e)
                                     (le_split 8 (wrap64 (v + delta))) |}).
      assert (Hl8 : len (le_split 8 (wrap64 (v + delta))) = 8)
        by (unfold len; rewrite length_le_split; reflexivity).
      destruct (IH (reloc + 2) w1 n) as (m' & Hrun & Hrel).
      * cbn [region w1]. unfold load32. rewrite load_splice_disjoint; [ exact Hva | lia | lia | ].
        unfold off_rel_VirtualAddress. lia.
      * cbn [region w1]. apply entry_array_splice; try assumption; rewrite ?Hl8; lia.
      * exact Hidx'.
      * cbn [region w1]. rewrite len_splice by (rewrite ?Hl8; lia).
        eapply Forall_impl; [ | exact Htg' ].
        intros d (Hd1 & Hd2 & Hd3). unfold clear_of in *. repeat split; lia.
      * exact Hap'.
      * lia.
      * exists m'. split; [ exact Hrun | ].
        apply (relocated_cons delta _ v); try assumption; try lia.
    + destruct (IH (reloc + 2) w n) as (m' & Hrun & Hrel); try assumption; try lia.
      * eapply Forall_impl; [ | exact Htg ].
        intros d (Hd1 & Hd2 & Hd3). unfold clear_of in *. repeat split; lia.
      * exists m'. split; [ | exact Hrel ].
        unfold mret. exact Hrun.
Qed.

Lemma entry_array_ext (m m' : list byte) (es : list Z) :
  forall off,
    entry_array m off es ->
    len m' = len m ->
    (forall i, off <= i < off + 2 * (Z.of_nat (length es) + 1) -> byte_at m' i = byte_at m i) ->
    entry_array m' off es.
Proof.
  induction es as [ | e es IH ]; intros off H Hl Hb; inversion H; subst; cbn [length] in Hb.
  - apply entries_end. unfold load16 in *.
    rewrite (load_ext 2 m' m off Hl); [ assumption | ]. intros i Hi. apply Hb. lia.
  - apply entries_next; [ | assumption | ].
    + unfold load16 in *.
      rewrite (load_ext 2 m' m off Hl); [ assumption | ]. intros i Hi. apply Hb. lia.
    + apply IH; try assumption. intros i Hi. apply Hb. lia.
Qed.

Lemma block_table_tend (m : list byte) (rt : Z) (blocks : list (Z * list Z)) (tend : Z) :
  block_table m rt blocks tend -> rt <= tend.
Proof.
  induction 1 as [ | rt va sz es rest tend _ _ _ _ Hsz _ IH ]; [ lia | ].
  unfold sizeof_IMAGE_BASE_RELOCATION in Hsz. lia.
Qed.

Lemma block_table_ext (m m' : list byte) (rt : Z) (blocks : list (Z * list Z)) (tend : Z) :
  block_table m rt blocks tend ->
  len m' = len m ->
  (forall i, rt <= i < tend + 4 -> byte_at m' i = byte_at m i) ->
  block_table m' rt blocks tend.
Proof.
  induction 1 as [ rt Hva | rt va sz es rest tend Hva Hnz Hes Hsz Hle Hrest IH ]; intros Hl Hb.
  - apply blocks_end. unfold load32, off_rel_VirtualAddress in *.
    rewrite (load_ext 4 m' m _ Hl); [ assumption | ]. intros i Hi. apply Hb. lia.
  - pose proof (block_table_tend _ _ _ _ Hrest) as Htend.
    unfold sizeof_IMAGE_BASE_RELOCATION, off_rel_VirtualAddress, off_rel_SizeOfBlock in *.
    apply (blocks_next m' rt va sz es rest tend).
    + unfold load32, off_rel_VirtualAddress in *.
      rewrite (load_ext 4 m' m _ Hl); [ assumption | ]. intros i Hi. apply Hb. lia.
    + exact Hnz.
    + apply (entry_array_ext m m'); try assumption.
      unfold sizeof_IMAGE_BASE_RELOCATION. intros i Hi. apply Hb. lia.
    + unfold load32, off_rel_SizeOfBlock in *.
      rewrite (load_ext 4 m' m _ Hl); [ assumption | ]. intros i Hi. apply Hb. lia.
    + unfold sizeof_IMAGE_BASE_RELOCATION. exact Hle.
    + apply IH; [ exact Hl | ]. intros i Hi. apply Hb. lia.
Qed.

Lemma ForallOrdPairs_app_inv {A : Type} (R : A -> A -> Prop) (l1 l2 : list A) :
  ForallOrdPairs R (l1 ++ l2) ->
  ForallOrdPairs R l1 /\ ForallOrdPairs R l2 /\ Forall (fun a => Forall (R a) l2) l1.
Proof.
  induction l1 as [ | a l1 IH ]; cbn [app]; intros H.
  - repeat split; [ constructor | exact H | constructor ].
  - inversion H as [ | ? ? Ha Hrest ]; subst.
    apply Forall_app in Ha as [Ha1 Ha2].
    destruct (IH Hrest) as (H1 & H2 & H12).
    repeat split; [ constructor; assumption | exact H2 | constructor; assumption ].
Qed.

Lemma relocated_clear (delta : Z) (ds : list Z) (m m' : list byte) (lo hi : Z) :
  relocated delta ds m m' -> Forall (clear_of lo hi) ds ->
  forall i, lo <= i < hi -> byte_at m' i = byte_at m i.
Proof.
  intros (_ & Hframe & _) Hc i Hi. apply Hframe.
  eapply Forall_impl; [ | exact Hc ]. intros d Hd. unfold clear_of in Hd. lia.
Qed.

(** The loop over the blocks. *)
Lemma reloc_blocks_relocates (fuel : nat) (imageSize delta : Z) (blocks : list (Z * list Z)) :
  forall (rt tend : Z) (w : world) (n : nat),
    block_table (region w) rt blocks tend ->
    Forall (fun b => Forall (fun e => entry_target (fst b) e < imageSize) (snd b)) blocks ->
    Forall (fun d => d + 8 <= len (region w) /\ clear_of rt (tend + 4) d)
           (table_targets blocks) ->
    ForallOrdPairs apart (table_targets blocks) ->
    Forall (fun b => (length (snd b) < fuel)%nat) blocks ->
    (length blocks < n)%nat ->
    exists m',
      ModuleLoader.reloc_blocks fuel n imageSize delta rt w
      = Ret (tt, {| trace := trace w; region := m' |}) /\
      relocated delta (table_targets blocks) (region w) m'.
Proof.
  induction blocks as [ | [va es] rest IH ]; intros rt tend w n Htab Hidx Htg Hap Hfuel Hn.
  - inversion Htab as [ ? Hva | ]; subst. destruct n as [ | n ]; [ cbn in Hn; lia | ].
    exists (region w). split; [ | apply relocated_nil ].
    cbn [ModuleLoader.reloc_blocks]. unfold mbind at 1. rewrite (read_ok 4 _ 0 w Hva).
    destruct w; reflexivity.
  - inversion Htab as [ | ? ? sz ? ? ? Hva Hnz Hes Hsz Hle Hrest ]; subst.
    inversion Hidx as [ | ? ? Hidx0 Hidx' ]; subst.
    inversion Hfuel as [ | ? ? Hfuel0 Hfuel' ]; subst.
    destruct n as [ | n ]; [ cbn in Hn; lia | ].
    cbn [length fst snd] in *.
    pose proof (block_table_tend _ _ _ _ Hrest) as Htend.
    unfold sizeof_IMAGE_BASE_RELOCATION in Hle.
    cbn [table_targets flat_map fst snd] in Htg, Hap |- *. fold (table_targets rest) in *.
    apply Forall_app in Htg as [Htg0 Htg'].
    apply ForallOrdPairs_app_inv in Hap as (Hap0 & Hap' & Hcross).
    destruct (reloc_entries_relocates imageSize delta rt va es
                (rt + sizeof_IMAGE_BASE_RELOCATION) w fuel Hva Hes Hidx0)
      as (m1 & Hrun1 & Hrel1).
    { eapply Forall_impl; [ | exact Htg0 ].
      unfold sizeof_IMAGE_BASE_RELOCATION.
      intros d (Hd1 & Hd2). unfold clear_of in *. repeat split; lia. }
    { exact Hap0. }
    { exact Hfuel0. }
    assert (Hclear0 : Forall (clear_of rt (tend + 4)) (dir64_targets va es)).
    { eapply Forall_impl; [ | exact Htg0 ]. intros d [_ Hd]. exact Hd. }
    pose proof (relocated_clear _ _ _ _ _ _ Hrel1 Hclear0) as Hsame.
    pose proof Hrel1 as (Hlen1 & _ & _).
    set (w1 := {| trace := trace w; region := m1 |}).
    destruct (IH (rt + sz) tend w1 n) as (m' & Hrun & Hrel).
    { cbn [region w1]. apply (block_table_ext (region w)); try assumption.
      intros i Hi. apply Hsame. lia. }
    { exact Hidx'. }
    { cbn [region w1]. rewrite Hlen1. eapply Forall_impl; [ | exact Htg' ].
      intros d (Hd1 & Hd2). unfold clear_of in *. split; lia. }
    { exact Hap'. }
    { exact Hfuel'. }
    { lia. }
    exists m'. split.
    + cbn [ModuleLoader.reloc_blocks]. unfold mbind at 1. rewrite (read_ok 4 _ va w Hva).
      replace (va =? 0) with false by (symmetry; apply Z.eqb_neq; exact Hnz).
      unfold mbind at 1. rewrite Hrun1. fold w1.
      assert (Hsz1 : load 4 (region w1) (rt + off_rel_SizeOfBlock) = Ret sz).
      { cbn [region w1]. unfold load32 in Hsz. rewrite <- Hsz.
        apply load_ext; [ exact Hlen1 | ].
        unfold off_rel_SizeOfBlock. intros i Hi. apply Hsame. lia. }
      unfold mbind at 1. rewrite (read_ok 4 _ sz w1 Hsz1). exact Hrun.
    + apply (relocated_app delta _ _ (region w) m1 m'); assumption.
Qed.

Lemma zero_sized_block_never_ends_witness :
  ModuleLoader.RelocateBase 7
    (Module_.mk Sample.mapped_base 0xCC (Some 0) (Some 0) [] [] Success true) 1
    {| trace := []; region := Sample.stuck_table |}
  = OutOfFuel.
Proof.
  apply (zero_sized_block_never_ends
           (Module_.mk Sample.mapped_base 0xCC (Some 0) (Some 0) [] [] Success true)
           {| trace := []; region := Sample.stuck_table |} 0 8 0xC0 0x1000 1).
  - reflexivity.
  - vm_compute; reflexivity.
  - vm_compute; reflexivity.
  - discriminate.
  - vm_compute; reflexivity.
  - discriminate.
  - vm_compute; reflexivity.
  - vm_compute; reflexivity.
Defined.

(** X16. [RelocateBase] on a table it reads as intended. Let the
    relocation directory of the mapped image be present and hold blocks
    each of which ends its entries with a zero entry inside its
    [SizeOfBlock], followed by a block of page RVA 0. If every entry
    names an offset below the image size, the DIR64 entries name 64-bit
    locations that lie in the region, do not overlap the table and do not
    overlap one another, and the fuel exceeds the number of blocks and of
    entries per block, then [RelocateBase] returns without any host call,
    the value at each location named by a DIR64 entry is its former value
    plus delta modulo [2^64], and every byte outside these locations is
    unchanged; entries of other types change nothing. *)
Theorem RelocateBase_adds_delta_once (fuel : nat) (m : Module_.t) (w : world)
        (nt dirsize rt tend delta : Z) (blocks : list (Z * list Z))
  (Hnt : Module_._ntHeader m = Some nt)
  (Hdir : load32 (region w) (nt + (off_DataDirectory + 8 * IMAGE_DIRECTORY_ENTRY_BASERELOC))
          = Ret rt)
  (Hsz : load32 (region w) (nt + (off_DataDirectory + 8 * IMAGE_DIRECTORY_ENTRY_BASERELOC + 4))
         = Ret dirsize)
  (Hpresent : dirsize <> 0)
  (Htab : block_table (region w) rt blocks tend)
  (Hidx : Forall (fun b => Forall (fun e => entry_target (fst b) e < Module_._imageSize m)
                                  (snd b)) blocks)
  (Htg : Forall (fun d => d + 8 <= len (region w) /\ clear_of rt (tend + 4) d)
                (table_targets blocks))
  (Hap : ForallOrdPairs apart (table_targets blocks))
  (Hfuel : Forall (fun b => (length (snd b) < fuel)%nat) blocks)
  (Hn : (length blocks < fuel)%nat) :
  exists m',
    ModuleLoader.RelocateBase fuel m delta w = Ret (tt, {| trace := trace w; region := m' |}) /\
    relocated delta (table_targets blocks) (region w) m'.
Proof.
  destruct (reloc_blocks_relocates fuel (Module_._imageSize m) delta blocks rt tend w fuel
              Htab Hidx Htg Hap Hfuel Hn) as (m' & Hrun & Hrel).
  exists m'. split; [ | exact Hrel ].
  unfold ModuleLoader.RelocateBase, Module_.RelocationDirectory,
    Module_.FetchDataDirectory, Module_.nt_field. rewrite Hnt.
  unfold mbind at 1. unfold mbind at 1. rewrite (read_ok 4 _ rt w Hdir).
  unfold mbind at 1. rewrite (read_ok 4 _ dirsize w Hsz).
  replace (dirsize =? 0) with false by (symmetry; apply Z.eqb_neq; exact Hpresent).
  unfold mret. exact Hrun.
Qed.

Lemma RelocateBase_adds_delta_once_witness :
  exists m',
    ModuleLoader.RelocateBase 4
      (Module_.mk Sample.mapped_base 0x108 (Some 0) (Some 0) [] [] Success true) 0x1000
      {| trace := []; region := Sample.padded_table |}
    = Ret (tt, {| trace := []; region := m' |}) /\
    relocated 0x1000 [0x100] Sample.padded_table m'.
Proof.
  apply (RelocateBase_adds_delta_once 4
           (Module_.mk Sample.mapped_base 0x108 (Some 0) (Some 0) [] [] Success true)
           {| trace := []; region := Sample.padded_table |}
           0 0x14 0xC0 0xCC 0x1000 [(0x100, [0xA000])]).
  - reflexivity.
  - vm_compute; reflexivity.
  - vm_compute; reflexivity.
  - discriminate.
  - apply (blocks_next _ 0xC0 0x100 12 [0xA000] [] 0xCC).
    + vm_compute; reflexivity.
    + discriminate.
    + apply entries_next; [ vm_compute; reflexivity | discriminate | ].
      apply entries_end. vm_compute; reflexivity.
    + vm_compute; reflexivity.
    + vm_compute; discriminate.
    + apply blocks_end. vm_compute; reflexivity.
  - repeat constructor.
  - constructor; [ | constructor ].
    split; [ vm_compute; discriminate | right; vm_compute; discriminate ].
  - repeat constructor.
  - repeat constructor.
  - cbn; lia.
Defined.

(** ** Loader: the calls that acquire and release the region *)

Section Silent.

Variable p : event -> bool.

Lemma silent_mret {A : Type} (a : A) : silent p (mret a).
Proof.
  intros w a' w' [= <- <-]. exists []. rewrite app_nil_r. split; reflexivity.
Qed.

Lemma silent_lift {A : Type} (r : result A) : silent p (lift r).
Proof.
  intros w a w'. unfold lift. destruct r; try discriminate.
  intros [= <- <-]. exists []. rewrite app_nil_r. split; reflexivity.
Qed.

Lemma silent_bind {A B : Type} (c : M A) (k : A -> M B) :
  silent p c -> (forall a, silent p (k a)) -> silent p (mbind c k).
Proof.
  intros Hc Hk w b w'' H. apply mbind_Ret in H as (a & w' & H1 & H2).
  apply Hc in H1 as (t1 & E1 & Q1). apply Hk in H2 as (t2 & E2 & Q2).
  exists (t1 ++ t2). split.
  - rewrite E2, E1, app_assoc. reflexivity.
  - rewrite existsb_app, Q1, Q2. reflexivity.
Qed.

Lemma silent_emit (e : event) : p e = false -> silent p (emit e).
Proof.
  intros He w a w' [= <- <-]. exists [e]. split; [ reflexivity | ].
  cbn. rewrite He. reflexivity.
Qed.

Lemma silent_get_trace : silent p get_trace.
Proof. intros w a w' [= <- <-]. exists []. rewrite app_nil_r. split; reflexivity. Qed.

Lemma silent_get_region : silent p get_region.
Proof. intros w a w' [= <- <-]. exists []. rewrite app_nil_r. split; reflexivity. Qed.

Lemma silent_set_region (m : list byte) : silent p (set_region m).
Proof. intros w a w' [= <- <-]. exists []. cbn. rewrite app_nil_r. split; reflexivity. Qed.

Lemma silent_if {A : Type} (b : bool) (c1 c2 : M A) :
  silent p c1 -> silent p c2 -> silent p (if b then c1 else c2).
Proof. destruct b; auto. Qed.

Ltac silence :=
  repeat first
    [ apply silent_mret | apply silent_lift | apply silent_get_trace
    | apply silent_get_region | apply silent_set_region
    | apply silent_bind; [ | intro ]
    | apply silent_if
    | match goal with |- silent _ (match ?x with None => _ | Some _ => _ end) => destruct x end
    | assumption ].

Lemma silent_read (n off : Z) : silent p (read n off).
Proof. unfold read. silence. Qed.

Lemma silent_write64 (off v : Z) : silent p (write64 off v).
Proof. unfold write64. silence. Qed.

Lemma silent_index (size i : Z) : silent p (index size i).
Proof. unfold index. silence. Qed.

Lemma silent_nt_field (m : Module_.t) (width off : Z) : silent p (Module_.nt_field m width off).
Proof. unfold Module_.nt_field. destruct (Module_._ntHeader m); [ apply silent_read | silence ]. Qed.

Lemma silent_FetchDataDirectory (m : Module_.t) (i : Z) :
  silent p (Module_.FetchDataDirectory m i).
Proof.
  unfold Module_.FetchDataDirectory.
  apply silent_bind; [ apply silent_nt_field | intro ].
  apply silent_bind; [ apply silent_nt_field | intro ]. silence.
Qed.

Lemma silent_make (base imageSize : Z) : silent p (Module_.make base imageSize).
Proof.
  unfold Module_.make. cbv zeta.
  repeat first [ apply silent_read | apply silent_write64 | apply silent_mret
               | apply silent_bind; [ | intro ] | apply silent_if ].
Qed.

Hypothesis p_LoadLibraryA : forall dll ret, p (EvLoadLibraryA dll ret) = false.
Hypothesis p_GetProcAddress : forall module sym ret, p (EvGetProcAddress module sym ret) = false.
Hypothesis p_VirtualProtect : forall a s n ret, p (EvVirtualProtect a s n ret) = false.
Hypothesis p_TlsCallback : forall cb base, p (EvTlsCallback cb base) = false.
Hypothesis p_FreeLibrary : forall module, p (EvFreeLibrary module) = false.

Ltac silence_more :=
  repeat first
    [ apply silent_read | apply silent_write64 | apply silent_index | apply silent_mret
    | apply silent_lift | apply silent_get_trace | apply silent_get_region
    | apply silent_nt_field
    | apply silent_emit; [ solve [ auto ] ]
    | apply silent_bind; [ | intro ]
    | apply silent_if
    | assumption ].

Lemma silent_thunk_loop (host : Host) (n : nat) :
  forall imageSize module OFT IAT,
    silent p (ModuleLoader.thunk_loop host n imageSize module OFT IAT).
Proof.
  induction n as [ | n IH ]; intros; cbn [ModuleLoader.thunk_loop];
    unfold callGetProcAddress; silence_more. apply IH.
Qed.

Lemma silent_descriptor_loop (host : Host) (fuel n : nat) :
  forall m d, silent p (ModuleLoader.descriptor_loop host fuel n m d).
Proof.
  induction n as [ | n IH ]; intros; cbn [ModuleLoader.descriptor_loop]; cbv zeta;
    unfold callLoadLibraryA; silence_more.
  - apply silent_thunk_loop.
  - apply IH.
Qed.

Lemma silent_BuildIAT (host : Host) (fuel : nat) (m : Module_.t) :
  silent p (ModuleLoader.BuildIAT host fuel m).
Proof.
  unfold ModuleLoader.BuildIAT, Module_.ImportDirectory.
  apply silent_bind; [ apply silent_FetchDataDirectory | intros [d | ] ].
  - apply silent_descriptor_loop.
  - apply silent_mret.
Qed.

Lemma silent_reloc_entries (n : nat) :
  forall imageSize delta relocTable reloc,
    silent p (ModuleLoader.reloc_entries n imageSize delta relocTable reloc).
Proof.
  induction n as [ | n IH ]; intros; cbn [ModuleLoader.reloc_entries]; silence_more. apply IH.
Qed.

Lemma silent_reloc_blocks (fuel n : nat) :
  forall imageSize delta relocTable,
    silent p (ModuleLoader.reloc_blocks fuel n imageSize delta relocTable).
Proof.
  induction n as [ | n IH ]; intros; cbn [ModuleLoader.reloc_blocks]; silence_more.
  - apply silent_reloc_entries.
  - apply IH.
Qed.

Lemma silent_RelocateBase (fuel : nat) (m : Module_.t) (delta : Z) :
  silent p (ModuleLoader.RelocateBase fuel m delta).
Proof.
  unfold ModuleLoader.RelocateBase, Module_.RelocationDirectory.
  apply silent_bind; [ apply silent_FetchDataDirectory | intros [d | ] ].
  - apply silent_reloc_blocks.
  - apply silent_mret.
Qed.

Lemma silent_FinalizeSection (host : Host) (m : Module_.t) :
  silent p (ModuleLoader.FinalizeSection host m).
Proof.
  unfold ModuleLoader.FinalizeSection.
  induction (Module_.SectionHeaders m) as [ | sh rest IH ];
    cbn [ModuleLoader.protect_sections]; unfold callVirtualProtect; silence_more.
Qed.

Lemma silent_tls_loop (n : nat) :
  forall imageBase tlsCallbacks, silent p (ModuleLoader.tls_loop n imageBase tlsCallbacks).
Proof.
  induction n as [ | n IH ]; intros; cbn [ModuleLoader.tls_loop]; silence_more. apply IH.
Qed.

Lemma silent_RunTLSCallbacks (fuel : nat) (m : Module_.t) :
  silent p (ModuleLoader.RunTLSCallbacks fuel m).
Proof.
  unfold ModuleLoader.RunTLSCallbacks, Module_.TLSDirectory.
  apply silent_bind; [ apply silent_FetchDataDirectory | intros [d | ] ].
  - apply silent_bind; [ apply silent_read | intro ]. apply silent_tls_loop.
  - apply silent_mret.
Qed.

Lemma silent_for_each_FreeLibrary (l : list Z) : silent p (for_each callFreeLibrary l).
Proof.
  induction l as [ | h l IH ]; cbn [for_each]; unfold callFreeLibrary; silence_more.
Qed.

End Silent.

Lemma region_calls_of_FreeLibrary (l : list Z) :
  existsb is_region_call (map EvFreeLibrary l) = false.
Proof. induction l as [ | h l IH ]; [ reflexivity | exact IH ]. Qed.

Lemma ends_released_bind {A B : Type} (base size : Z) (Q : A -> Prop)
      (c : M A) (k : A -> M B) :
  silent is_region_call c -> returns Q c ->
  (forall a, Q a -> ends_released base size (k a)) ->
  ends_released base size (mbind c k).
Proof.
  intros Hs Hq Hk w b w'' H. apply mbind_Ret in H as (a & w' & H1 & H2).
  pose proof (Hq _ _ _ H1) as HQ.
  apply Hs in H1 as (t1 & E1 & Q1). apply (Hk a HQ) in H2 as (t2 & E2 & Q2).
  exists (t1 ++ t2). split.
  - rewrite E2, E1, <- !app_assoc. reflexivity.
  - rewrite existsb_app, Q1, Q2. reflexivity.
Qed.

Lemma returns_any {A : Type} (c : M A) : returns (fun _ => True) c.
Proof. intros w a w' _. exact I. Qed.

Lemma ends_released_destroy {A : Type} (m : Module_.t) (x : A) :
  Module_._base m <> 0 ->
  ends_released (Module_._base m) (Module_._imageSize m)
                (mbind (Module_.destroy m) (fun _ => mret x)).
Proof.
  intros Hb w a w' H. unfold mbind, Module_.destroy, mbind in H.
  rewrite for_each_FreeLibrary in H.
  replace (Module_._base m =? 0) with false in H by (symmetry; apply Z.eqb_neq; exact Hb).
  cbn [negb] in H. unfold callVirtualFree, emit, mret in H. cbn [trace region] in H.
  injection H as _ <-. cbn [trace].
  exists (map EvFreeLibrary (Module_._importModules m)).
  split; [ rewrite <- app_assoc; reflexivity | apply region_calls_of_FreeLibrary ].
Qed.

Lemma callVirtualAlloc_run (host : Host) (size : Z) (w : world) :
  callVirtualAlloc host size w
  = Ret (VirtualAlloc host (trace w) size,
         {| trace := trace w ++ [EvVirtualAlloc size (VirtualAlloc host (trace w) size)];
            region := if VirtualAlloc host (trace w) size =? 0 then region w
                      else zeros size |}).
Proof.
  unfold callVirtualAlloc, mbind, get_trace, emit, mret, set_region. cbn [trace region].
  destruct (VirtualAlloc host (trace w) size =? 0); reflexivity.
Qed.

(** X17. The region calls of a load. Whenever [Load] returns on an ok
    parser, its first host call is the one [VirtualAlloc], of
    [SizeOfImage] bytes. If that returned null, the load is empty and
    made no other call. Otherwise the last call [Load] made before
    returning is the [VirtualFree] of that region, and between the two no
    region is allocated or freed: this holds when the load returns empty
    and also when it returns a module. *)
Theorem Load_allocates_once_and_frees_once (host : Host) (fuel : nat) (pe : PE.t)
        (w w' : world) (r : option Module_.t)
  (Hok : PE.Ok pe = true)
  (Hrun : ModuleLoader.Load host fuel pe w = Ret (r, w')) :
  exists size,
    PE.ImageSize pe = Ret size /\
    let base := VirtualAlloc host (trace w) size in
    (base = 0 -> r = None /\ trace w' = trace w ++ [EvVirtualAlloc size 0]) /\
    (base <> 0 ->
     exists t, trace w' = trace w ++ EvVirtualAlloc size base :: t ++ [EvVirtualFree base size] /\
               existsb is_region_call t = false).
Proof.
  unfold ModuleLoader.Load in Hrun. rewrite Hok in Hrun. cbn [negb] in Hrun.
  apply mbind_Ret in Hrun as (size & w0 & Hsize & Hrun).
  unfold lift in Hsize. destruct (PE.ImageSize pe) as [size' | | ]; try discriminate.
  injection Hsize as -> <-.
  exists size. split; [ reflexivity | ].
  apply mbind_Ret in Hrun as (base & w1 & Halloc & Hrun).
  rewrite callVirtualAlloc_run in Halloc. injection Halloc as <- <-.
  cbv zeta. set (base := VirtualAlloc host (trace w) size) in *.
  split.
  - intros H0. rewrite H0 in Hrun. cbn [Z.eqb] in Hrun. injection Hrun as <- <-.
    split; reflexivity.
  - intros Hnz.
    replace (base =? 0) with false in Hrun by (symmetry; apply Z.eqb_neq; exact Hnz).
    assert (Hrest : forall m0,
               Module_._base m0 = base /\ Module_._imageSize m0 = size ->
               ends_released base size
                 (if negb (Module_.Ok m0) then ModuleLoader.fail_after_mod m0 else
                  built <~ ModuleLoader.BuildIAT host fuel m0 ;;
                  if negb (fst built) then ModuleLoader.fail_after_mod (snd built) else
                  mapped_base <~ Module_.nt_field (snd built) 8 off_ImageBase ;;
                  preferred_base <~ lift (PE.ImageBase pe) ;;
                  _ <~ (if negb (wrap64 (mapped_base - preferred_base) =? 0)
                        then ModuleLoader.RelocateBase fuel (snd built)
                               (wrap64 (mapped_base - preferred_base))
                        else mret tt) ;;
                  finalized <~ ModuleLoader.FinalizeSection host (snd built) ;;
                  if negb finalized then ModuleLoader.fail_after_mod (snd built) else
                  _ <~ ModuleLoader.RunTLSCallbacks fuel (snd built) ;;
                  ModuleLoader.return_mod (snd built))).
    { intros m0 [Hb0 Hs0].
      assert (Hterm : forall m1 (x : option Module_.t),
                 Module_._base m1 = base -> Module_._imageSize m1 = size ->
                 ends_released base size (mbind (Module_.destroy m1) (fun _ => mret x))).
      { intros m1 x Hb1 Hs1. rewrite <- Hb1, <- Hs1. apply ends_released_destroy. congruence. }
      destruct (negb (Module_.Ok m0)); [ apply Hterm; assumption | ].
      apply (ends_released_bind base size
               (fun built => Module_._base (snd built) = Module_._base m0 /\
                             Module_._imageSize (snd built) = Module_._imageSize m0)).
      { apply silent_BuildIAT; reflexivity. }
      { apply BuildIAT_base. }
      intros built [Hb1 Hs1].
      destruct (negb (fst built)); [ apply Hterm; congruence | ].
      apply (ends_released_bind base size (fun _ => True));
        [ apply silent_nt_field | apply returns_any | intros mapped _ ].
      apply (ends_released_bind base size (fun _ => True));
        [ apply silent_lift | apply returns_any | intros preferred _ ].
      apply (ends_released_bind base size (fun _ => True));
        [ apply silent_if; [ apply silent_RelocateBase | apply silent_mret ]
        | apply returns_any | intros _ _ ].
      apply (ends_released_bind base size (fun _ => True));
        [ apply silent_FinalizeSection; reflexivity | apply returns_any | intros finalized _ ].
      destruct (negb finalized); [ apply Hterm; congruence | ].
      apply (ends_released_bind base size (fun _ => True));
        [ apply silent_RunTLSCallbacks; reflexivity | apply returns_any | intros _ _ ].
      apply Hterm; congruence. }
    assert (Hall : ends_released base size
              (buffer <~ get_region ;;
               bw <~ lift (ModuleLoader.copy_image pe (BinaryWriter.make buffer size)) ;;
               _ <~ set_region (BinaryWriter.Buffer bw) ;;
               m0 <~ Module_.make base size ;;
               if negb (Module_.Ok m0) then ModuleLoader.fail_after_mod m0 else
               built <~ ModuleLoader.BuildIAT host fuel m0 ;;
               if negb (fst built) then ModuleLoader.fail_after_mod (snd built) else
               mapped_base <~ Module_.nt_field (snd built) 8 off_ImageBase ;;
               preferred_base <~ lift (PE.ImageBase pe) ;;
               _ <~ (if negb (wrap64 (mapped_base - preferred_base) =? 0)
                     then ModuleLoader.RelocateBase fuel (snd built)
                            (wrap64 (mapped_base - preferred_base))
                     else mret tt) ;;
               finalized <~ ModuleLoader.FinalizeSection host (snd built) ;;
               if negb finalized then ModuleLoader.fail_after_mod (snd built) else
               _ <~ ModuleLoader.RunTLSCallbacks fuel (snd built) ;;
               ModuleLoader.return_mod (snd built))).
    { apply (ends_released_bind base size (fun _ => True));
        [ apply silent_get_region | apply returns_any | intros buffer _ ].
      apply (ends_released_bind base size (fun _ => True));
        [ apply silent_lift | apply returns_any | intros bw _ ].
      apply (ends_released_bind base size (fun _ => True));
        [ apply silent_set_region | apply returns_any | intros _ _ ].
      apply (ends_released_bind base size
               (fun m0 => Module_._base m0 = base /\ Module_._imageSize m0 = size));
        [ apply silent_make | apply make_base | exact Hrest ]. }
    apply Hall in Hrun as (t & Ht & Hq). cbn [trace] in Ht.
    exists t. split; [ | exact Hq ].
    rewrite Ht, <- app_assoc. reflexivity.
Qed.

Lemma Load_allocates_once_and_frees_once_witness :
  exists size,
    PE.ImageSize (accepted Sample.importer 64 1 240) = Ret size /\
    let base := VirtualAlloc Sample.unresolving [] size in
    (base = 0 -> @None Module_.t = None /\
                 [EvVirtualAlloc 0x2000 Sample.mapped_base;
                  EvLoadLibraryA (String.list_byte_of_string "a.dll") Sample.a_dll_handle;
                  EvGetProcAddress Sample.a_dll_handle
                                   (ByName (String.list_byte_of_string "f")) 0;
                  EvVirtualFree Sample.mapped_base 0x2000]
                 = [] ++ [EvVirtualAlloc size 0]) /\
    (base <> 0 ->
     exists t, [EvVirtualAlloc 0x2000 Sample.mapped_base;
                EvLoadLibraryA (String.list_byte_of_string "a.dll") Sample.a_dll_handle;
                EvGetProcAddress Sample.a_dll_handle
                                 (ByName (String.list_byte_of_string "f")) 0;
                EvVirtualFree Sample.mapped_base 0x2000]
               = [] ++ EvVirtualAlloc size base :: t ++ [EvVirtualFree base size] /\
               existsb is_region_call t = false).
Proof.
  exact (Load_allocates_once_and_frees_once Sample.unresolving 16
           (accepted Sample.importer 64 1 240) start
           {| trace := [EvVirtualAlloc 0x2000 Sample.mapped_base;
                        EvLoadLibraryA (String.list_byte_of_string "a.dll") Sample.a_dll_handle;
                        EvGetProcAddress Sample.a_dll_handle
                                         (ByName (String.list_byte_of_string "f")) 0;
                        EvVirtualFree Sample.mapped_base 0x2000];
              region := match region_of (ModuleLoader.Load Sample.unresolving 16
                                           (accepted Sample.importer 64 1 240) start) with
                        | Some m => m
                        | None => []
                        end |}
           None eq_refl ltac:(vm_compute; reflexivity)).
Defined.

(** ** Loader: which library handles get recorded *)

Lemma index_Ret (size i : Z) (w w' : world) (a : Z) :
  index size i w = Ret (a, w') -> w' = w.
Proof.
  unfold index. destruct ((0 <=? i) && (i <? size)); [ | discriminate ].
  intros [= _ <-]. reflexivity.
Qed.

Lemma lift_Ret {A : Type} (r : result A) (w w' : world) (a : A) :
  lift r w = Ret (a, w') -> w' = w.
Proof. unfold lift. destruct r; try discriminate. intros [= _ <-]. reflexivity. Qed.

Lemma loaded_app (t1 t2 : list event) : loaded (t1 ++ t2) = loaded t1 ++ loaded t2.
Proof. unfold loaded. apply flat_map_app. Qed.

Lemma loaded_silent (t : list event) : existsb is_LoadLibraryA t = false -> loaded t = [].
Proof.
  induction t as [ | e t IH ]; [ reflexivity | ].
  cbn [existsb]. intros H. apply orb_false_iff in H as [He Ht].
  destruct e; try discriminate; cbn; apply IH; exact Ht.
Qed.

Lemma thunk_loop_loads_nothing (host : Host) (n : nat) (imageSize module OFT IAT : Z)
      (w w' : world) (b : bool) :
  ModuleLoader.thunk_loop host n imageSize module OFT IAT w = Ret (b, w') ->
  exists t, trace w' = trace w ++ t /\ loaded t = [].
Proof.
  intros H.
  apply (silent_thunk_loop is_LoadLibraryA ltac:(reflexivity)) in H as (t & Ht & Hq).
  exists t. split; [ exact Ht | apply loaded_silent; exact Hq ].
Qed.

Lemma descriptor_loop_records (host : Host) (fuel n : nat) :
  forall (m : Module_.t) (d : Z) (w w' : world) (ok : bool) (m' : Module_.t),
    ModuleLoader.descriptor_loop host fuel n m d w = Ret ((ok, m'), w') ->
    exists t hs,
      trace w' = trace w ++ t /\
      Module_._importModules m' = Module_._importModules m ++ hs /\
      Forall (fun h => h <> 0) hs /\
      (ok = true -> loaded t = hs) /\
      (ok = false -> exists h, loaded t = hs ++ [h]).
Proof.
  induction n as [ | n IH ]; intros m d w w' ok m' H; [ discriminate | ].
  cbn [ModuleLoader.descriptor_loop] in H. cbv zeta in H.
  apply mbind_Ret in H as (c & w0 & Hc & H). apply read_Ret in Hc as [-> _].
  destruct (c =? 0).
  { injection H as <- <- <-. exists [], []. rewrite !app_nil_r.
    repeat split; [ constructor | discriminate ]. }
  apply mbind_Ret in H as (name & w0 & Hs1 & H). apply read_Ret in Hs1 as [-> _].
  apply mbind_Ret in H as (dll_at & w0 & Hs2 & H). apply index_Ret in Hs2 as ->.
  apply mbind_Ret in H as (rg & w0 & Hs3 & H). injection Hs3 as _ <-.
  apply mbind_Ret in H as (dll & w0 & Hs4 & H). apply lift_Ret in Hs4 as ->.
  apply mbind_Ret in H as (h & w1 & Hload & H).
  unfold callLoadLibraryA, mbind, get_trace, emit, mret in Hload.
  injection Hload as <- <-.
  set (h := LoadLibraryA host (trace w) dll) in *.
  set (w1 := {| trace := trace w ++ [EvLoadLibraryA dll h]; region := region w |}) in *.
  destruct (Z.eqb_spec h 0) as [Hz | Hnz].
  { injection H as <- <- <-. exists [EvLoadLibraryA dll h], []. rewrite !app_nil_r.
    repeat split; [ constructor | discriminate | ].
    intros _. exists h. reflexivity. }
  apply mbind_Ret in H as (oft & w0 & Hs5 & H). apply read_Ret in Hs5 as [-> _].
  apply mbind_Ret in H as (oft0 & w0 & Hs6 & H). apply index_Ret in Hs6 as ->.
  apply mbind_Ret in H as (ft & w0 & Hs7 & H). apply read_Ret in Hs7 as [-> _].
  apply mbind_Ret in H as (chosen & w0 & Hs8 & H).
  assert (w0 = w1) as ->.
  { destruct (oft =? 0); [ apply index_Ret in Hs8; exact Hs8 | injection Hs8 as _ <-; reflexivity ]. }
  apply mbind_Ret in H as (iat & w0 & Hs9 & H). apply index_Ret in Hs9 as ->.
  apply mbind_Ret in H as (resolved & w2 & Hth & H).
  apply thunk_loop_loads_nothing in Hth as (t2 & Ht2 & Hl2).
  cbn [trace w1] in Ht2.
  destruct resolved; cbn [negb] in H.
  - apply IH in H as (t3 & hs3 & Ht3 & Hm3 & Hnz3 & Hok3 & Hfail3).
    cbn [Module_.AddImportModule Module_._importModules] in Hm3.
    exists (EvLoadLibraryA dll h :: t2 ++ t3), (h :: hs3).
    assert (Hl : loaded (EvLoadLibraryA dll h :: t2 ++ t3) = h :: loaded t3).
    { change (EvLoadLibraryA dll h :: t2 ++ t3) with ([EvLoadLibraryA dll h] ++ t2 ++ t3).
      rewrite !loaded_app, Hl2. reflexivity. }
    split; [ rewrite Ht3, Ht2, <- !app_assoc; reflexivity | ].
    split; [ rewrite Hm3, <- app_assoc; reflexivity | ].
    split; [ constructor; assumption | ].
    split.
    + intros Hok. rewrite Hl, (Hok3 Hok). reflexivity.
    + intros Hok. destruct (Hfail3 Hok) as (h' & Hh'). exists h'. rewrite Hl, Hh'. reflexivity.
  - injection H as <- <- <-.
    exists (EvLoadLibraryA dll h :: t2), []. rewrite app_nil_r.
    split; [ rewrite Ht2, <- app_assoc; reflexivity | ].
    split; [ reflexivity | ].
    split; [ constructor | ].
    split; [ discriminate | ].
    intros _. exists h.
    change (EvLoadLibraryA dll h :: t2) with ([EvLoadLibraryA dll h] ++ t2).
    rewrite loaded_app, Hl2. reflexivity.
Qed.

(** X18. Which libraries [BuildIAT] records. Whenever [BuildIAT]
    returns, the handles it appended to the module's import list are
    non-null handles that its [LoadLibraryA] calls returned, in call
    order. When it returns true they are all the handles those calls
    returned. When it returns false they are all but the last: the last
    [LoadLibraryA] result was either null or the handle of the library
    one of whose symbols did not resolve, and it is not recorded. *)
Theorem BuildIAT_records_all_but_last (host : Host) (fuel : nat) (m m' : Module_.t)
        (w w' : world) (ok : bool)
  (Hrun : ModuleLoader.BuildIAT host fuel m w = Ret ((ok, m'), w')) :
  exists t hs,
    trace w' = trace w ++ t /\
    Module_._importModules m' = Module_._importModules m ++ hs /\
    Forall (fun h => h <> 0) hs /\
    (ok = true -> loaded t = hs) /\
    (ok = false -> exists h, loaded t = hs ++ [h]).
Proof.
  unfold ModuleLoader.BuildIAT in Hrun.
  apply mbind_Ret in Hrun as (dir & w0 & Hdir & Hrun).
  assert (w0 = w) as ->.
  { unfold Module_.ImportDirectory, Module_.FetchDataDirectory in Hdir.
    apply mbind_Ret in Hdir as (va & w1 & H1 & Hdir).
    apply mbind_Ret in Hdir as (sz & w2 & H2 & Hdir).
    unfold Module_.nt_field in H1, H2.
    destruct (Module_._ntHeader m); [ | discriminate ].
    apply read_Ret in H1 as [-> _]. apply read_Ret in H2 as [-> _].
    destruct (sz =? 0); injection Hdir as _ <-; reflexivity. }
  destruct dir as [d | ].
  - exact (descriptor_loop_records host fuel fuel m d w w' ok m' Hrun).
  - injection Hrun as <- <- <-. exists [], []. rewrite !app_nil_r.
    repeat split; [ constructor | discriminate ].
Qed.

Lemma BuildIAT_records_all_but_last_witness :
  exists t hs,
    [EvLoadLibraryA (String.list_byte_of_string "a.dll") Sample.a_dll_handle;
     EvGetProcAddress Sample.a_dll_handle (ByName (String.list_byte_of_string "f")) 0]
    = [] ++ t /\
    @nil Z = [] ++ hs /\
    Forall (fun h => h <> 0) hs /\
    (false = true -> loaded t = hs) /\
    (false = false -> exists h, loaded t = hs ++ [h]).
Proof.
  exact (BuildIAT_records_all_but_last Sample.unresolving 16
           (Module_.mk Sample.mapped_base 0x2000 (Some 0) (Some 64) [328] [] Success true)
           (Module_.mk Sample.mapped_base 0x2000 (Some 0) (Some 64) [328] [] Success true)
           {| trace := []; region := Sample.mapped_importer |}
           {| trace := [EvLoadLibraryA (String.list_byte_of_string "a.dll")
                                       Sample.a_dll_handle;
                        EvGetProcAddress Sample.a_dll_handle
                                         (ByName (String.list_byte_of_string "f")) 0];
              region := Sample.mapped_importer |}
           false ltac:(vm_compute; reflexivity)).
Defined.

(** ** Phase 8: TLS callbacks *)

Lemma tls_loop_runs (imageBase : Z) (cbs : list Z) :
  forall (p : Z) (w : world) (n : nat),
    thunk_array (region w) (p - imageBase) cbs ->
    (length cbs < n)%nat ->
    ModuleLoader.tls_loop n imageBase p w
    = Ret (tt, {| trace := trace w ++ map (fun cb => EvTlsCallback cb imageBase) cbs;
                  region := region w |}).
Proof.
  induction cbs as [ | cb cbs IH ]; intros p w n Harr Hn.
  - inversion Harr as [ ? Hend | ]; subst. destruct n as [ | n ]; [ cbn in Hn; lia | ].
    cbn [ModuleLoader.tls_loop map]. unfold mbind at 1. rewrite (read_ok 8 _ 0 w Hend).
    rewrite app_nil_r. destruct w; reflexivity.
  - inversion Harr as [ | ? ? ? Hcb Hnz Hrest ]; subst.
    destruct n as [ | n ]; [ cbn in Hn; lia | ].
    cbn [length] in Hn.
    cbn [ModuleLoader.tls_loop map]. unfold mbind at 1. rewrite (read_ok 8 _ cb w Hcb).
    replace (cb =? 0) with false by (symmetry; apply Z.eqb_neq; exact Hnz).
    unfold mbind, emit.
    rewrite (IH (p + 8)).
    + cbn [trace region]. rewrite <- app_assoc. reflexivity.
    + cbn [region]. replace (p + 8 - imageBase) with (p - imageBase + 8) by lia. exact Hrest.
    + lia.
Qed.

(** X19. When the TLS directory of the mapped image is present and its
    [AddressOfCallBacks] is the address of a null-terminated array of
    callback addresses inside the region, [RunTLSCallbacks] invokes each
    callback of the array once, in array order, with the image base as
    first argument, stops at the null entry and returns. (A callback is
    a host event of the model; the model does not let it write to the
    region.) *)
Theorem TLS_callbacks_run_in_order (fuel : nat) (m : Module_.t) (w : world)
        (nt d dirsize address : Z) (callbacks : list Z)
  (Hnt : Module_._ntHeader m = Some nt)
  (Hdir : load32 (region w) (nt + (off_DataDirectory + 8 * IMAGE_DIRECTORY_ENTRY_TLS)) = Ret d)
  (Hsz : load32 (region w) (nt + (off_DataDirectory + 8 * IMAGE_DIRECTORY_ENTRY_TLS + 4))
         = Ret dirsize)
  (Hpresent : dirsize <> 0)
  (Haddr : load64 (region w) (d + off_AddressOfCallBacks) = Ret address)
  (Harr : callback_array (region w) (address - Module_.ImageBase m) callbacks)
  (Hfuel : (length callbacks < fuel)%nat) :
  ModuleLoader.RunTLSCallbacks fuel m w
  = Ret (tt, {| trace := trace w ++
                         map (fun cb => EvTlsCallback cb (Module_.ImageBase m)) callbacks;
                region := region w |}).
Proof.
  unfold ModuleLoader.RunTLSCallbacks, Module_.TLSDirectory,
    Module_.FetchDataDirectory, Module_.nt_field. rewrite Hnt.
  unfold mbind at 1. unfold mbind at 1. rewrite (read_ok 4 _ d w Hdir).
  unfold mbind at 1. rewrite (read_ok 4 _ dirsize w Hsz).
  replace (dirsize =? 0) with false by (symmetry; apply Z.eqb_neq; exact Hpresent).
  unfold mret. unfold mbind at 1. rewrite (read_ok 8 _ address w Haddr).
  apply tls_loop_runs; assumption.
Qed.

Lemma TLS_callbacks_run_in_order_witness :
  ModuleLoader.RunTLSCallbacks 4
    (Module_.mk Sample.mapped_base 0x138 (Some 0) (Some 0) [] [] Success true)
    {| trace := []; region := Sample.tls_region |}
  = Ret (tt, {| trace := [EvTlsCallback (Sample.mapped_base + 0x500) Sample.mapped_base;
                          EvTlsCallback (Sample.mapped_base + 0x600) Sample.mapped_base];
                region := Sample.tls_region |}).
Proof.
  apply (TLS_callbacks_run_in_order 4
           (Module_.mk Sample.mapped_base 0x138 (Some 0) (Some 0) [] [] Success true)
           {| trace := []; region := Sample.tls_region |}
           0 0xE0 0x28 (Sample.mapped_base + 0x120)
           [Sample.mapped_base + 0x500; Sample.mapped_base + 0x600]).
  - reflexivity.
  - vm_compute; reflexivity.
  - vm_compute; reflexivity.
  - discriminate.
  - vm_compute; reflexivity.
  - apply thunks_next; [ vm_compute; reflexivity | vm_compute; discriminate | ].
    apply thunks_next; [ vm_compute; reflexivity | vm_compute; discriminate | ].
    apply thunks_end. vm_compute; reflexivity.
  - cbn; lia.
Defined.

(** ** The program as a whole *)

(** X20. A file that the parser does not accept never reaches the host.
    When the file cannot be opened, or the parser rejects its bytes
    with whatever error, the program makes no host call and maps no
    region; it returns as it does after a successful load. *)
Theorem rejected_file_makes_no_call (host : Host) (fuel : nat) (file : option (list byte))
        (w : world)
  (Hrej : file = None \/
          exists data e, file = Some data /\ rejected_with (PE.Parse data) e) :
  run host fuel file w = Ret (tt, w).
Proof.
  unfold run.
  destruct Hrej as [ -> | (data & e & -> & pe & Hparse & Hok & _) ].
  - cbn [PE.make]. unfold mbind, lift. cbv beta iota.
    rewrite Load_not_ok by reflexivity. reflexivity.
  - cbn [PE.make]. rewrite Hparse. unfold mbind, lift. cbv beta iota.
    rewrite Load_not_ok by exact Hok. reflexivity.
Qed.

Lemma rejected_file_makes_no_call_witness :
  run Sample.friendly 16 (Some Sample.bad_magic) start = Ret (tt, start).
Proof.
  apply (rejected_file_makes_no_call Sample.friendly 16 (Some Sample.bad_magic) start).
  right. exists Sample.bad_magic, InvalidPeFormat. split; [ reflexivity | ].
  eexists. split; [ vm_compute; reflexivity | ]. split; reflexivity.
Defined.

(** ** Phase 7 within the load *)




